(** * Illumio label modules: a shallow embedding and its properties

    The repository holds two Ansible modules,
    [plugins/modules/assign_managed_labels.py] and
    [plugins/modules/create_label.py].  Both are straight-line scripts that
    read a CSV file, talk to the PCE over HTTP and report lists of
    results.  They are embedded here as functions in a state-and-exception
    monad: the state holds the local variables of [run_module], the state
    of the PCE and the log of the HTTP requests sent so far. *)

From Stdlib Require Import ZArith String Ascii List Lia.
From stdpp Require Import base option strings pretty gmap list.

Set Warnings "-register-all".
Open Scope string_scope.
Open Scope list_scope.

(** ** Python values *)

(** The values [json.loads] produces; they are also the Python values the
    modules compute with ([None] is [JNull], [int] is [JNum], [str] is
    [JStr], [list] is [JArr], [dict] is [JObj]).  JSON numbers are
    restricted to integers, and an object is taken with distinct keys, as
    [json.loads] delivers it. *)
Inductive json : Type :=
| JNull
| JBool (b : bool)
| JNum (n : Z)
| JStr (s : string)
| JArr (l : list json)
| JObj (l : list (string * json)).

(** The exceptions (all subclasses of [Exception]) the modules can raise. *)
Inductive exn : Type :=
| KeyError
| TypeError
| IndexError
| AttributeError
| UnboundLocalError
| JSONDecodeError
| OSError
| RequestException.

(** What a module hands back to Ansible: [module.exit_json] with its keyword
    arguments, or [module.fail_json] with its message.  Both end the process ([SystemExit]). *)
Inductive output : Type :=
| ExitJson (kwargs : list (string * json))
| FailJson (msg : string).

(** The result of running a piece of code: a value, an exception, or the
    end of the process through [exit_json] / [fail_json].  [SystemExit] is
    not an [Exception], so an [except Exception] clause lets [Exit] pass. *)
Inductive res (A : Type) : Type :=
| Ok (a : A)
| Raise (e : exn)
| Exit (o : output).
Arguments Ok {A} a.
Arguments Raise {A} e.
Arguments Exit {A} o.

(** A cell of a [csv.DictReader] row is a [str], or [None] when the line
    is shorter than the header. *)
Definition of_csv (v : option string) : json :=
  match v with
  | Some s => JStr s
  | None => JNull
  end.

(** [x == t] where [t] is a [str] or [None]: Python's equality between any
    decoded JSON value and such a [t] holds exactly when [x] is the same
    string, or is [None] too. *)
Definition py_eq (x : json) (t : option string) : bool :=
  match x, t with
  | JStr s, Some s' => bool_decide (s = s')
  | JNull, None => true
  | _, _ => false
  end.

(** [bool(x)], as tested by [if x:]. *)
Definition truthy (x : json) : bool :=
  match x with
  | JNull => false
  | JBool b => b
  | JNum n => negb (n =? 0)%Z
  | JStr s => negb (bool_decide (s = ""))
  | JArr l => match l with [] => false | _ => true end
  | JObj l => match l with [] => false | _ => true end
  end.

(** [x[k]] for a string key [k]. *)
Fixpoint assoc (k : string) (l : list (string * json)) : option json :=
  match l with
  | [] => None
  | (k', v) :: l' => if bool_decide (k' = k) then Some v else assoc k l'
  end.

Definition getitem (x : json) (k : string) : res json :=
  match x with
  | JObj l => match assoc k l with
              | Some v => Ok v
              | None => Raise KeyError
              end
  | _ => Raise TypeError
  end.

(** The elements [for e in x] visits: the items of a list, the keys of a
    dict, the characters of a string; anything else is not iterable. *)
Definition py_iter (x : json) : res (list json) :=
  match x with
  | JArr l => Ok l
  | JObj l => Ok (map (fun kv => JStr (fst kv)) l)
  | JStr s => Ok (map (fun c => JStr (String c EmptyString)) (list_ascii_of_string s))
  | _ => Raise TypeError
  end.

(** [a + b] on strings; [None] on either side is a [TypeError]. *)
Definition str_add (a b : option string) : res string :=
  match a, b with
  | Some x, Some y => Ok (x +:+ y)
  | _, _ => Raise TypeError
  end.

(** [b[0]] on the bytes of a response body: the first byte, as an [int]
    (the module defines a coroutine with [async def], so it runs under
    Python 3, where indexing [bytes] gives an [int]). *)
Definition bytes_getitem0 (b : string) : res json :=
  match b with
  | EmptyString => Raise IndexError
  | String c _ => Ok (JNum (Z.of_nat (nat_of_ascii c)))
  end.

(** ** HTTP *)

Inductive method : Type := GET | POST | PUT.

(** A call of [requests.get/post/put(url, auth=HTTPBasicAuth(user,
    password), data=json.dumps(data))]; the body is kept as the value
    handed to [json.dumps]. *)
Record request : Type := Request {
  meth : method;
  url : string;
  auth : string * string;
  data : option json;
}.

Record response : Type := Response {
  status_code : Z;
  content : string;
}.

(** [response.text] is the body decoded to [str]; bodies are kept as
    strings of bytes here, so it is the body itself. *)
Definition text (r : response) : string := content r.

(** A row of [csv.DictReader]: a dict from the header's column names.
    The surplus cells of an over-long line, which the reader keeps under
    the key [None], are read by neither module and are left out. *)
Abbreviation row := (gmap string (option string)).

(** What the modules do not own: the PCE, reached through [requests] (no
    response means the call raised), [json.loads], and [open] followed by
    [csv.DictReader] (no rows means the file could not be opened). *)
Class Externals (S : Type) : Type := {
  http : request -> S -> option response * S;
  json_loads : string -> option json;
  open_csv : string -> option (list row);
}.

Record world (S : Type) : Type := World {
  pce_state : S;
  sent : list request;
}.
Arguments World {S} _ _.
Arguments pce_state {S} _.
Arguments sent {S} _.

(** ** The monad *)

(** Code with local variables [L], running against the world. *)
Definition M (S L A : Type) : Type := L -> world S -> res A * L * world S.

Definition ret {S L A} (a : A) : M S L A := fun l w => (Ok a, l, w).

Definition bind {S L A B} (c : M S L A) (k : A -> M S L B) : M S L B :=
  fun l w =>
    match c l w with
    | (Ok a, l', w') => k a l' w'
    | (Raise e, l', w') => (Raise e, l', w')
    | (Exit o, l', w') => (Exit o, l', w')
    end.

Notation "'let!' x ':=' c 'in' k" := (bind c (fun x => k))
  (at level 10, x name, c at level 100, k at level 200).
Notation "c ';;;' k" := (bind c (fun _ => k))
  (at level 100, k at level 200, right associativity).

Definition lift {S L A} (r : res A) : M S L A := fun l w => (r, l, w).
Definition exit_json {S L A} (kwargs : list (string * json)) : M S L A :=
  lift (Exit (ExitJson kwargs)).
Definition fail_json {S L A} (msg : string) : M S L A :=
  lift (Exit (FailJson msg)).

Definition get_locals {S L} : M S L L := fun l w => (Ok l, l, w).
Definition modify {S L} (f : L -> L) : M S L unit := fun l w => (Ok tt, f l, w).

(** Reading a local variable that may not have been assigned yet. *)
Definition read_var {S L A} (proj : L -> option A) : M S L A :=
  fun l w =>
    match proj l with
    | Some a => (Ok a, l, w)
    | None => (Raise UnboundLocalError, l, w)
    end.

(** [try: c except Exception: h]. *)
Definition try_except {S L A} (c : M S L A) (h : exn -> M S L A) : M S L A :=
  fun l w =>
    match c l w with
    | (Raise e, l', w') => h e l' w'
    | r => r
    end.

(** [for x in xs: body]. *)
Fixpoint for_each {S L X} (xs : list X) (body : X -> M S L unit) : M S L unit :=
  match xs with
  | [] => ret tt
  | x :: xs' => body x ;;; for_each xs' body
  end.

Section Primitives.
Context {S : Type} `{!Externals S} {L : Type}.

(** One HTTP call: the request is logged, the PCE answers or the call
    raises. *)
Definition requests (rq : request) : M S L response :=
  fun l w =>
    match http rq (pce_state w) with
    | (Some r, s') => (Ok r, l, World s' (sent w ++ [rq]))
    | (None, s') => (Raise RequestException, l, World s' (sent w ++ [rq]))
    end.

Definition loads (body : string) : res json :=
  match json_loads body with
  | Some v => Ok v
  | None => Raise JSONDecodeError
  end.

Definition open_rows (path : string) : res (list row) :=
  match open_csv path with
  | Some rows => Ok rows
  | None => Raise OSError
  end.
End Primitives.

(** [rows[k]]. *)
Definition row_get (r : row) (k : string) : res (option string) :=
  match r !! k with
  | Some v => Ok v
  | None => Raise KeyError
  end.

(** ** plugins/modules/assign_managed_labels.py *)

Module assign_managed_labels.

Record params : Type := Params {
  workload : string;
  user : string;
  password : string;
  pce : string;
  org_href : string;
  check_mode : bool;
}.

Inductive label_type : Type := Role | App | Env | Loc.

Global Instance label_type_eq_dec : EqDecision label_type.
Proof. solve_decision. Defined.

(** The literal used for each label type: ["role"], ["app"], ["env"],
    ["loc"]. *)
Definition key_of (t : label_type) : string :=
  match t with
  | Role => "role"
  | App => "app"
  | Env => "env"
  | Loc => "loc"
  end.

(** The dict of dicts built by [display_labels]: one dict per label
    type, from label value to href.  Only string keys are kept: a value
    that is a number, a boolean or [None] is hashable, so Python stores
    it, but no string read from the CSV ever compares equal to it. *)
Abbreviation labels := (label_type -> gmap string json).

Definition empty_labels : labels := fun _ => ∅.

(** [labels[t][k] = v]. *)
Definition labels_store (t : label_type) (k : string) (v : json) (l : labels) : labels :=
  fun t' => if decide (t' = t) then <[k := v]> (l t') else l t'.

(** The local variables of [run_module] that outlive one statement. *)
Record locals : Type := Locals {
  assigned : list (option string);
  not_assigned : list (option string);
  labels_details : option labels;
  role_href : option json;
  app_href : option json;
  env_href : option json;
  loc_href : option json;
  check : Z;
}.

(** Before the first statement: the two result lists are empty and no
    other variable is bound ([check] is assigned before every read, so
    the value it starts with is never seen). *)
Definition init_locals : locals :=
  Locals [] [] None None None None None 0.

Definition href_var (t : label_type) : locals -> option json :=
  match t with
  | Role => role_href
  | App => app_href
  | Env => env_href
  | Loc => loc_href
  end.

Definition set_href (t : label_type) (h : json) (l : locals) : locals :=
  match t with
  | Role => Locals (assigned l) (not_assigned l) (labels_details l)
              (Some h) (app_href l) (env_href l) (loc_href l) (check l)
  | App => Locals (assigned l) (not_assigned l) (labels_details l)
              (role_href l) (Some h) (env_href l) (loc_href l) (check l)
  | Env => Locals (assigned l) (not_assigned l) (labels_details l)
              (role_href l) (app_href l) (Some h) (loc_href l) (check l)
  | Loc => Locals (assigned l) (not_assigned l) (labels_details l)
              (role_href l) (app_href l) (env_href l) (Some h) (check l)
  end.

Definition set_labels_details (ld : labels) (l : locals) : locals :=
  Locals (assigned l) (not_assigned l) (Some ld)
    (role_href l) (app_href l) (env_href l) (loc_href l) (check l).

Definition set_check (c : Z) (l : locals) : locals :=
  Locals (assigned l) (not_assigned l) (labels_details l)
    (role_href l) (app_href l) (env_href l) (loc_href l) c.

Definition append_assigned (ip : option string) (l : locals) : locals :=
  Locals (assigned l ++ [ip]) (not_assigned l) (labels_details l)
    (role_href l) (app_href l) (env_href l) (loc_href l) (check l).

Definition append_not_assigned (ip : option string) (l : locals) : locals :=
  Locals (assigned l) (not_assigned l ++ [ip]) (labels_details l)
    (role_href l) (app_href l) (env_href l) (loc_href l) (check l).

(** What [response] is bound to in [display_labels]: the answer of
    [requests.get], or the coroutine object a call of [async_api]
    returns (the coroutine is never awaited, so its body never runs). *)
Inductive pyobj : Type :=
| RespObj (r : response)
| Coroutine (api : string).

Definition async_api (api : string) : pyobj := Coroutine api.

(** [o.content]: a coroutine object has no such attribute. *)
Definition get_content (o : pyobj) : res string :=
  match o with
  | RespObj r => Ok (content r)
  | Coroutine _ => Raise AttributeError
  end.

(** [d[k] = v] for a dict [d] with the key taken from JSON: lists and
    dicts are not hashable. *)
Definition store_label (t : label_type) (k v : json) (l : labels) : res labels :=
  match k with
  | JStr s => Ok (labels_store t s v l)
  | JArr _ | JObj _ => Raise TypeError
  | _ => Ok l
  end.

(** [if label_data['key'] == t: labels[t][label_data['value']] =
    label_data['href']]. *)
Definition display_case (t : label_type) (label_data : json) (l : labels) : res labels :=
  match getitem label_data "key" with
  | Ok k =>
      if py_eq k (Some (key_of t)) then
        match getitem label_data "href" with
        | Ok h =>
            match getitem label_data "value" with
            | Ok v => store_label t v h l
            | Raise e => Raise e
            | Exit o => Exit o
            end
        | Raise e => Raise e
        | Exit o => Exit o
        end
      else Ok l
  | Raise e => Raise e
  | Exit o => Exit o
  end.

Definition res_bind {A B} (r : res A) (k : A -> res B) : res B :=
  match r with
  | Ok a => k a
  | Raise e => Raise e
  | Exit o => Exit o
  end.

(** The body of [for label_data in obj]. *)
Definition display_step (label_data : json) (l : labels) : res labels :=
  res_bind (display_case Role label_data l) (fun l =>
  res_bind (display_case App label_data l) (fun l =>
  res_bind (display_case Env label_data l) (fun l =>
  display_case Loc label_data l))).

Fixpoint display_loop (items : list json) (l : labels) : res labels :=
  match items with
  | [] => Ok l
  | label_data :: items' => res_bind (display_step label_data l) (display_loop items')
  end.

(** From the decoded listing to the dict of dicts. *)
Definition build_labels (obj : json) : res labels :=
  res_bind (py_iter obj) (fun items => display_loop items empty_labels).

Section Code.
Context {S : Type} `{!Externals S}.
Variable p : params.

Definition API : string :=
  pce p +:+ "/api/v2/" +:+ org_href p +:+ "/workloads?managed=true".
Definition labels_API : string :=
  pce p +:+ "/api/v2/" +:+ org_href p +:+ "/labels".

Definition basic_auth : string * string := (user p, password p).

(** Function to get the list of labels from PCE. *)
Definition display_labels {L} : M S L labels :=
  let! response := requests (Request GET labels_API basic_auth None) in
  let response :=
    if (String.length (content response) =? 500)%nat
    then async_api labels_API
    else RespObj response in
  let! body := lift (get_content response) in
  let! obj := lift (loads body) in
  lift (build_labels obj).

(** Function to add labels to PCE. *)
Definition create_label {L} (t : label_type) (name : string) : M S L string :=
  let! response :=
    requests (Request POST labels_API basic_auth
                (Some (JObj [("key", JStr (key_of t)); ("value", JStr name)]))) in
  ret (content response).

(** Check if label already exists in PCE. If not add to PCE and get
    its href. *)
Definition resolve (t : label_type) (v : option string) : M S locals unit :=
  match v with
  | None => ret tt
  | Some name =>
      let! ld := read_var labels_details in
      match ld t !! name with
      | Some h => modify (set_href t h)
      | None =>
          let! body := create_label t name in
          let! href := lift (bytes_getitem0 body) in
          modify (set_labels_details (labels_store t name href ld)) ;;;
          modify (set_href t href)
      end
  end.

(** [pce + "/api/v2" + x]. *)
Definition uri_of (x : json) : res string :=
  match x with
  | JStr s => Ok (pce p +:+ "/api/v2" +:+ s)
  | _ => Raise TypeError
  end.

(** [if h: label.append({"href": h})]. *)
Definition add_ref (h : json) (label : list json) : list json :=
  if truthy h then label ++ [JObj [("href", h)]] else label.

(** The body of [for data in values['interfaces']]. *)
Definition assign_step (public_ip : option string) (values data : json)
  : M S locals unit :=
  let! address := lift (getitem data "address") in
  let! hit :=
    if py_eq address public_ip then ret true
    else (let! pip := lift (getitem values "public_ip") in
          ret (py_eq pip public_ip)) in
  if hit : bool then
    modify (set_check 1) ;;;
    let label := [] in
    let! h := read_var role_href in
    let label := add_ref h label in
    let! h := read_var app_href in
    let label := add_ref h label in
    let! h := read_var env_href in
    let label := add_ref h label in
    let! h := read_var loc_href in
    let label := add_ref h label in
    let! href := lift (getitem values "href") in
    let! uri := lift (uri_of href) in
    requests (Request PUT uri basic_auth (Some (JObj [("labels", JArr label)]))) ;;;
    modify (append_assigned public_ip)
  else ret tt.

(** The body of [for values in obj]. *)
Definition assign_workload (public_ip : option string) (values : json)
  : M S locals unit :=
  let! interfaces := lift (getitem values "interfaces") in
  let! datas := lift (py_iter interfaces) in
  for_each datas (assign_step public_ip values).

(** Check the managed workload with workload from csv file and assign
    labels. *)
Definition assign_phase (public_ip : option string) (obj : json)
  : M S locals unit :=
  modify (set_check 0) ;;;
  let! workloads := lift (py_iter obj) in
  for_each workloads (assign_workload public_ip) ;;;
  let! l := get_locals in
  if (check l =? 0)%Z then modify (append_not_assigned public_ip)
  else ret tt.

(** The body of [for rows in workload_details]. *)
Definition row_body (rows : row) : M S locals unit :=
  let! public_ip := lift (row_get rows "ip") in
  let! role := lift (row_get rows "role") in
  let! app := lift (row_get rows "app") in
  let! env := lift (row_get rows "env") in
  let! loc := lift (row_get rows "loc") in
  let! response := requests (Request GET API basic_auth None) in
  let! obj := lift (loads (text response)) in
  resolve Role role ;;;
  resolve App app ;;;
  resolve Env env ;;;
  resolve Loc loc ;;;
  assign_phase public_ip obj.

Definition run_module : M S locals unit :=
  if check_mode p then exit_json []
  else
    let! ld := display_labels in
    modify (set_labels_details ld) ;;;
    let! workload_details := lift (open_rows (workload p)) in
    for_each workload_details row_body ;;;
    let! l := get_locals in
    exit_json [("changed", JBool true);
               ("labels_assigned", JArr (map of_csv (assigned l)));
               ("not_assigned", JArr (map of_csv (not_assigned l)))].

(** One execution of the module against a PCE in state [s]. *)
Definition main (s : S) : res unit * locals * world S :=
  run_module init_locals (World s []).
End Code.

End assign_managed_labels.

(** ** plugins/modules/create_label.py *)

Module create_label.

Record params : Type := Params {
  name : option string;
  type : option string;
  path : option string;
  user : string;
  password : string;
  pce : string;
  org_href : string;
  check_mode : bool;
}.

(** The dict [list] with its two lists. *)
Record locals : Type := Locals {
  success : list string;
  error : list string;
}.

(** [list = {"success": [], "error": []}]; nothing reads [list] before. *)
Definition init_locals : locals := Locals [] [].

Definition append_success (s : string) (l : locals) : locals :=
  Locals (success l ++ [s]) (error l).

Definition append_error (s : string) (l : locals) : locals :=
  Locals (success l) (error l ++ [s]).

(** [if x:] for a module parameter of type [str] that may be absent. *)
Definition given (x : option string) : bool :=
  match x with
  | Some s => negb (bool_decide (s = ""))
  | None => false
  end.

(** [x == lit] for a string literal. *)
Definition is_lit (x : option string) (lit : string) : bool :=
  bool_decide (x = Some lit).

Section Code.
Context {S : Type} `{!Externals S}.
Variable p : params.

Definition API : string := pce p +:+ "/api/v2/" +:+ org_href p +:+ "/labels".

Definition basic_auth : string * string := (user p, password p).

(** [requests.post(API, auth=..., data=json.dumps({"key": key, "value":
    value}))]. *)
Definition post_label (key value : option string) : M S locals response :=
  requests (Request POST API basic_auth
              (Some (JObj [("key", of_csv key); ("value", of_csv value)]))).

(** The body of [for rows in label_value]. *)
Definition csv_row (rows : row) : M S locals unit :=
  let! key := lift (row_get rows "type") in
  let! value := lift (row_get rows "name") in
  if is_lit key "loc" || is_lit key "env" || is_lit key "role" || is_lit key "app" then
    post_label key value ;;;
    let! s := lift (str_add key (Some " : ")) in
    let! s := lift (str_add (Some s) value) in
    modify (append_success s)
  else
    let! s := lift (str_add (Some "Invalid type:") key) in
    let! s := lift (str_add (Some s) (Some ". Type should be either env,app,loc,role")) in
    modify (append_error s).

(** The branch [elif l_type and l_name]. *)
Definition single_record (l_type l_name : option string) : M S locals unit :=
  if is_lit l_type "env" || is_lit l_type "loc" || is_lit l_type "app" || is_lit l_type "role" then
    let! s := lift (str_add l_type (Some " : ")) in
    let! s := lift (str_add (Some s) l_name) in
    modify (append_success s) ;;;
    post_label l_type l_name ;;;
    ret tt
  else
    exit_json [("msg", JStr "Invalid type value."); ("failed", of_csv l_type)].

(** The [try] block. *)
Definition try_body : M S locals unit :=
  let l_name := name p in
  let l_type := type p in
  let l_path := path p in
  (if given l_path then
     let! label_value := lift (open_rows (default "" l_path)) in
     for_each label_value csv_row
   else if given l_type && given l_name then
     single_record l_type l_name
   else
     exit_json [("msg", JStr "Parameter mismatch.")]) ;;;
  let! l := get_locals in
  exit_json [("error", JArr (map JStr (error l)));
             ("success", JArr (map JStr (success l)))].

Definition run_module : M S locals unit :=
  if check_mode p then exit_json []
  else
    modify (fun _ => init_locals) ;;;
    try_except try_body (fun _ => fail_json "Error!!").

(** One execution of the module against a PCE in state [s]. *)
Definition main (s : S) : res unit * locals * world S :=
  run_module init_locals (World s []).
End Code.

End create_label.

(** ** A scripted PCE, for running the modules on concrete inputs *)

(** JSON text of a value, in the layout of [json.dumps] (strings that need
    no escaping only). *)
Definition dquote : string := String (ascii_of_nat 34) EmptyString.

Definition quoted (s : string) : string := dquote +:+ s +:+ dquote.

Fixpoint dumps (j : json) : string :=
  match j with
  | JNull => "null"
  | JBool b => if b then "true" else "false"
  | JNum n => pretty n
  | JStr s => quoted s
  | JArr l =>
      "[" +:+
      (fix items (l : list json) : string :=
         match l with
         | [] => ""
         | x :: l' =>
             dumps x +:+ match l' with [] => "" | _ => ", " +:+ items l' end
         end) l
      +:+ "]"
  | JObj l =>
      "{" +:+
      (fix members (l : list (string * json)) : string :=
         match l with
         | [] => ""
         | (k, v) :: l' =>
             quoted k +:+ ": " +:+ dumps v
             +:+ match l' with [] => "" | _ => ", " +:+ members l' end
         end) l
      +:+ "}"
  end.

(** A PCE that answers from a script: the two listings are fixed texts,
    every create is accepted and remembered, every update is accepted. *)
Record script : Type := Script {
  labels_body : string;
  labels_json : json;
  workloads_json : json;
  created_json : json;
  files : list (string * list row);
}.

Fixpoint file_rows (path : string) (fs : list (string * list row)) : option (list row) :=
  match fs with
  | [] => None
  | (name, rows) :: fs' => if bool_decide (name = path) then Some rows else file_rows path fs'
  end.

Definition pce_url : string := "https://pce.example.com".
Definition org : string := "orgs/1".

Definition scripted (sc : script) : Externals (list json) := {|
  http rq s :=
    match meth rq with
    | GET =>
        if bool_decide (url rq = pce_url +:+ "/api/v2/" +:+ org +:+ "/labels")
        then (Some (Response 200 (labels_body sc)), s)
        else if bool_decide (url rq = pce_url +:+ "/api/v2/" +:+ org +:+ "/workloads?managed=true")
        then (Some (Response 200 (dumps (workloads_json sc))), s)
        else (Some (Response 404 ""), s)
    | POST => (Some (Response 201 (dumps (created_json sc))), s ++ [default JNull (data rq)])
    | PUT => (Some (Response 200 "{}"), s)
    end;
  json_loads body :=
    if bool_decide (body = labels_body sc) then Some (labels_json sc)
    else if bool_decide (body = dumps (workloads_json sc)) then Some (workloads_json sc)
    else None;
  open_csv path := file_rows path (files sc)
|}.

(** ** Vocabulary of the properties *)

(** The (type, value) pair a create request asks for. *)
Definition created_pair (rq : request) : option (string * string) :=
  match meth rq, data rq with
  | POST, Some (JObj [("key", JStr k); ("value", JStr v)]) => Some (k, v)
  | _, _ => None
  end.

Definition created_pairs (log : list request) : list (string * string) :=
  omap created_pair log.

Definition is_meth (m : method) (rq : request) : bool :=
  match m, meth rq with
  | GET, GET | POST, POST | PUT, PUT => true
  | _, _ => false
  end.

(** The requests of one kind in a log, in the order they were sent. *)
Definition only (m : method) (log : list request) : list request :=
  List.filter (is_meth m) log.

(** A managed workload as the matching code reads it: its href, its
    [public_ip] (a string or null) and the addresses of its interfaces. *)
Record managed_workload : Type := ManagedWorkload {
  identifier : string;
  public_ip : option string;
  interfaces : list string;
}.

(** [values] is a workload object carrying at least these three fields. *)
Definition represents (values : json) (m : managed_workload) : Prop :=
  getitem values "href" = Ok (JStr (identifier m)) ∧
  getitem values "public_ip" = Ok (of_csv (public_ip m)) ∧
  ∃ datas, getitem values "interfaces" = Ok (JArr datas) ∧
           Forall2 (fun d a => getitem d "address" = Ok (JStr a)) datas (interfaces m).

(** The matching rule of the specification: the target equals the
    workload's [public_ip] or one of its interface addresses. *)
Definition matches (ip : option string) (m : managed_workload) : bool :=
  bool_decide (public_ip m = ip) || bool_decide (ip ∈ Some <$> interfaces m).

(** The PCE answers every create, with a body that is not empty. *)
Definition creates_answered {S} `{!Externals S} : Prop :=
  ∀ rq s, meth rq = POST →
    ∃ r s', http rq s = (Some r, s') ∧ content r ≠ "".

(** The PCE answers every update. *)
Definition updates_answered {S} `{!Externals S} : Prop :=
  ∀ rq s, meth rq = PUT → ∃ r s', http rq s = (Some r, s').

(** No call to the PCE raises. *)
Definition never_raises {S} `{!Externals S} : Prop :=
  ∀ rq (s : S), is_Some (fst (http rq s)).

(** A computation that returns normally, with a postcondition. *)
Definition returns {S L A} (c : M S L A) (l : L) (w : world S)
    (Q : A → L → world S → Prop) : Prop :=
  ∃ a l' w', c l w = (Ok a, l', w') ∧ Q a l' w'.

(** What resolving labels leaves alone: the two result lists, the updates
    sent so far, and the fact that a variable is bound. *)
Definition resolve_frame {S} (l : assign_managed_labels.locals) (w : world S)
    (l' : assign_managed_labels.locals) (w' : world S) : Prop :=
  assign_managed_labels.assigned l' = assign_managed_labels.assigned l ∧
  assign_managed_labels.not_assigned l' = assign_managed_labels.not_assigned l ∧
  (is_Some (assign_managed_labels.labels_details l) →
   is_Some (assign_managed_labels.labels_details l')) ∧
  (∀ t, is_Some (assign_managed_labels.href_var t l) →
        is_Some (assign_managed_labels.href_var t l')) ∧
  only PUT (sent w') = only PUT (sent w).

(** The update the matching loop sends for a workload, given the four
    identifiers bound to [role_href], [app_href], [env_href], [loc_href]:
    a reference for each identifier that is truthy, in that order. *)
Definition update_request (p : assign_managed_labels.params) (m : managed_workload)
    (h1 h2 h3 h4 : json) : request :=
  Request PUT (assign_managed_labels.pce p +:+ "/api/v2" +:+ identifier m)
    (assign_managed_labels.basic_auth p)
    (Some (JObj [("labels",
                  JArr (assign_managed_labels.add_ref h4
                          (assign_managed_labels.add_ref h3
                             (assign_managed_labels.add_ref h2
                                (assign_managed_labels.add_ref h1 []))))) ])).

(** A log in which every POST is a create of a (type, value) pair and no
    pair is created twice. *)
Definition creates_distinct (log : list request) : Prop :=
  NoDup (created_pairs log) ∧
  Forall (fun rq => meth rq = POST → is_Some (created_pair rq)) log.

(** Every pair created so far is in the in-memory catalog. *)
Definition catalog_covers (l : assign_managed_labels.locals) (log : list request) : Prop :=
  ∀ k v, (k, v) ∈ created_pairs log →
    ∃ t ld, k = assign_managed_labels.key_of t ∧
            assign_managed_labels.labels_details l = Some ld ∧
            is_Some (ld t !! v).

Definition create_inv {S} (l : assign_managed_labels.locals) (w : world S) : Prop :=
  creates_distinct (sent w) ∧ catalog_covers l (sent w).

(** Code that keeps the invariant when it returns, and keeps the log free
    of repeated creates however it ends. *)
Definition keeps_creates_distinct {S A} (c : M S assign_managed_labels.locals A) : Prop :=
  ∀ l w, create_inv l w →
    match c l w with
    | (Ok _, l', w') => create_inv l' w'
    | (_, _, w') => creates_distinct (sent w')
    end.

(** What the assignment module does once the labels are listed: the
    rest of [run_module]. *)
Definition after_listing {S} `{!Externals S} (p : assign_managed_labels.params)
  : M S assign_managed_labels.locals unit :=
  let! workload_details := lift (open_rows (assign_managed_labels.workload p)) in
  for_each workload_details (assign_managed_labels.row_body p) ;;;
  let! l := get_locals in
  exit_json [("changed", JBool true);
             ("labels_assigned", JArr (map of_csv (assign_managed_labels.assigned l)));
             ("not_assigned", JArr (map of_csv (assign_managed_labels.not_assigned l)))].

(** The allow-list of the creation module. *)
Definition valid_type (key : string) : bool :=
  bool_decide (key ∈ ["env"; "app"; "loc"; "role"]).

(** The create request of the creation module for one record. *)
Definition create_request (p : create_label.params) (key value : string) : request :=
  Request POST (create_label.API p) (create_label.basic_auth p)
    (Some (JObj [("key", JStr key); ("value", JStr value)])).

(** A row of the label file with both of its cells. *)
Definition label_row (key value : string) : row :=
  {[ "type" := Some key; "name" := Some value ]}.

(** What one pass over a label file sends, and what it reports. *)
Definition csv_requests (p : create_label.params) (records : list (string * string))
  : list request :=
  flat_map (fun kv => if valid_type (fst kv) then [create_request p (fst kv) (snd kv)] else [])
    records.

Definition csv_success (records : list (string * string)) : list string :=
  flat_map (fun kv => if valid_type (fst kv) then [fst kv +:+ " : " +:+ snd kv] else [])
    records.

Definition invalid_type_message (key : string) : string :=
  "Invalid type:" +:+ key +:+ ". Type should be either env,app,loc,role".

Definition csv_error (records : list (string * string)) : list string :=
  flat_map (fun kv => if valid_type (fst kv) then [] else [invalid_type_message (fst kv)])
    records.

(** A row of the label file holds the record [kv] (type, name). *)
Definition row_has (r : row) (kv : string * string) : Prop :=
  r !! "type" = Some (Some (fst kv)) ∧ r !! "name" = Some (Some (snd kv)).

Definition strs (l : list string) : json := JArr (map JStr l).

(** What a run hands back, and what it sent. *)
Definition output_of {S L A} (x : res A * L * world S) : res A := fst (fst x).
Definition world_of {S L A} (x : res A * L * world S) : world S := snd x.
Definition log_of {S L A} (x : res A * L * world S) : list request := sent (snd x).

(** ** Sample data *)

Definition label_object (key value href : string) : json :=
  JObj [("key", JStr key); ("value", JStr value); ("href", JStr href)].

Definition sample_listing : json :=
  JArr [label_object "role" "web" "/orgs/1/labels/1";
        label_object "app" "billing" "/orgs/1/labels/2";
        label_object "env" "prod" "/orgs/1/labels/3";
        label_object "loc" "us-east" "/orgs/1/labels/4"].

Definition workload_object (href ip : string) (addresses : list string) : json :=
  JObj [("href", JStr href);
        ("public_ip", JStr ip);
        ("interfaces",
          JArr (map (fun a => JObj [("name", JStr "eth0"); ("address", JStr a)]) addresses))].

Definition workload_row (ip role app env loc : string) : row :=
  list_to_map [("ip", Some ip); ("role", Some role); ("app", Some app);
               ("env", Some env); ("loc", Some loc)].

Definition sample_created : json :=
  JObj [("href", JStr "/orgs/1/labels/9")].

Definition assign_params : assign_managed_labels.params :=
  assign_managed_labels.Params "workload.csv" "api_user" "secret" pce_url org false.

Definition create_params_csv : create_label.params :=
  create_label.Params None None (Some "labels.csv") "api_user" "secret" pce_url org false.

Definition create_params_single (name type : string) : create_label.params :=
  create_label.Params (Some name) (Some type) None "api_user" "secret" pce_url org false.

(** One row, one workload whose [public_ip] is the row's IP and which has
    no interface. *)
Definition script_no_interface : script :=
  Script (dumps sample_listing) sample_listing
    (JArr [workload_object "/orgs/1/workloads/w1" "192.168.1.113" []])
    sample_created
    [("workload.csv", [workload_row "192.168.1.113" "web" "billing" "prod" "us-east"])].

(** One row whose role cell is empty, one workload that matches. *)
Definition script_empty_role : script :=
  Script (dumps sample_listing) sample_listing
    (JArr [workload_object "/orgs/1/workloads/w1" "192.168.1.113" ["192.168.1.113"]])
    sample_created
    [("workload.csv", [workload_row "192.168.1.113" "" "billing" "prod" "us-east"])].

(** Two rows with the same IP, one workload with one interface. *)
Definition script_same_ip_twice : script :=
  Script (dumps sample_listing) sample_listing
    (JArr [workload_object "/orgs/1/workloads/w1" "192.168.1.113" ["10.0.0.7"]])
    sample_created
    [("workload.csv", [workload_row "192.168.1.113" "web" "billing" "prod" "us-east";
                       workload_row "192.168.1.113" "web" "billing" "prod" "us-east"])].

(** One row, one workload with one interface, nothing to create. *)
Definition script_one_match : script :=
  Script (dumps sample_listing) sample_listing
    (JArr [workload_object "/orgs/1/workloads/w1" "192.168.1.113" ["10.0.0.7"]])
    sample_created
    [("workload.csv", [workload_row "192.168.1.113" "web" "billing" "prod" "us-east"])].

(** One row whose IP no workload has. *)
Definition script_no_match : script :=
  Script (dumps sample_listing) sample_listing
    (JArr [workload_object "/orgs/1/workloads/w1" "192.168.1.113" ["10.0.0.7"]])
    sample_created
    [("workload.csv", [workload_row "19.16.1.111" "web" "billing" "prod" "us-east"])].

(** An empty listing of labels, padded with blanks to 500 bytes. *)
Definition padded_empty_listing : string :=
  "[" +:+ string_of_list_ascii (repeat " "%char 498) +:+ "]".

Definition script_500_bytes : script :=
  Script padded_empty_listing (JArr [])
    (JArr []) sample_created [("workload.csv", [])].

(** A label file with one valid and one invalid row. *)
Definition script_label_file : script :=
  Script (dumps sample_listing) sample_listing (JArr []) sample_created
    [("labels.csv", [label_row "app" "billing"; label_row "ap" "test"])].

(** Two rows and two workloads; the second row stops after its role
    cell, so [csv.DictReader] fills its last three cells with [None]. *)
Definition short_row (ip role : string) : row :=
  list_to_map [("ip", Some ip); ("role", Some role); ("app", None);
               ("env", None); ("loc", None)].

Definition script_short_row : script :=
  Script (dumps sample_listing) sample_listing
    (JArr [workload_object "/orgs/1/workloads/w1" "192.168.1.113" ["192.168.1.113"];
           workload_object "/orgs/1/workloads/w2" "192.168.1.114" ["192.168.1.114"]])
    sample_created
    [("workload.csv", [workload_row "192.168.1.113" "web" "billing" "prod" "us-east";
                       short_row "192.168.1.114" "web"])].

(** ** Vocabulary of the further properties *)

(** A Hoare triple for the monad: from a state that meets [P] the code
    ends in a state that meets [Q] when it returns, and [E] when it raises
    or exits. *)
Definition triple {S L A} (P : L → world S → Prop) (c : M S L A)
    (Q : A → L → world S → Prop) (E : exn + output → L → world S → Prop) : Prop :=
  ∀ l w, P l w →
    match c l w with
    | (Ok a, l', w') => Q a l' w'
    | (Raise e, l', w') => E (inl e) l' w'
    | (Exit o, l', w') => E (inr o) l' w'
    end.

(** A property of the state that the code keeps however it ends. *)
Definition always {S L A} (I : L → world S → Prop) (c : M S L A) : Prop :=
  triple I c (fun _ => I) (fun _ => I).

(** A result that is a value or an exception. *)
Definition no_exit {A} (r : res A) : Prop :=
  match r with
  | Exit _ => False
  | _ => True
  end.

(** The one kind of request the creation module sends. *)
Definition is_create_of (p : create_label.params) (rq : request) : Prop :=
  meth rq = POST ∧ url rq = create_label.API p ∧
  auth rq = create_label.basic_auth p ∧
  ∃ k v, data rq = Some (JObj [("key", k); ("value", v)]).

(** Only such requests have been sent. *)
Definition sends_creates {S} (p : create_label.params)
    (l : create_label.locals) (w : world S) : Prop :=
  Forall (is_create_of p) (sent w).

(** The creation module's parameters with [name] and [type] left out. *)
Definition without_record (p : create_label.params) : create_label.params :=
  create_label.Params None None (create_label.path p) (create_label.user p)
    (create_label.password p) (create_label.pce p) (create_label.org_href p)
    (create_label.check_mode p).

(** An outcome other than [fail_json]. *)
Definition not_fail_json {S L} (x : exn + output) (_ : L) (_ : world S) : Prop :=
  match x with
  | inr (FailJson _) => False
  | _ => True
  end.

(** A label file whose second line stops after the type. *)
Definition short_label_row (key : string) : row :=
  {[ "type" := Some key; "name" := None ]}.

Definition script_short_label_row : script :=
  Script (dumps sample_listing) sample_listing (JArr []) sample_created
    [("labels.csv", [label_row "app" "billing"; short_label_row "env";
                     label_row "loc" "us-east"])].

Definition create_params_both : create_label.params :=
  create_label.Params (Some "test_application") (Some "app") (Some "labels.csv")
    "api_user" "secret" pce_url org false.

Definition create_params_check : create_label.params :=
  create_label.Params None None (Some "labels.csv") "api_user" "secret" pce_url org true.

Definition create_params_none : create_label.params :=
  create_label.Params (Some "test_application") None None
    "api_user" "secret" pce_url org false.

Definition create_params_missing_file : create_label.params :=
  create_label.Params None None (Some "missing.csv") "api_user" "secret" pce_url org false.

Definition assign_params_check : assign_managed_labels.params :=
  assign_managed_labels.Params "workload.csv" "api_user" "secret" pce_url org true.

(** An item of the labels listing with its three fields; the key can be
    any string. *)
Definition is_label_object (j : json) (rec : string * string * json) : Prop :=
  let '(k, v, h) := rec in
  getitem j "key" = Ok (JStr k) ∧ getitem j "value" = Ok (JStr v) ∧
  getitem j "href" = Ok h.

(** The href the listing gives for a label: the one of the last item with
    that type and value. *)
Definition listed (records : list (string * string * json))
    (t : assign_managed_labels.label_type) (v : string) : option json :=
  fold_left
    (fun acc rec =>
       let '(k, v', h) := rec in
       if bool_decide (k = assign_managed_labels.key_of t) && bool_decide (v' = v)
       then Some h else acc)
    records None.

(** How many times the matching loop hits a workload: once for each of
    its interfaces, when the target is its [public_ip]; otherwise once for
    each interface whose address is the target. *)
Definition hits (ip : option string) (m : managed_workload) : nat :=
  length (List.filter
            (fun a => bool_decide (Some a = ip) || bool_decide (public_ip m = ip))
            (interfaces m)).

(** The updates the matching loop sends over a list of workloads. *)
Definition updates_for (p : assign_managed_labels.params) (ip : option string)
    (h1 h2 h3 h4 : json) (ms : list managed_workload) : list request :=
  flat_map (fun m => repeat (update_request p m h1 h2 h3 h4) (hits ip m)) ms.

(** The state after the matching loop has sent the updates [reqs]. *)
Definition after_updates {S} (ip : option string) (reqs : list request)
    (l : assign_managed_labels.locals) (w : world S)
    (l' : assign_managed_labels.locals) (w' : world S) : Prop :=
  assign_managed_labels.assigned l' =
    assign_managed_labels.assigned l ++ repeat ip (length reqs) ∧
  assign_managed_labels.not_assigned l' = assign_managed_labels.not_assigned l ∧
  (∀ t, assign_managed_labels.href_var t l' = assign_managed_labels.href_var t l) ∧
  assign_managed_labels.check l' =
    match reqs with
    | [] => assign_managed_labels.check l
    | _ => 1%Z
    end ∧
  sent w' = sent w ++ reqs.

(** A workload whose interfaces have the addresses 10.0.0.7 and
    10.0.0.8. *)
Definition two_interfaces : managed_workload :=
  ManagedWorkload "/orgs/1/workloads/w1" (Some "192.168.1.113") ["10.0.0.7"; "10.0.0.8"].

Definition bound_locals : assign_managed_labels.locals :=
  assign_managed_labels.Locals [] [] (Some assign_managed_labels.empty_labels)
    (Some (JStr "/orgs/1/labels/1")) (Some (JStr "/orgs/1/labels/2"))
    (Some (JStr "/orgs/1/labels/3")) (Some (JStr "/orgs/1/labels/4")) 0.

(** The body of an update: at most four label references, each to an
    identifier that is truthy. *)
Definition label_refs (label : list json) : Prop :=
  ∃ hs, label = map (fun h => JObj [("href", h)]) hs ∧
        (length hs ≤ 4)%nat ∧ Forall (fun h => truthy h = true) hs.

(** The requests the assignment module sends. *)
Definition is_assign_request (p : assign_managed_labels.params) (rq : request) : Prop :=
  auth rq = assign_managed_labels.basic_auth p ∧
  match meth rq with
  | GET =>
      data rq = None ∧
      (url rq = assign_managed_labels.labels_API p ∨ url rq = assign_managed_labels.API p)
  | POST =>
      url rq = assign_managed_labels.labels_API p ∧
      ∃ t name, data rq = Some (JObj [("key", JStr (assign_managed_labels.key_of t));
                                      ("value", JStr name)])
  | PUT =>
      ∃ href label,
        url rq = assign_managed_labels.pce p +:+ "/api/v2" +:+ href ∧
        data rq = Some (JObj [("labels", JArr label)]) ∧ label_refs label
  end.

Definition sends_assign {S} (p : assign_managed_labels.params)
    (l : assign_managed_labels.locals) (w : world S) : Prop :=
  Forall (is_assign_request p) (sent w).

(** A fetch of the managed workloads. *)
Definition is_fetch (p : assign_managed_labels.params) (rq : request) : bool :=
  is_meth GET rq && bool_decide (url rq = assign_managed_labels.API p).

Definition fetches (p : assign_managed_labels.params) (log : list request) : nat :=
  length (List.filter (is_fetch p) log).

(** The books of the assignment module after [n] rows: an entry of the
    assigned list for every update sent, one fetch of the workloads per
    row, at most one entry of the not-assigned list per row. *)
Definition accounted {S} (p : assign_managed_labels.params) (n : nat)
    (l : assign_managed_labels.locals) (w : world S) : Prop :=
  length (assign_managed_labels.assigned l) = length (only PUT (sent w)) ∧
  fetches p (sent w) = n ∧
  (length (assign_managed_labels.not_assigned l) ≤ n)%nat.

(** The same in the middle of row [n + 1], its fetch done. *)
Definition fetched {S} (p : assign_managed_labels.params) (n : nat)
    (l : assign_managed_labels.locals) (w : world S) : Prop :=
  length (assign_managed_labels.assigned l) = length (only PUT (sent w)) ∧
  fetches p (sent w) = Datatypes.S n ∧
  (length (assign_managed_labels.not_assigned l) ≤ n)%nat.

(** Code that may raise but calls neither [exit_json] nor [fail_json]. *)
Definition no_exits {S L} (x : exn + output) (_ : L) (_ : world S) : Prop :=
  match x with
  | inl _ => True
  | inr _ => False
  end.

(** How a run of the assignment module can end. *)
Definition assignment_end {S} `{!Externals S} (p : assign_managed_labels.params)
    (x : exn + output) (l : assign_managed_labels.locals) (w : world S) : Prop :=
  match x with
  | inl _ => assign_managed_labels.check_mode p = false
  | inr (FailJson _) => False
  | inr (ExitJson kwargs) =>
      (assign_managed_labels.check_mode p = true ∧ kwargs = []) ∨
      (assign_managed_labels.check_mode p = false ∧
       ∃ rows, open_csv (assign_managed_labels.workload p) = Some rows ∧
               kwargs = [("changed", JBool true);
                         ("labels_assigned",
                           JArr (map of_csv (assign_managed_labels.assigned l)));
                         ("not_assigned",
                           JArr (map of_csv (assign_managed_labels.not_assigned l)))] ∧
               accounted p (length rows) l w)
  end.

(** The in-memory catalog holds at least the bindings of [ld0]. *)
Definition catalog_extends {S} (ld0 : assign_managed_labels.labels)
    (l : assign_managed_labels.locals) (w : world S) : Prop :=
  ∃ ld, assign_managed_labels.labels_details l = Some ld ∧
        ∀ t v h, ld0 t !! v = Some h → ld t !! v = Some h.

(** A workload file that exists and has no row. *)
Definition script_empty_file : script :=
  Script (dumps sample_listing) sample_listing (JArr []) sample_created
    [("workload.csv", [])].

Definition assign_params_missing_file : assign_managed_labels.params :=
  assign_managed_labels.Params "missing.csv" "api_user" "secret" pce_url org false.

(** A labels answer in which the PCE reports an error. *)
Definition error_document : json :=
  JArr [JObj [("token", JStr "forbidden"); ("message", JStr "Forbidden")]].

Definition script_error_document : script :=
  Script (dumps error_document) error_document (JArr []) sample_created
    [("workload.csv", [workload_row "192.168.1.113" "web" "billing" "prod" "us-east"])].

(** The catalog of the sample listing, and the variables of a run that has
    just built it. *)
Definition sample_catalog : assign_managed_labels.labels :=
  assign_managed_labels.labels_store assign_managed_labels.Loc "us-east"
    (JStr "/orgs/1/labels/4")
    (assign_managed_labels.labels_store assign_managed_labels.Env "prod"
       (JStr "/orgs/1/labels/3")
       (assign_managed_labels.labels_store assign_managed_labels.App "billing"
          (JStr "/orgs/1/labels/2")
          (assign_managed_labels.labels_store assign_managed_labels.Role "web"
             (JStr "/orgs/1/labels/1") assign_managed_labels.empty_labels))).

Definition listed_locals : assign_managed_labels.locals :=
  assign_managed_labels.set_labels_details sample_catalog
    assign_managed_labels.init_locals.

(** * Properties *)

(** ** The monad *)

Section MonadFacts.
Context {S : Type} `{!Externals S} {L : Type}.

Lemma returns_ret {A} (a : A) (l : L) (w : world S) Q :
  Q a l w → returns (ret a) l w Q.
Proof. intros HQ. exists a, l, w. split; [reflexivity | exact HQ]. Qed.

Lemma returns_lift {A} (a : A) (l : L) (w : world S) Q :
  Q a l w → returns (lift (Ok a)) l w Q.
Proof. apply returns_ret. Qed.

Lemma returns_modify (f : L → L) (l : L) (w : world S) Q :
  Q tt (f l) w → returns (modify f) l w Q.
Proof. intros HQ. exists tt, (f l), w. split; [reflexivity | exact HQ]. Qed.

Lemma returns_get_locals (l : L) (w : world S) Q :
  Q l l w → returns get_locals l w Q.
Proof. intros HQ. exists l, l, w. split; [reflexivity | exact HQ]. Qed.

Lemma returns_read_var {A} (proj : L → option A) (a : A) (l : L) (w : world S) Q :
  proj l = Some a → Q a l w → returns (read_var proj) l w Q.
Proof.
  intros Hp HQ. exists a, l, w. split; [| exact HQ].
  unfold read_var. rewrite Hp. reflexivity.
Qed.

Lemma returns_bind {A B} (c : M S L A) (k : A → M S L B) (l : L) (w : world S) Q :
  returns c l w (fun a l' w' => returns (k a) l' w' Q) → returns (bind c k) l w Q.
Proof.
  intros (a & l1 & w1 & Hc & b & l2 & w2 & Hk & HQ).
  exists b, l2, w2. split; [| exact HQ].
  unfold bind. rewrite Hc. exact Hk.
Qed.

Lemma returns_mono {A} (c : M S L A) (l : L) (w : world S) (Q Q' : A → L → world S → Prop) :
  returns c l w Q → (∀ a l' w', Q a l' w' → Q' a l' w') → returns c l w Q'.
Proof.
  intros (a & l1 & w1 & Hc & HQ) Himp. exists a, l1, w1. split; [exact Hc | auto].
Qed.

Lemma returns_eq {A} (c : M S L A) (l l' : L) (w w' : world S) (a : A) Q :
  c l w = (Ok a, l', w') → Q a l' w' → returns c l w Q.
Proof. intros Hc HQ. exists a, l', w'. split; assumption. Qed.

Lemma returns_requests (rq : request) (r : response) (s' : S) (l : L) (w : world S) Q :
  http rq (pce_state w) = (Some r, s') →
  Q r l (World s' (sent w ++ [rq])) →
  returns (requests rq) l w Q.
Proof.
  intros Hh HQ. exists r, l, (World s' (sent w ++ [rq])). split; [| exact HQ].
  unfold requests. rewrite Hh. reflexivity.
Qed.

Lemma for_each_app {X} (xs ys : list X) (body : X → M S L unit) (l : L) (w : world S) :
  for_each (xs ++ ys) body l w = (for_each xs body ;;; for_each ys body) l w.
Proof.
  revert l w. induction xs as [| x xs IH]; intros l w.
  - reflexivity.
  - simpl. unfold bind.
    destruct (body x l w) as [[[[] | e | o] l1] w1]; try reflexivity.
    rewrite IH. reflexivity.
Qed.

Lemma returns_for_each_app {X} (xs ys : list X) (body : X → M S L unit)
    (l : L) (w : world S) Q :
  returns (for_each xs body) l w (fun _ l' w' => returns (for_each ys body) l' w' Q) →
  returns (for_each (xs ++ ys) body) l w Q.
Proof.
  intros H. apply returns_bind in H.
  destruct H as (a & l' & w' & Hrun & HQ). exists a, l', w'.
  split; [| exact HQ]. rewrite for_each_app. exact Hrun.
Qed.

(** A loop whose every iteration leaves the state alone. *)
Lemma for_each_skip {X} (xs : list X) (body : X → M S L unit) (l : L) (w : world S) :
  Forall (fun x => body x l w = (Ok tt, l, w)) xs →
  for_each xs body l w = (Ok tt, l, w).
Proof.
  induction 1 as [| x xs Hx _ IH]; [reflexivity |].
  simpl. unfold bind. rewrite Hx. exact IH.
Qed.

End MonadFacts.

(** ** Strings, rows and logs *)

Lemma append_assoc (a b c : string) : (a +:+ b) +:+ c = a +:+ b +:+ c.
Proof.
  induction a as [| x a IH]; [reflexivity |].
  change (String x ((a +:+ b) +:+ c) = String x (a +:+ b +:+ c)).
  rewrite IH. reflexivity.
Qed.

Lemma row_get_cell (r : row) (k : string) (v : option string) :
  r !! k = Some v → row_get r k = Ok v.
Proof. intros H. unfold row_get. rewrite H. reflexivity. Qed.

Lemma py_eq_of_csv (a b : option string) : py_eq (of_csv a) b = bool_decide (a = b).
Proof.
  destruct a as [x |], b as [y |]; simpl; try reflexivity.
  apply Bool.eq_iff_eq_true. rewrite !bool_decide_eq_true.
  split; [intros -> | intros [= ->]]; reflexivity.
Qed.

Lemma only_app (m : method) (xs ys : list request) :
  only m (xs ++ ys) = only m xs ++ only m ys.
Proof. unfold only. apply List.filter_app. Qed.


(** ** The scripted PCE *)

Lemma scripted_never_raises (sc : script) : @never_raises _ (scripted sc).
Proof.
  intros rq s. unfold http, scripted.
  destruct (meth rq); simpl; repeat case_bool_decide; simpl; eauto.
Qed.

Lemma scripted_creates_answered (sc : script) :
  dumps (created_json sc) ≠ "" → @creates_answered _ (scripted sc).
Proof.
  intros Hbody rq s Hm. unfold http, scripted. rewrite Hm.
  eexists _, _. split; [reflexivity | exact Hbody].
Qed.

Lemma scripted_updates_answered (sc : script) : @updates_answered _ (scripted sc).
Proof.
  intros rq s Hm. unfold http, scripted. rewrite Hm. eexists _, _. reflexivity.
Qed.


(** ** The creation module *)

Section CreateFacts.
Import create_label.
Context {S : Type} `{!Externals S}.
Variable p : params.

(** The two chains of comparisons are the allow-list. *)
Lemma csv_test_allow_list (key : string) :
  is_lit (Some key) "loc" || is_lit (Some key) "env"
  || is_lit (Some key) "role" || is_lit (Some key) "app" = valid_type key.
Proof.
  apply Bool.eq_iff_eq_true. unfold is_lit, valid_type.
  rewrite !orb_true_iff, !bool_decide_eq_true, !elem_of_cons, elem_of_nil.
  split.
  - intros [[[H | H] | H] | H]; injection H as ->; auto 6.
  - intros [-> | [-> | [-> | [-> | []]]]]; auto 6.
Qed.

Lemma single_test_allow_list (key : string) :
  is_lit (Some key) "env" || is_lit (Some key) "loc"
  || is_lit (Some key) "app" || is_lit (Some key) "role" = valid_type key.
Proof.
  apply Bool.eq_iff_eq_true. unfold is_lit, valid_type.
  rewrite !orb_true_iff, !bool_decide_eq_true, !elem_of_cons, elem_of_nil.
  split.
  - intros [[[H | H] | H] | H]; injection H as ->; auto 6.
  - intros [-> | [-> | [-> | [-> | []]]]]; auto 6.
Qed.

(** A row with a valid type: one create request, then the success entry,
    whatever the PCE answered. *)
Lemma csv_row_valid (rows : row) (key value : string) (l : locals) (w : world S)
    (o : option response) (s' : S) :
  rows !! "type" = Some (Some key) → rows !! "name" = Some (Some value) →
  valid_type key = true →
  http (create_request p key value) (pce_state w) = (o, s') →
  csv_row p rows l w =
    (match o with Some _ => Ok tt | None => Raise RequestException end,
     match o with Some _ => append_success (key +:+ " : " +:+ value) l | None => l end,
     World s' (sent w ++ [create_request p key value])).
Proof.
  intros Ht Hn Hv Hh. unfold csv_row, bind, lift.
  rewrite (row_get_cell _ _ _ Ht), (row_get_cell _ _ _ Hn).
  rewrite csv_test_allow_list, Hv.
  unfold post_label, requests. simpl of_csv.
  change (Request POST (API p) (basic_auth p)
            (Some (JObj [("key", JStr key); ("value", JStr value)])))
    with (create_request p key value).
  rewrite Hh. destruct o; [| reflexivity].
  simpl. unfold modify. rewrite append_assoc. reflexivity.
Qed.

(** A row with an invalid type: the error entry, and nothing is sent. *)
Lemma csv_row_invalid (rows : row) (key : string) (value : option string)
    (l : locals) (w : world S) :
  rows !! "type" = Some (Some key) → rows !! "name" = Some value →
  valid_type key = false →
  csv_row p rows l w = (Ok tt, append_error (invalid_type_message key) l, w).
Proof.
  intros Ht Hn Hv. unfold csv_row, bind, lift.
  rewrite (row_get_cell _ _ _ Ht), (row_get_cell _ _ _ Hn).
  rewrite csv_test_allow_list, Hv. reflexivity.
Qed.

(** One pass over a label file. *)
Lemma csv_loop (rows : list row) (records : list (string * string))
    (l : locals) (w : world S) :
  never_raises (S:=S) → Forall2 row_has rows records →
  ∃ s', for_each rows (csv_row p) l w =
        (Ok tt,
         Locals (success l ++ csv_success records) (error l ++ csv_error records),
         World s' (sent w ++ csv_requests p records)).
Proof.
  intros Hans Hrows. revert l w.
  induction Hrows as [| r [key value] rows records [Ht Hn] _ IH]; intros l w.
  - exists (pce_state w). simpl. unfold ret. rewrite !app_nil_r.
    destruct l, w. reflexivity.
  - simpl in Ht, Hn. simpl for_each. unfold bind.
    destruct (valid_type key) eqn:Hv.
    + destruct (http (create_request p key value) (pce_state w)) as [o s1] eqn:Hh.
      destruct (Hans (create_request p key value) (pce_state w)) as [r0 Hr0].
      rewrite Hh in Hr0. simpl in Hr0. subst o.
      rewrite (csv_row_valid _ _ _ _ _ _ _ Ht Hn Hv Hh).
      destruct (IH (append_success (key +:+ " : " +:+ value) l)
                   (World s1 (sent w ++ [create_request p key value]))) as [s' Hs'].
      exists s'. rewrite Hs'. unfold csv_success, csv_error, csv_requests. simpl.
      rewrite Hv. simpl. rewrite <- !app_assoc. reflexivity.
    + rewrite (csv_row_invalid _ _ _ _ _ Ht Hn Hv).
      destruct (IH (append_error (invalid_type_message key) l) w) as [s' Hs'].
      exists s'. rewrite Hs'. unfold csv_success, csv_error, csv_requests. simpl.
      rewrite Hv. simpl. rewrite <- !app_assoc. reflexivity.
Qed.

Lemma csv_requests_no_get (records : list (string * string)) :
  only GET (csv_requests p records) = [].
Proof.
  induction records as [| [key value] records IH]; [reflexivity |].
  unfold csv_requests. simpl. destruct (valid_type key); simpl; exact IH.
Qed.

(** A whole run over a label file, against a PCE that answers. *)
Lemma main_csv (rows : list row) (records : list (string * string)) (s : S) :
  check_mode p = false → given (path p) = true →
  open_csv (default "" (path p)) = Some rows →
  Forall2 row_has rows records → never_raises (S:=S) →
  ∃ s', main p s =
        (Exit (ExitJson [("error", strs (csv_error records));
                         ("success", strs (csv_success records))]),
         Locals (csv_success records) (csv_error records),
         World s' (csv_requests p records)).
Proof.
  intros Hcheck Hpath Hopen Hrows Hans.
  destruct (csv_loop rows records init_locals (World s []) Hans Hrows) as [s' Hloop].
  exists s'. unfold main, run_module. rewrite Hcheck.
  unfold bind, modify, try_except, try_body, bind, lift. rewrite Hpath.
  unfold open_rows. rewrite Hopen. rewrite Hloop. reflexivity.
Qed.


(** A whole run in single-record mode with a valid type: the entry is
    recorded before the create is sent, and reported unless the call
    raises. *)
Lemma main_single (t n : string) (s : S) (o : option response) (s' : S) :
  check_mode p = false → given (path p) = false →
  type p = Some t → name p = Some n → t ≠ "" → n ≠ "" →
  valid_type t = true →
  http (create_request p t n) s = (o, s') →
  main p s =
    (Exit (match o with
           | Some _ => ExitJson [("error", strs []);
                                 ("success", strs [t +:+ " : " +:+ n])]
           | None => FailJson "Error!!"
           end),
     Locals [t +:+ " : " +:+ n] [],
     World s' [create_request p t n]).
Proof.
  intros Hcheck Hpath Ht Hn Hte Hne Hv Hh.
  assert (Hgt : given (Some t) = true).
  { simpl. rewrite bool_decide_eq_false_2; [reflexivity | exact Hte]. }
  assert (Hgn : given (Some n) = true).
  { simpl. rewrite bool_decide_eq_false_2; [reflexivity | exact Hne]. }
  unfold main, run_module. rewrite Hcheck.
  unfold bind, modify, try_except, try_body, bind.
  rewrite Hpath, Ht, Hn, Hgt, Hgn. simpl andb. cbv iota.
  unfold single_record. rewrite single_test_allow_list, Hv.
  unfold bind, lift, modify, post_label, requests. simpl.
  change (Request POST (API p) (basic_auth p)
            (Some (JObj [("key", JStr t); ("value", JStr n)])))
    with (create_request p t n).
  rewrite Hh, append_assoc. destruct o; reflexivity.
Qed.
End CreateFacts.

(** C6. In CSV mode a row whose type is not env, app, loc or role is
    recorded as the error string that quotes the type, sends no request,
    and the loop goes on with the rows that follow. *)
Theorem invalid_type_row_recorded_and_skipped {S} `{!Externals S}
    (p : create_label.params) (rows : row) (rest : list row) (key : string)
    (value : option string) (l : create_label.locals) (w : world S) :
  rows !! "type" = Some (Some key) → rows !! "name" = Some value →
  valid_type key = false →
  create_label.csv_row p rows l w =
    (Ok tt,
     create_label.append_error
       ("Invalid type:" +:+ key +:+ ". Type should be either env,app,loc,role") l,
     w) ∧
  for_each (rows :: rest) (create_label.csv_row p) l w =
    for_each rest (create_label.csv_row p)
      (create_label.append_error
         ("Invalid type:" +:+ key +:+ ". Type should be either env,app,loc,role") l)
      w.
Proof.
  intros Ht Hn Hv.
  pose proof (csv_row_invalid p rows key value l w Ht Hn Hv) as Hrow.
  split; [exact Hrow |].
  simpl. unfold bind. rewrite Hrow. reflexivity.
Qed.

Lemma invalid_type_row_recorded_and_skipped_witness :
  @create_label.csv_row _ (scripted script_label_file) create_params_csv
    (label_row "ap" "test") create_label.init_locals (World [] []) =
    (Ok tt,
     create_label.Locals [] ["Invalid type:ap. Type should be either env,app,loc,role"],
     World [] []) ∧
  @for_each _ _ _ [label_row "ap" "test"; label_row "app" "billing"]
    (@create_label.csv_row _ (scripted script_label_file) create_params_csv)
    create_label.init_locals (World [] []) =
  @for_each _ _ _ [label_row "app" "billing"]
    (@create_label.csv_row _ (scripted script_label_file) create_params_csv)
    (create_label.Locals [] ["Invalid type:ap. Type should be either env,app,loc,role"])
    (World [] []).
Proof.
  apply (@invalid_type_row_recorded_and_skipped _ (scripted script_label_file)
           create_params_csv (label_row "ap" "test") [label_row "app" "billing"]
           "ap" (Some "test") create_label.init_locals (World [] []));
    reflexivity.
Defined.

(** C7. In single-record mode an invalid type ends the run at once: the
    module exits reporting [failed] with a non-empty value, and nothing
    has been sent. *)
Theorem single_record_invalid_type_fails {S} `{!Externals S}
    (p : create_label.params) (s : S) (t n : string) :
  create_label.check_mode p = false →
  create_label.given (create_label.path p) = false →
  create_label.type p = Some t → create_label.name p = Some n →
  t ≠ "" → n ≠ "" → valid_type t = false →
  create_label.main p s =
    (Exit (ExitJson [("msg", JStr "Invalid type value."); ("failed", JStr t)]),
     create_label.init_locals, World s []) ∧
  truthy (JStr t) = true.
Proof.
  intros Hcheck Hpath Ht Hn Hte Hne Hv.
  assert (Hgt : create_label.given (Some t) = true).
  { simpl. rewrite bool_decide_eq_false_2; [reflexivity | exact Hte]. }
  assert (Hgn : create_label.given (Some n) = true).
  { simpl. rewrite bool_decide_eq_false_2; [reflexivity | exact Hne]. }
  split.
  - unfold create_label.main, create_label.run_module. rewrite Hcheck.
    unfold bind, modify, try_except, create_label.try_body, bind.
    rewrite Hpath, Ht, Hn, Hgt, Hgn. simpl andb. cbv iota.
    unfold create_label.single_record.
    rewrite single_test_allow_list, Hv. reflexivity.
  - simpl. rewrite bool_decide_eq_false_2; [reflexivity | exact Hte].
Qed.

Lemma single_record_invalid_type_fails_witness :
  @create_label.main _ (scripted script_label_file)
    (create_params_single "test_application" "ap") [] =
    (Exit (ExitJson [("msg", JStr "Invalid type value."); ("failed", JStr "ap")]),
     create_label.init_locals, World [] []) ∧
  truthy (JStr "ap") = true.
Proof.
  apply (@single_record_invalid_type_fails _ (scripted script_label_file)
           (create_params_single "test_application" "ap") [] "ap" "test_application");
    (reflexivity || discriminate).
Defined.

(** C10. The answer to a create request is never looked at: for a CSV row
    or a single record with a valid type, the entry "type : name" is
    recorded whatever response the PCE gave; in single-record mode it is
    recorded even when the call raises, since it is appended first, while
    in CSV mode a raising call leaves the row unrecorded. *)
Theorem create_response_never_inspected {S} `{!Externals S}
    (p : create_label.params) (rows : row) (key value : string)
    (l : create_label.locals) (w : world S) (o : option response) (s' : S) :
  valid_type key = true →
  rows !! "type" = Some (Some key) → rows !! "name" = Some (Some value) →
  http (create_request p key value) (pce_state w) = (o, s') →
  create_label.csv_row p rows l w =
    (match o with Some _ => Ok tt | None => Raise RequestException end,
     match o with
     | Some _ => create_label.append_success (key +:+ " : " +:+ value) l
     | None => l
     end,
     World s' (sent w ++ [create_request p key value])) ∧
  create_label.single_record p (Some key) (Some value) l w =
    (match o with Some _ => Ok tt | None => Raise RequestException end,
     create_label.append_success (key +:+ " : " +:+ value) l,
     World s' (sent w ++ [create_request p key value])).
Proof.
  intros Hv Ht Hn Hh. split.
  - exact (csv_row_valid p rows key value l w o s' Ht Hn Hv Hh).
  - unfold create_label.single_record.
    rewrite single_test_allow_list, Hv.
    unfold bind, lift, modify, create_label.post_label, requests. simpl.
    change (Request POST (create_label.API p) (create_label.basic_auth p)
              (Some (JObj [("key", JStr key); ("value", JStr value)])))
      with (create_request p key value).
    rewrite Hh, append_assoc. destruct o; reflexivity.
Qed.

Lemma create_response_never_inspected_witness :
  @create_label.csv_row _ (scripted script_label_file) create_params_csv
    (label_row "app" "billing") create_label.init_locals (World [] []) =
    (Ok tt, create_label.Locals ["app : billing"] [],
     World [JObj [("key", JStr "app"); ("value", JStr "billing")]]
       [create_request create_params_csv "app" "billing"]) ∧
  @create_label.single_record _ (scripted script_label_file) create_params_csv
    (Some "app") (Some "billing") create_label.init_locals (World [] []) =
    (Ok tt, create_label.Locals ["app : billing"] [],
     World [JObj [("key", JStr "app"); ("value", JStr "billing")]]
       [create_request create_params_csv "app" "billing"]).
Proof.
  apply (@create_response_never_inspected _ (scripted script_label_file)
           create_params_csv (label_row "app" "billing") "app" "billing"
           create_label.init_locals (World [] [])
           (Some (Response 201 (dumps sample_created)))
           [JObj [("key", JStr "app"); ("value", JStr "billing")]]);
    reflexivity.
Defined.

(** C5, as the code has it.  Two runs of the creation module over the same
    label file send the same create requests, one for every row with a
    valid type, whatever the PCE already holds; the module never asks the
    PCE for its labels. *)
Theorem creation_runs_repeat_creates {S} `{!Externals S}
    (p : create_label.params) (rows : list row) (records : list (string * string))
    (s : S) :
  create_label.check_mode p = false →
  create_label.given (create_label.path p) = true →
  open_csv (default "" (create_label.path p)) = Some rows →
  Forall2 row_has rows records →
  never_raises (S:=S) →
  log_of (create_label.main p s) = csv_requests p records ∧
  log_of (create_label.main p (pce_state (world_of (create_label.main p s))))
    = csv_requests p records ∧
  only GET (csv_requests p records) = [].
Proof.
  intros Hcheck Hpath Hopen Hrows Hans.
  destruct (main_csv p rows records s Hcheck Hpath Hopen Hrows Hans) as [s1 H1].
  rewrite H1. unfold world_of, log_of. simpl.
  destruct (main_csv p rows records s1 Hcheck Hpath Hopen Hrows Hans) as [s2 H2].
  rewrite H2. simpl.
  split; [reflexivity |]. split; [reflexivity |]. apply csv_requests_no_get.
Qed.

Lemma creation_runs_repeat_creates_witness :
  log_of (@create_label.main _ (scripted script_label_file) create_params_csv [])
    = [create_request create_params_csv "app" "billing"] ∧
  log_of (@create_label.main _ (scripted script_label_file) create_params_csv
            (pce_state (world_of (@create_label.main _ (scripted script_label_file)
                                    create_params_csv []))))
    = [create_request create_params_csv "app" "billing"] ∧
  only GET [create_request create_params_csv "app" "billing"] = [].
Proof.
  apply (@creation_runs_repeat_creates _ (scripted script_label_file)
           create_params_csv [label_row "app" "billing"; label_row "ap" "test"]
           [("app", "billing"); ("ap", "test")] []).
  - reflexivity.
  - reflexivity.
  - reflexivity.
  - repeat constructor.
  - apply scripted_never_raises.
Defined.

(** C5, as the specification has it, fails: against a PCE that accepts
    every create, the second run over the same file creates the label
    app/billing again, and sends nothing before that create. *)
Lemma second_creation_run_duplicates :
  let first := @create_label.main _ (scripted script_label_file) create_params_csv [] in
  let second := @create_label.main _ (scripted script_label_file) create_params_csv
                  (pce_state (world_of first)) in
  pce_state (world_of first) = [JObj [("key", JStr "app"); ("value", JStr "billing")]] ∧
  pce_state (world_of second) = [JObj [("key", JStr "app"); ("value", JStr "billing")];
                                 JObj [("key", JStr "app"); ("value", JStr "billing")]] ∧
  log_of second = [create_request create_params_csv "app" "billing"].
Proof. vm_compute. repeat split. Qed.


(** ** The assignment module: listing the labels *)

(** A body of exactly 500 bytes: [response] becomes the coroutine, whose
    [content] cannot be read. *)
Lemma display_labels_500_bytes {S} `{!Externals S} {L : Type}
    (p : assign_managed_labels.params) (l : L) (w : world S) (r : response) (s' : S) :
  http (Request GET (assign_managed_labels.labels_API p)
          (assign_managed_labels.basic_auth p) None) (pce_state w) = (Some r, s') →
  String.length (content r) = 500%nat →
  assign_managed_labels.display_labels p l w =
    (Raise AttributeError, l,
     World s' (sent w ++ [Request GET (assign_managed_labels.labels_API p)
                            (assign_managed_labels.basic_auth p) None])).
Proof.
  intros Hh Hlen.
  unfold assign_managed_labels.display_labels, bind, requests. rewrite Hh, Hlen.
  reflexivity.
Qed.

(** X23. When the body of the labels answer is not exactly 500 bytes long,
    [async_api] is not called: [display_labels] sends the GET and nothing
    else, and what it builds, or raises, is what decoding that body and
    filing its entries gives. *)
Theorem display_labels_reads_sync_body {S} `{!Externals S} {L : Type}
    (p : assign_managed_labels.params) (l : L) (w : world S) (r : response) (s' : S) :
  http (Request GET (assign_managed_labels.labels_API p)
          (assign_managed_labels.basic_auth p) None) (pce_state w) = (Some r, s') →
  String.length (content r) ≠ 500%nat →
  assign_managed_labels.display_labels p l w =
    (assign_managed_labels.res_bind (loads (content r)) assign_managed_labels.build_labels,
     l,
     World s' (sent w ++ [Request GET (assign_managed_labels.labels_API p)
                            (assign_managed_labels.basic_auth p) None])).
Proof.
  intros Hh Hlen.
  unfold assign_managed_labels.display_labels, bind, requests. rewrite Hh.
  apply Nat.eqb_neq in Hlen. rewrite Hlen.
  unfold lift. simpl.
  destruct (loads (content r)) as [obj | e | o]; reflexivity.
Qed.

Lemma display_labels_reads_sync_body_witness :
  @assign_managed_labels.display_labels _ (scripted script_one_match)
    assign_params unit tt (World [] []) =
    (assign_managed_labels.res_bind
       (@loads _ (scripted script_one_match) (dumps sample_listing))
       assign_managed_labels.build_labels,
     tt,
     World [] [Request GET (assign_managed_labels.labels_API assign_params)
                 (assign_managed_labels.basic_auth assign_params) None]).
Proof.
  apply (@display_labels_reads_sync_body _ (scripted script_one_match) unit
           assign_params tt (World [] []) (Response 200 (dumps sample_listing)) []).
  - reflexivity.
  - vm_compute. discriminate.
Defined.

(** C8, what the code does.  The PCE answers the labels GET with an empty
    listing padded to exactly 500 bytes, and the workload file has no row.
    The body is a well-formed listing, yet the guard [len(response.content)
    == 500] holds, [async_api] is called, and [response] is rebound to a
    coroutine nobody awaits: reading its [content] raises [AttributeError].
    [display_labels] parses nothing, and the run ends with that exception
    after the one GET; the synchronous body, which decodes to the empty
    listing, is never read. *)
Lemma async_branch_reached :
  String.length padded_empty_listing = 500%nat ∧
  @loads _ (scripted script_500_bytes) padded_empty_listing = Ok (JArr []) ∧
  assign_managed_labels.get_content
    (assign_managed_labels.async_api (assign_managed_labels.labels_API assign_params)) =
    Raise AttributeError ∧
  output_of (@assign_managed_labels.display_labels _ (scripted script_500_bytes)
               assign_params unit tt (World [] [])) = Raise AttributeError ∧
  output_of (@assign_managed_labels.main _ (scripted script_500_bytes)
               assign_params []) = Raise AttributeError ∧
  log_of (@assign_managed_labels.main _ (scripted script_500_bytes)
            assign_params []) =
    [Request GET (assign_managed_labels.labels_API assign_params)
       (assign_managed_labels.basic_auth assign_params) None].
Proof. vm_compute. repeat split. Qed.


(** ** The assignment module: matching *)

Section MatchFacts.
Import assign_managed_labels.
Context {S : Type} `{!Externals S}.
Variable p : params.

(** A workload without interfaces is passed over, whatever its
    [public_ip]. *)
Lemma assign_workload_no_interface (ip : option string) (values : json)
    (l : locals) (w : world S) :
  getitem values "interfaces" = Ok (JArr []) →
  assign_workload p ip values l w = (Ok tt, l, w).
Proof.
  intros Hifs. unfold assign_workload, bind, lift. rewrite Hifs. reflexivity.
Qed.

Lemma assign_step_miss (ip pip : option string) (values d : json) (a : string)
    (l : locals) (w : world S) :
  getitem d "address" = Ok (JStr a) →
  getitem values "public_ip" = Ok (of_csv pip) →
  Some a ≠ ip → pip ≠ ip →
  assign_step p ip values d l w = (Ok tt, l, w).
Proof.
  intros Ha Hp Hna Hnp. unfold assign_step, bind, lift. rewrite Ha.
  change (JStr a) with (of_csv (Some a)). rewrite py_eq_of_csv.
  rewrite bool_decide_eq_false_2 by exact Hna.
  rewrite Hp, py_eq_of_csv. rewrite bool_decide_eq_false_2 by exact Hnp.
  reflexivity.
Qed.

Lemma matches_false (ip : option string) (m : managed_workload) :
  matches ip m = false →
  public_ip m ≠ ip ∧ Forall (fun a => Some a ≠ ip) (interfaces m).
Proof.
  unfold matches. rewrite orb_false_iff, !bool_decide_eq_false.
  intros [Hp Hi]. split; [exact Hp |].
  apply Forall_forall. intros a Ha Heq. apply Hi. rewrite <- Heq.
  apply list_elem_of_fmap. exists a. split; [reflexivity | exact Ha].
Qed.

Lemma assign_steps_miss (ip pip : option string) (values : json) (datas : list json)
    (addrs : list string) (l : locals) (w : world S) :
  Forall2 (fun d a => getitem d "address" = Ok (JStr a)) datas addrs →
  Forall (fun a => Some a ≠ ip) addrs →
  getitem values "public_ip" = Ok (of_csv pip) → pip ≠ ip →
  Forall (fun d => assign_step p ip values d l w = (Ok tt, l, w)) datas.
Proof.
  intros Hdatas Hna Hpip Hnp. revert Hna.
  induction Hdatas as [| d a datas addrs Hd _ IH]; intros Hna.
  - constructor.
  - apply Forall_cons in Hna as [Ha Hrest]. constructor; [| exact (IH Hrest)].
    exact (assign_step_miss ip pip values d a l w Hd Hpip Ha Hnp).
Qed.

Lemma assign_workload_miss (ip : option string) (values : json) (m : managed_workload)
    (l : locals) (w : world S) :
  represents values m → matches ip m = false →
  assign_workload p ip values l w = (Ok tt, l, w).
Proof.
  intros (_ & Hpip & datas & Hifs & Hdatas) Hm.
  destruct (matches_false _ _ Hm) as [Hnp Hna].
  unfold assign_workload, bind, lift. rewrite Hifs. simpl.
  apply for_each_skip.
  exact (assign_steps_miss ip (public_ip m) values datas (interfaces m) l w
           Hdatas Hna Hpip Hnp).
Qed.

Lemma workloads_miss (ip : option string) (vs : list json) (ms : list managed_workload)
    (l : locals) (w : world S) :
  Forall2 represents vs ms → Forall (fun m => matches ip m = false) ms →
  for_each vs (assign_workload p ip) l w = (Ok tt, l, w).
Proof.
  intros Hrep Hmiss. apply for_each_skip.
  revert Hmiss. induction Hrep as [| v m vs ms Hv _ IH]; intros Hmiss.
  - constructor.
  - apply Forall_cons in Hmiss as [Hm Hrest]. constructor; [| exact (IH Hrest)].
    exact (assign_workload_miss ip v m l w Hv Hm).
Qed.

Lemma assign_phase_miss (ip : option string) (vs : list json) (ms : list managed_workload)
    (l : locals) (w : world S) :
  Forall2 represents vs ms → Forall (fun m => matches ip m = false) ms →
  assign_phase p ip (JArr vs) l w = (Ok tt, append_not_assigned ip (set_check 0 l), w).
Proof.
  intros Hrep Hmiss. unfold assign_phase, bind, modify, lift. simpl.
  rewrite (workloads_miss ip vs ms _ w Hrep Hmiss). reflexivity.
Qed.

(** A workload whose [public_ip] is the target and which has exactly one
    interface: one update, one entry. *)
Lemma assign_workload_hit (ip a : string) (values : json) (m : managed_workload)
    (h1 h2 h3 h4 : json) (l : locals) (w : world S) :
  represents values m → public_ip m = Some ip → interfaces m = [a] →
  role_href l = Some h1 → app_href l = Some h2 →
  env_href l = Some h3 → loc_href l = Some h4 →
  updates_answered (S:=S) →
  returns (assign_workload p (Some ip) values) l w
    (fun _ l' w' =>
       l' = append_assigned (Some ip) (set_check 1 l) ∧
       ∃ s', w' = World s' (sent w ++ [update_request p m h1 h2 h3 h4])).
Proof.
  intros (Hhref & Hpip & datas & Hifs & Hdatas) Hpub Hone H1 H2 H3 H4 Hans.
  rewrite Hone in Hdatas. rewrite Hpub in Hpip.
  apply Forall2_cons_inv_r in Hdatas as (d & datas' & Hd & Hnil & ->).
  apply Forall2_nil_inv_r in Hnil as ->.
  destruct (Hans (update_request p m h1 h2 h3 h4) (pce_state w) eq_refl) as (r & s' & Hh).
  unfold assign_workload. rewrite Hifs.
  apply returns_bind, returns_lift, returns_bind, returns_lift.
  simpl for_each. apply returns_bind.
  unfold assign_step. rewrite Hd. apply returns_bind, returns_lift.
  apply returns_bind.
  apply (returns_mono _ _ _ (fun hit l' w' => hit = true ∧ l' = l ∧ w' = w)).
  { destruct (py_eq (JStr a) (Some ip)).
    - apply returns_ret. auto.
    - rewrite Hpip. apply returns_bind, returns_lift, returns_ret.
      simpl. rewrite bool_decide_eq_true_2; auto. }
  intros hit l' w' (-> & -> & ->).
  apply returns_bind, returns_modify.
  apply returns_bind, (returns_read_var _ h1); [exact H1 |].
  apply returns_bind, (returns_read_var _ h2); [exact H2 |].
  apply returns_bind, (returns_read_var _ h3); [exact H3 |].
  apply returns_bind, (returns_read_var _ h4); [exact H4 |].
  rewrite Hhref. apply returns_bind, returns_lift.
  simpl uri_of. apply returns_bind, returns_lift.
  apply returns_bind, (returns_requests _ r s'); [exact Hh |].
  apply returns_modify, returns_ret.
  split; [reflexivity |]. exists s'. reflexivity.
Qed.

Lemma assign_phase_hit (ip a : string) (vs : list json)
    (pre post : list managed_workload) (m : managed_workload)
    (h1 h2 h3 h4 : json) (l : locals) (w : world S) :
  Forall2 represents vs (pre ++ m :: post) →
  Forall (fun m' => matches (Some ip) m' = false) pre →
  Forall (fun m' => matches (Some ip) m' = false) post →
  public_ip m = Some ip → interfaces m = [a] →
  role_href l = Some h1 → app_href l = Some h2 →
  env_href l = Some h3 → loc_href l = Some h4 →
  updates_answered (S:=S) →
  returns (assign_phase p (Some ip) (JArr vs)) l w
    (fun _ l' w' =>
       l' = append_assigned (Some ip) (set_check 1 (set_check 0 l)) ∧
       ∃ s', w' = World s' (sent w ++ [update_request p m h1 h2 h3 h4])).
Proof.
  intros Hrep Hpre Hpost Hpub Hone H1 H2 H3 H4 Hans.
  apply Forall2_app_inv_r in Hrep as (vpre & vrest & Hvpre & Hvrest & ->).
  apply Forall2_cons_inv_r in Hvrest as (v & vpost & Hv & Hvpost & ->).
  unfold assign_phase.
  apply returns_bind, returns_modify.
  simpl py_iter. apply returns_bind, returns_lift.
  apply returns_bind, returns_for_each_app.
  eapply returns_eq; [exact (workloads_miss (Some ip) vpre pre _ w Hvpre Hpre) |].
  simpl for_each. apply returns_bind.
  eapply returns_mono;
    [exact (assign_workload_hit ip a v m h1 h2 h3 h4 (set_check 0 l) w
              Hv Hpub Hone H1 H2 H3 H4 Hans) |].
  intros _ l' w' (-> & s' & ->).
  eapply returns_eq; [exact (workloads_miss (Some ip) vpost post _ _ Hvpost Hpost) |].
  apply returns_bind, returns_get_locals. simpl.
  apply returns_ret. split; [reflexivity |]. exists s'. reflexivity.
Qed.

End MatchFacts.

(** ** The assignment module: resolving the labels of a row *)

Section ResolveFacts.
Import assign_managed_labels.
Context {S : Type} `{!Externals S}.
Variable p : params.

Lemma resolve_frame_refl (l : locals) (w : world S) : resolve_frame l w l w.
Proof. repeat split; auto. Qed.

Lemma resolve_frame_trans (l1 l2 l3 : locals) (w1 w2 w3 : world S) :
  resolve_frame l1 w1 l2 w2 → resolve_frame l2 w2 l3 w3 → resolve_frame l1 w1 l3 w3.
Proof.
  intros (Ha & Hn & Hd & Hh & Hp) (Ha' & Hn' & Hd' & Hh' & Hp').
  repeat split; try congruence; auto.
Qed.

Lemma href_var_set_href (t : label_type) (h : json) (l : locals) :
  href_var t (set_href t h l) = Some h.
Proof. destruct t; reflexivity. Qed.

Lemma href_var_set_href_bound (t t' : label_type) (h : json) (l : locals) :
  is_Some (href_var t' l) → is_Some (href_var t' (set_href t h l)).
Proof. destruct t, t'; simpl; eauto. Qed.

Lemma set_href_frame (t : label_type) (h : json) (l : locals) (w : world S) :
  resolve_frame l w (set_href t h l) w.
Proof.
  repeat split; try (destruct t; reflexivity).
  - destruct t; simpl; auto.
  - intros t'. apply href_var_set_href_bound.
Qed.

(** Resolving one cell against a PCE that answers creates: it returns,
    binds the variable of its type when the cell is a string, and leaves
    the rest alone. *)
Lemma resolve_returns (t : label_type) (v : option string) (l : locals) (w : world S) :
  creates_answered (S:=S) → is_Some (labels_details l) →
  returns (resolve p t v) l w
    (fun _ l' w' => resolve_frame l w l' w' ∧ (is_Some v → is_Some (href_var t l'))).
Proof.
  intros Hans [ld Hld]. destruct v as [name |]; simpl.
  - apply returns_bind, (returns_read_var _ ld); [exact Hld |].
    destruct (ld t !! name) as [h |] eqn:Hlook.
    + apply returns_modify. split; [apply set_href_frame |].
      intros _. rewrite href_var_set_href. eauto.
    + unfold create_label. apply returns_bind, returns_bind.
      destruct (Hans (Request POST (labels_API p) (basic_auth p)
                        (Some (JObj [("key", JStr (key_of t)); ("value", JStr name)])))
                  (pce_state w) eq_refl) as (r & s' & Hh & Hbody).
      apply (returns_requests _ r s'); [exact Hh |].
      apply returns_ret, returns_bind.
      destruct (content r) as [| c body] eqn:Hc; [contradiction |].
      apply returns_lift, returns_bind, returns_modify, returns_modify.
      split.
      * repeat split; try (destruct t; reflexivity).
        -- destruct t; simpl; eauto.
        -- intros t' Ht'. apply href_var_set_href_bound.
           destruct t'; exact Ht'.
        -- simpl. rewrite only_app. simpl. apply app_nil_r.
      * intros _. rewrite href_var_set_href. eauto.
  - apply returns_ret. split; [apply resolve_frame_refl |].
    intros [x Hx]. discriminate.
Qed.

(** A row whose cells are all there, read against a PCE that lists the
    workloads and answers creates, reaches the matching loop. *)
Lemma row_body_reaches_matching (rows : row) (ip role app env loc : option string)
    (l : locals) (w : world S) (r : response) (s1 : S) (obj : json) Q :
  rows !! "ip" = Some ip → rows !! "role" = Some role → rows !! "app" = Some app →
  rows !! "env" = Some env → rows !! "loc" = Some loc →
  is_Some (labels_details l) →
  http (Request GET (API p) (basic_auth p) None) (pce_state w) = (Some r, s1) →
  json_loads (text r) = Some obj →
  creates_answered (S:=S) →
  (∀ l1 w1,
     resolve_frame l w l1 w1 →
     (is_Some role → is_Some (role_href l1)) → (is_Some app → is_Some (app_href l1)) →
     (is_Some env → is_Some (env_href l1)) → (is_Some loc → is_Some (loc_href l1)) →
     returns (assign_phase p ip obj) l1 w1 Q) →
  returns (row_body p rows) l w Q.
Proof.
  intros Hip Hrole Happ Henv Hloc Hld Hget Hjson Hans Hcont.
  unfold row_body.
  rewrite (row_get_cell _ _ _ Hip), (row_get_cell _ _ _ Hrole),
    (row_get_cell _ _ _ Happ), (row_get_cell _ _ _ Henv), (row_get_cell _ _ _ Hloc).
  do 5 apply returns_bind, returns_lift.
  apply returns_bind, (returns_requests _ r s1); [exact Hget |].
  unfold loads. rewrite Hjson. apply returns_bind, returns_lift.
  set (w0 := World s1 (sent w ++ [Request GET (API p) (basic_auth p) None])).
  assert (H0 : resolve_frame l w l w0).
  { repeat split; auto. unfold w0. simpl. rewrite only_app. simpl. apply app_nil_r. }
  apply returns_bind.
  eapply returns_mono; [apply (resolve_returns Role role); assumption |].
  intros _ l1 w1 [F1 B1]. simpl in B1.
  apply returns_bind.
  eapply returns_mono; [apply (resolve_returns App app); [assumption | apply F1, Hld] |].
  intros _ l2 w2 [F2 B2]. simpl in B2.
  apply returns_bind.
  eapply returns_mono;
    [apply (resolve_returns Env env); [assumption | apply F2, F1, Hld] |].
  intros _ l3 w3 [F3 B3]. simpl in B3.
  apply returns_bind.
  eapply returns_mono;
    [apply (resolve_returns Loc loc); [assumption | apply F3, F2, F1, Hld] |].
  intros _ l4 w4 [F4 B4]. simpl in B4.
  pose proof (resolve_frame_trans _ _ _ _ _ _ H0
                (resolve_frame_trans _ _ _ _ _ _ F1
                   (resolve_frame_trans _ _ _ _ _ _ F2
                      (resolve_frame_trans _ _ _ _ _ _ F3 F4)))) as F.
  apply Hcont; [exact F | | | | exact B4].
  - intros H. destruct F4 as (_ & _ & _ & Hh4 & _), F3 as (_ & _ & _ & Hh3 & _),
      F2 as (_ & _ & _ & Hh2 & _).
    apply (Hh4 Role), (Hh3 Role), (Hh2 Role), B1, H.
  - intros H. destruct F4 as (_ & _ & _ & Hh4 & _), F3 as (_ & _ & _ & Hh3 & _).
    apply (Hh4 App), (Hh3 App), B2, H.
  - intros H. destruct F4 as (_ & _ & _ & Hh4 & _).
    apply (Hh4 Env), B3, H.
Qed.

End ResolveFacts.

(** ** The assignment module: what a row does *)

(** C1, what the code does.  The workload's [public_ip] is the row's IP,
    so the matching rule holds for it, but the workload has no interface:
    the run sends no update and reports the IP as not assigned. *)
Theorem public_ip_match_needs_an_interface :
  let run := @assign_managed_labels.main _ (scripted script_no_interface) assign_params [] in
  matches (Some "192.168.1.113")
    (ManagedWorkload "/orgs/1/workloads/w1" (Some "192.168.1.113") []) = true ∧
  output_of run =
    Exit (ExitJson [("changed", JBool true);
                    ("labels_assigned", JArr []);
                    ("not_assigned", JArr [JStr "192.168.1.113"])]) ∧
  only PUT (log_of run) = [].
Proof. vm_compute. repeat split. Qed.

(** C2, what the code does.  The role cell of the row is empty: the run
    creates a role label with the empty value and the update carries four
    references, the first being the first byte of the create's answer. *)
Theorem empty_cell_still_labelled :
  let run := @assign_managed_labels.main _ (scripted script_empty_role) assign_params [] in
  only POST (log_of run) =
    [Request POST (assign_managed_labels.labels_API assign_params)
       (assign_managed_labels.basic_auth assign_params)
       (Some (JObj [("key", JStr "role"); ("value", JStr "")]))] ∧
  only PUT (log_of run) =
    [Request PUT (pce_url +:+ "/api/v2" +:+ "/orgs/1/workloads/w1")
       (assign_managed_labels.basic_auth assign_params)
       (Some (JObj [("labels",
                     JArr [JObj [("href", JNum 123)];
                           JObj [("href", JStr "/orgs/1/labels/2")];
                           JObj [("href", JStr "/orgs/1/labels/3")];
                           JObj [("href", JStr "/orgs/1/labels/4")]])]))].
Proof. vm_compute. repeat split. Qed.

(** The other face of the defect behind C2: a cell that is missing
    altogether leaves its variable as the previous row set it, so the
    second workload is given the first row's app, env and loc labels. *)
Lemma missing_cells_reuse_previous_row :
  only PUT (log_of (@assign_managed_labels.main _ (scripted script_short_row)
                      assign_params [])) =
    [Request PUT (pce_url +:+ "/api/v2" +:+ "/orgs/1/workloads/w1")
       (assign_managed_labels.basic_auth assign_params)
       (Some (JObj [("labels",
                     JArr [JObj [("href", JStr "/orgs/1/labels/1")];
                           JObj [("href", JStr "/orgs/1/labels/2")];
                           JObj [("href", JStr "/orgs/1/labels/3")];
                           JObj [("href", JStr "/orgs/1/labels/4")]])]));
     Request PUT (pce_url +:+ "/api/v2" +:+ "/orgs/1/workloads/w2")
       (assign_managed_labels.basic_auth assign_params)
       (Some (JObj [("labels",
                     JArr [JObj [("href", JStr "/orgs/1/labels/1")];
                           JObj [("href", JStr "/orgs/1/labels/2")];
                           JObj [("href", JStr "/orgs/1/labels/3")];
                           JObj [("href", JStr "/orgs/1/labels/4")]])]))].
Proof. vm_compute. reflexivity. Qed.

(** C3. A row whose IP is neither the [public_ip] nor an interface
    address of any fetched workload is processed to the end: its IP is
    appended to the not-assigned list, the assigned list is unchanged and
    no update is sent. *)
Theorem unmatched_ip_not_assigned {S} `{!Externals S}
    (p : assign_managed_labels.params) (rows : row)
    (ip role app env loc : option string)
    (l : assign_managed_labels.locals) (w : world S)
    (r : response) (s1 : S) (vs : list json) (ms : list managed_workload) :
  rows !! "ip" = Some ip → rows !! "role" = Some role → rows !! "app" = Some app →
  rows !! "env" = Some env → rows !! "loc" = Some loc →
  is_Some (assign_managed_labels.labels_details l) →
  http (Request GET (assign_managed_labels.API p)
          (assign_managed_labels.basic_auth p) None) (pce_state w) = (Some r, s1) →
  json_loads (text r) = Some (JArr vs) →
  Forall2 represents vs ms →
  Forall (fun m => matches ip m = false) ms →
  creates_answered (S:=S) →
  ∃ l' w',
    assign_managed_labels.row_body p rows l w = (Ok tt, l', w') ∧
    assign_managed_labels.not_assigned l' = assign_managed_labels.not_assigned l ++ [ip] ∧
    assign_managed_labels.assigned l' = assign_managed_labels.assigned l ∧
    only PUT (sent w') = only PUT (sent w).
Proof.
  intros Hip Hrole Happ Henv Hloc Hld Hget Hjson Hrep Hmiss Hans.
  cut (returns (assign_managed_labels.row_body p rows) l w
         (fun _ l' w' =>
            assign_managed_labels.not_assigned l'
              = assign_managed_labels.not_assigned l ++ [ip] ∧
            assign_managed_labels.assigned l' = assign_managed_labels.assigned l ∧
            only PUT (sent w') = only PUT (sent w))).
  { intros ([] & l' & w' & Hrun & HQ). exists l', w'. split; assumption. }
  apply (row_body_reaches_matching p rows ip role app env loc l w r s1 (JArr vs));
    try assumption.
  intros l1 w1 (Ha & Hn & _ & _ & Hp) _ _ _ _.
  eapply returns_eq; [apply (assign_phase_miss p ip vs ms); assumption |].
  simpl. rewrite Hn, Ha, Hp. auto.
Qed.

Lemma unmatched_ip_not_assigned_witness :
  ∃ l' w',
    @assign_managed_labels.row_body _ (scripted script_no_match) assign_params
      (workload_row "19.16.1.111" "web" "billing" "prod" "us-east")
      (assign_managed_labels.set_labels_details assign_managed_labels.empty_labels
         assign_managed_labels.init_locals)
      (World [] []) = (Ok tt, l', w') ∧
    assign_managed_labels.not_assigned l' = [] ++ [Some "19.16.1.111"] ∧
    assign_managed_labels.assigned l' = [] ∧
    only PUT (sent w') = only PUT [].
Proof.
  apply (@unmatched_ip_not_assigned _ (scripted script_no_match) assign_params
           (workload_row "19.16.1.111" "web" "billing" "prod" "us-east")
           (Some "19.16.1.111") (Some "web") (Some "billing") (Some "prod") (Some "us-east")
           (assign_managed_labels.set_labels_details assign_managed_labels.empty_labels
              assign_managed_labels.init_locals)
           (World [] [])
           (Response 200 (dumps (workloads_json script_no_match))) []
           [workload_object "/orgs/1/workloads/w1" "192.168.1.113" ["10.0.0.7"]]
           [ManagedWorkload "/orgs/1/workloads/w1" (Some "192.168.1.113") ["10.0.0.7"]]).
  - reflexivity.
  - reflexivity.
  - reflexivity.
  - reflexivity.
  - reflexivity.
  - simpl. eauto.
  - reflexivity.
  - vm_compute. reflexivity.
  - repeat constructor. exists [JObj [("name", JStr "eth0"); ("address", JStr "10.0.0.7")]].
    repeat constructor.
  - repeat constructor.
  - apply scripted_creates_answered. vm_compute. discriminate.
Defined.

(** C9, as the code has it.  A row whose IP is the [public_ip] of exactly
    one fetched workload, that workload having exactly one interface and
    no other workload matching, is processed to the end with exactly one
    entry appended to the assigned list and exactly one update sent, to
    that workload's href. *)
Theorem single_match_single_update {S} `{!Externals S}
    (p : assign_managed_labels.params) (rows : row)
    (ip a role app env loc : string)
    (l : assign_managed_labels.locals) (w : world S)
    (r : response) (s1 : S) (vs : list json)
    (pre post : list managed_workload) (m : managed_workload) :
  rows !! "ip" = Some (Some ip) → rows !! "role" = Some (Some role) →
  rows !! "app" = Some (Some app) → rows !! "env" = Some (Some env) →
  rows !! "loc" = Some (Some loc) →
  is_Some (assign_managed_labels.labels_details l) →
  http (Request GET (assign_managed_labels.API p)
          (assign_managed_labels.basic_auth p) None) (pce_state w) = (Some r, s1) →
  json_loads (text r) = Some (JArr vs) →
  Forall2 represents vs (pre ++ m :: post) →
  Forall (fun m' => matches (Some ip) m' = false) pre →
  Forall (fun m' => matches (Some ip) m' = false) post →
  public_ip m = Some ip → interfaces m = [a] →
  creates_answered (S:=S) → updates_answered (S:=S) →
  ∃ l' w' h1 h2 h3 h4,
    assign_managed_labels.row_body p rows l w = (Ok tt, l', w') ∧
    assign_managed_labels.assigned l' = assign_managed_labels.assigned l ++ [Some ip] ∧
    assign_managed_labels.not_assigned l' = assign_managed_labels.not_assigned l ∧
    only PUT (sent w') = only PUT (sent w) ++ [update_request p m h1 h2 h3 h4].
Proof.
  intros Hip Hrole Happ Henv Hloc Hld Hget Hjson Hrep Hpre Hpost Hpub Hone Hans Hput.
  cut (returns (assign_managed_labels.row_body p rows) l w
         (fun _ l' w' => ∃ h1 h2 h3 h4,
            assign_managed_labels.assigned l'
              = assign_managed_labels.assigned l ++ [Some ip] ∧
            assign_managed_labels.not_assigned l' = assign_managed_labels.not_assigned l ∧
            only PUT (sent w') = only PUT (sent w) ++ [update_request p m h1 h2 h3 h4])).
  { intros ([] & l' & w' & Hrun & h1 & h2 & h3 & h4 & HQ).
    exists l', w', h1, h2, h3, h4. split; assumption. }
  apply (row_body_reaches_matching p rows (Some ip) (Some role) (Some app) (Some env)
           (Some loc) l w r s1 (JArr vs)); try assumption.
  intros l1 w1 (Ha & Hn & _ & _ & Hp) B1 B2 B3 B4.
  destruct B1 as [h1 H1]; [eauto |]. destruct B2 as [h2 H2]; [eauto |].
  destruct B3 as [h3 H3]; [eauto |]. destruct B4 as [h4 H4]; [eauto |].
  eapply returns_mono;
    [exact (assign_phase_hit p ip a vs pre post m h1 h2 h3 h4 l1 w1
              Hrep Hpre Hpost Hpub Hone H1 H2 H3 H4 Hput) |].
  intros _ l' w' (-> & s' & ->). exists h1, h2, h3, h4. simpl.
  rewrite Ha, Hn, only_app, Hp. auto.
Qed.

Lemma single_match_single_update_witness :
  ∃ l' w' h1 h2 h3 h4,
    @assign_managed_labels.row_body _ (scripted script_one_match) assign_params
      (workload_row "192.168.1.113" "web" "billing" "prod" "us-east")
      (assign_managed_labels.set_labels_details assign_managed_labels.empty_labels
         assign_managed_labels.init_locals)
      (World [] []) = (Ok tt, l', w') ∧
    assign_managed_labels.assigned l' = [] ++ [Some "192.168.1.113"] ∧
    assign_managed_labels.not_assigned l' = [] ∧
    only PUT (sent w') =
      only PUT [] ++
      [update_request assign_params
         (ManagedWorkload "/orgs/1/workloads/w1" (Some "192.168.1.113") ["10.0.0.7"])
         h1 h2 h3 h4].
Proof.
  apply (@single_match_single_update _ (scripted script_one_match) assign_params
           (workload_row "192.168.1.113" "web" "billing" "prod" "us-east")
           "192.168.1.113" "10.0.0.7" "web" "billing" "prod" "us-east"
           (assign_managed_labels.set_labels_details assign_managed_labels.empty_labels
              assign_managed_labels.init_locals)
           (World [] [])
           (Response 200 (dumps (workloads_json script_one_match))) []
           [workload_object "/orgs/1/workloads/w1" "192.168.1.113" ["10.0.0.7"]]
           [] [] (ManagedWorkload "/orgs/1/workloads/w1" (Some "192.168.1.113") ["10.0.0.7"])).
  - reflexivity.
  - reflexivity.
  - reflexivity.
  - reflexivity.
  - reflexivity.
  - simpl. eauto.
  - reflexivity.
  - vm_compute. reflexivity.
  - repeat constructor. exists [JObj [("name", JStr "eth0"); ("address", JStr "10.0.0.7")]].
    repeat constructor.
  - constructor.
  - constructor.
  - reflexivity.
  - reflexivity.
  - apply scripted_creates_answered. vm_compute. discriminate.
  - apply scripted_updates_answered.
Defined.

(** C9, as the specification has it, fails: two rows carry the same IP,
    each is matched, and the IP is reported twice. *)
Lemma same_ip_reported_twice :
  output_of (@assign_managed_labels.main _ (scripted script_same_ip_twice) assign_params [])
  = Exit (ExitJson [("changed", JBool true);
                    ("labels_assigned", JArr [JStr "192.168.1.113"; JStr "192.168.1.113"]);
                    ("not_assigned", JArr [])]).
Proof. vm_compute. reflexivity. Qed.


(** ** The assignment module: creating each label once *)

Section CreateOnce.
Import assign_managed_labels.
Context {S : Type} `{!Externals S}.
Variable p : params.

Lemma key_of_inj (t t' : label_type) : key_of t = key_of t' → t = t'.
Proof. destruct t, t'; simpl; intros H; (reflexivity || discriminate). Qed.

Lemma labels_store_same (t : label_type) (name : string) (h : json) (ld : labels) :
  labels_store t name h ld t !! name = Some h.
Proof.
  unfold labels_store. destruct (decide (t = t)); [| contradiction].
  apply lookup_insert_eq.
Qed.

Lemma labels_store_mono (t t1 : label_type) (name v : string) (h : json) (ld : labels) :
  is_Some (ld t1 !! v) → is_Some (labels_store t name h ld t1 !! v).
Proof.
  intros Hv. unfold labels_store. destruct (decide (t1 = t)); [| exact Hv].
  destruct (decide (name = v)) as [-> | Hne].
  - rewrite lookup_insert_eq. eauto.
  - rewrite lookup_insert_ne by exact Hne. exact Hv.
Qed.

Lemma created_pairs_snoc (log : list request) (rq : request) :
  created_pairs (log ++ [rq]) =
  created_pairs log ++ match created_pair rq with Some kv => [kv] | None => [] end.
Proof.
  unfold created_pairs. rewrite omap_app. simpl.
  destruct (created_pair rq); reflexivity.
Qed.

(** A request that is not a POST changes nothing. *)
Lemma creates_distinct_other (log : list request) (rq : request) :
  meth rq ≠ POST → creates_distinct log → creates_distinct (log ++ [rq]).
Proof.
  intros Hm [Hnd Hall]. split.
  - rewrite created_pairs_snoc.
    assert (created_pair rq = None) as ->.
    { unfold created_pair. destruct (meth rq); [reflexivity | contradiction | reflexivity]. }
    rewrite app_nil_r. exact Hnd.
  - apply Forall_app. split; [exact Hall |]. constructor; [| constructor].
    intros Hp. contradiction.
Qed.

Lemma catalog_covers_other (l : locals) (log : list request) (rq : request) :
  meth rq ≠ POST → catalog_covers l log → catalog_covers l (log ++ [rq]).
Proof.
  intros Hm Hc k v Hin. apply Hc. rewrite created_pairs_snoc in Hin.
  assert (created_pair rq = None) as Hnone.
  { unfold created_pair. destruct (meth rq); [reflexivity | contradiction | reflexivity]. }
  rewrite Hnone, app_nil_r in Hin. exact Hin.
Qed.

Lemma kcd_lift {A} (r : res A) : keeps_creates_distinct (S:=S) (lift r).
Proof. intros l w Hinv. unfold lift. destruct r; [exact Hinv | apply Hinv | apply Hinv]. Qed.

Lemma kcd_ret {A} (a : A) : keeps_creates_distinct (S:=S) (ret a).
Proof. intros l w Hinv. exact Hinv. Qed.

Lemma kcd_bind {A B} (c : M S locals A) (k : A → M S locals B) :
  keeps_creates_distinct c → (∀ a, keeps_creates_distinct (k a)) →
  keeps_creates_distinct (bind c k).
Proof.
  intros Hc Hk l w Hinv. specialize (Hc l w Hinv). unfold bind.
  destruct (c l w) as [[[a | e | o] l1] w1]; [| exact Hc | exact Hc].
  apply Hk. exact Hc.
Qed.

Lemma kcd_for_each {X} (xs : list X) (body : X → M S locals unit) :
  (∀ x, keeps_creates_distinct (body x)) → keeps_creates_distinct (for_each xs body).
Proof.
  intros Hbody. induction xs as [| x xs IH]; simpl.
  - apply kcd_ret.
  - apply kcd_bind; [apply Hbody | intros _; exact IH].
Qed.

Lemma kcd_get_locals : keeps_creates_distinct (S:=S) get_locals.
Proof. intros l w Hinv. exact Hinv. Qed.

Lemma kcd_read_var {A} (proj : locals → option A) :
  keeps_creates_distinct (S:=S) (read_var proj).
Proof.
  intros l w Hinv. unfold read_var. destruct (proj l); [exact Hinv | apply Hinv].
Qed.

(** An assignment that leaves [labels_details] alone. *)
Lemma kcd_modify (f : locals → locals) :
  (∀ l, labels_details (f l) = labels_details l) →
  keeps_creates_distinct (S:=S) (modify f).
Proof.
  intros Hf l w [Hd Hc]. split; [exact Hd |].
  intros k v Hin. destruct (Hc k v Hin) as (t & ld & Hk & Hld & Hv).
  exists t, ld. rewrite Hf. auto.
Qed.

Lemma kcd_requests (rq : request) :
  meth rq ≠ POST → keeps_creates_distinct (requests rq).
Proof.
  intros Hm l w [Hd Hc]. unfold requests.
  destruct (http rq (pce_state w)) as [[r |] s']; simpl.
  - split; [apply creates_distinct_other | apply catalog_covers_other]; assumption.
  - apply creates_distinct_other; assumption.
Qed.

(** Resolving a cell: the one place that creates.  It creates only what
    the catalog lacks, and stores what it created. *)
Lemma kcd_resolve (t : label_type) (v : option string) :
  keeps_creates_distinct (resolve p t v).
Proof.
  destruct v as [name |]; [| apply kcd_ret].
  intros l w [[Hnd Hall] Hc]. unfold resolve, bind, read_var.
  destruct (labels_details l) as [ld |] eqn:Hld; [| split; assumption].
  destruct (ld t !! name) as [h |] eqn:Hlook.
  - unfold modify. split; [split; assumption |].
    intros k v Hin. destruct (Hc k v Hin) as (t1 & ld1 & Hk & Hld1 & Hv).
    exists t1, ld1. split; [exact Hk |]. split; [| exact Hv].
    destruct t; simpl; rewrite <- Hld1; reflexivity.
  - set (rq := Request POST (labels_API p) (basic_auth p)
                 (Some (JObj [("key", JStr (key_of t)); ("value", JStr name)]))).
    assert (Hfresh : (key_of t, name) ∉ created_pairs (sent w)).
    { intros Hin. destruct (Hc _ _ Hin) as (t1 & ld1 & Hk & Hld1 & Hv).
      apply key_of_inj in Hk. subst t1. rewrite Hld in Hld1. injection Hld1 as <-.
      rewrite Hlook in Hv. destruct Hv as [x Hx]. discriminate. }
    assert (Hlog : creates_distinct (sent w ++ [rq])).
    { split.
      - rewrite created_pairs_snoc. simpl. apply NoDup_app. split; [exact Hnd |].
        split; [| apply NoDup_singleton].
        intros kv Hkv Hin. apply list_elem_of_singleton in Hin. subst kv.
        exact (Hfresh Hkv).
      - apply Forall_app. split; [exact Hall |]. constructor; [| constructor].
        intros _. simpl. eauto. }
    unfold create_label, bind, requests. fold rq.
    destruct (http rq (pce_state w)) as [[r |] s']; simpl; [| exact Hlog].
    unfold lift. destruct (content r) as [| c body]; simpl; [exact Hlog |].
    split; [exact Hlog |].
    intros k v Hin. cbn [sent] in Hin. rewrite created_pairs_snoc in Hin. simpl in Hin.
    apply elem_of_app in Hin as [Hin | Hin].
    + destruct (Hc k v Hin) as (t1 & ld1 & Hk & Hld1 & Hv).
      rewrite Hld in Hld1. injection Hld1 as <-.
      exists t1, (labels_store t name (JNum (Z.of_nat (nat_of_ascii c))) ld).
      split; [exact Hk |]. split; [destruct t; reflexivity |].
      apply labels_store_mono. exact Hv.
    + apply list_elem_of_singleton in Hin. injection Hin as -> ->.
      exists t, (labels_store t name (JNum (Z.of_nat (nat_of_ascii c))) ld).
      split; [reflexivity |]. split; [destruct t; reflexivity |].
      rewrite labels_store_same. eauto.
Qed.

Lemma kcd_assign_step (ip : option string) (values d : json) :
  keeps_creates_distinct (assign_step p ip values d).
Proof.
  unfold assign_step.
  apply kcd_bind; [apply kcd_lift | intros address].
  apply kcd_bind.
  { destruct (py_eq address ip); [apply kcd_ret |].
    apply kcd_bind; [apply kcd_lift | intros pip; apply kcd_ret]. }
  intros [|]; [| apply kcd_ret].
  apply kcd_bind; [apply kcd_modify; reflexivity | intros _].
  do 4 (apply kcd_bind; [apply kcd_read_var | intros ?]).
  do 2 (apply kcd_bind; [apply kcd_lift | intros ?]).
  apply kcd_bind; [apply kcd_requests; discriminate | intros _].
  apply kcd_modify. reflexivity.
Qed.

Lemma kcd_assign_phase (ip : option string) (obj : json) :
  keeps_creates_distinct (assign_phase p ip obj).
Proof.
  unfold assign_phase.
  apply kcd_bind; [apply kcd_modify; reflexivity | intros _].
  apply kcd_bind; [apply kcd_lift | intros workloads].
  apply kcd_bind.
  { apply kcd_for_each. intros values. unfold assign_workload.
    do 2 (apply kcd_bind; [apply kcd_lift | intros ?]).
    apply kcd_for_each. intros d. apply kcd_assign_step. }
  intros _. apply kcd_bind; [apply kcd_get_locals | intros l].
  destruct (check l =? 0)%Z; [apply kcd_modify; reflexivity | apply kcd_ret].
Qed.

Lemma kcd_row_body (rows : row) : keeps_creates_distinct (row_body p rows).
Proof.
  unfold row_body.
  do 5 (apply kcd_bind; [apply kcd_lift | intros ?]).
  apply kcd_bind; [apply kcd_requests; discriminate | intros response].
  apply kcd_bind; [apply kcd_lift | intros obj].
  do 4 (apply kcd_bind; [apply kcd_resolve | intros _]).
  apply kcd_assign_phase.
Qed.

(** [display_labels] sends its one GET and touches no variable. *)
Lemma display_labels_log {L} (l : L) (w : world S) :
  ∃ r s', display_labels p l w =
          (r, l, World s' (sent w ++ [Request GET (labels_API p) (basic_auth p) None])).
Proof.
  unfold display_labels, bind, requests.
  destruct (http _ (pce_state w)) as [[r |] s']; [| eauto].
  unfold lift.
  destruct (get_content _) as [body | e | o]; [| eauto | eauto].
  destruct (loads body) as [obj | e | o]; eauto.
Qed.

Lemma kcd_run {A} (c : M S locals A) (l : locals) (w : world S) :
  keeps_creates_distinct c → create_inv l w → creates_distinct (sent (snd (c l w))).
Proof.
  intros Hc Hinv. specialize (Hc l w Hinv).
  destruct (c l w) as [[[a | e | o] l1] w1]; simpl; [apply Hc | exact Hc | exact Hc].
Qed.

Lemma kcd_after_listing : keeps_creates_distinct (after_listing p).
Proof.
  unfold after_listing.
  apply kcd_bind; [apply kcd_lift | intros rows].
  apply kcd_bind; [apply kcd_for_each; intros x; apply kcd_row_body | intros _].
  apply kcd_bind; [apply kcd_get_locals | intros l]. apply kcd_lift.
Qed.

Lemma main_creates_distinct (s : S) : creates_distinct (log_of (main p s)).
Proof.
  unfold main, log_of.
  destruct (check_mode p) eqn:Hcm.
  { unfold run_module. rewrite Hcm. simpl. split; constructor. }
  assert (Hrun : run_module p init_locals (World s []) =
                 (let! ld := display_labels p in
                  modify (set_labels_details ld) ;;; after_listing p)
                   init_locals (World s [])).
  { unfold run_module. rewrite Hcm. reflexivity. }
  rewrite Hrun. unfold bind at 1.
  destruct (display_labels_log init_locals (World s [])) as (r & s' & Hd).
  rewrite Hd. simpl sent.
  assert (Hlog : creates_distinct [Request GET (labels_API p) (basic_auth p) None]).
  { split; [constructor | repeat constructor; discriminate]. }
  destruct r as [ld | e | o]; [| exact Hlog | exact Hlog].
  change (creates_distinct
            (sent (snd (after_listing p (set_labels_details ld init_locals)
                          (World s' [Request GET (labels_API p) (basic_auth p) None]))))).
  apply kcd_run; [apply kcd_after_listing |].
  split; [exact Hlog |]. intros k v Hin. simpl in Hin. inversion Hin.
Qed.

End CreateOnce.

(** C4. In one run of the assignment module no (type, value) pair is
    created twice, every POST of the run being such a create; and a value
    already stored in the in-memory catalog is resolved to the stored
    identifier without any request. *)
Theorem at_most_one_create_per_pair {S} `{!Externals S}
    (p : assign_managed_labels.params) (s : S) (t : assign_managed_labels.label_type)
    (v : string) (h : json) (ld : assign_managed_labels.labels)
    (l : assign_managed_labels.locals) (w : world S) :
  NoDup (created_pairs (log_of (assign_managed_labels.main p s))) ∧
  Forall (fun rq => meth rq = POST → is_Some (created_pair rq))
    (log_of (assign_managed_labels.main p s)) ∧
  assign_managed_labels.resolve p t (Some v)
    (assign_managed_labels.set_labels_details
       (assign_managed_labels.labels_store t v h ld) l) w =
    (Ok tt,
     assign_managed_labels.set_href t h
       (assign_managed_labels.set_labels_details
          (assign_managed_labels.labels_store t v h ld) l),
     w).
Proof.
  destruct (main_creates_distinct p s) as [Hnd Hall].
  split; [exact Hnd |]. split; [exact Hall |].
  unfold assign_managed_labels.resolve, bind, read_var. simpl.
  rewrite labels_store_same. reflexivity.
Qed.

(** * Further properties *)

(** ** Triples *)

Section TripleRules.
Context {S : Type} `{!Externals S} {L : Type}.

Lemma triple_conseq {A} (P P' : L → world S → Prop) (c : M S L A)
    (Q Q' : A → L → world S → Prop) (E E' : exn + output → L → world S → Prop) :
  triple P c Q E →
  (∀ l w, P' l w → P l w) →
  (∀ a l w, Q a l w → Q' a l w) →
  (∀ x l w, E x l w → E' x l w) →
  triple P' c Q' E'.
Proof.
  intros Hc HP HQ HE l w Hl. specialize (Hc l w (HP l w Hl)).
  destruct (c l w) as [[[a | e | o] l1] w1]; auto.
Qed.

Lemma triple_assume {A} (fact : Prop) (P : L → world S → Prop) (c : M S L A) Q E :
  (fact → triple P c Q E) → triple (fun l w => fact ∧ P l w) c Q E.
Proof. intros H l w [Hf Hl]. exact (H Hf l w Hl). Qed.

Lemma triple_lift {A} (r : res A) (P : L → world S → Prop) Q E :
  (∀ l w, P l w →
     match r with
     | Ok a => Q a l w
     | Raise e => E (inl e) l w
     | Exit o => E (inr o) l w
     end) →
  triple P (lift r) Q E.
Proof. intros H l w Hl. specialize (H l w Hl). unfold lift. destruct r; exact H. Qed.

Lemma triple_ret {A} (a : A) (P : L → world S → Prop) Q E :
  (∀ l w, P l w → Q a l w) → triple P (ret a) Q E.
Proof. intros H l w Hl. exact (H l w Hl). Qed.

Lemma triple_bind {A B} (c : M S L A) (k : A → M S L B)
    (P : L → world S → Prop) (Q1 : A → L → world S → Prop) Q E :
  triple P c Q1 E → (∀ a, triple (Q1 a) (k a) Q E) → triple P (bind c k) Q E.
Proof.
  intros Hc Hk l w Hl. specialize (Hc l w Hl). unfold bind.
  destruct (c l w) as [[[a | e | o] l1] w1]; [| exact Hc | exact Hc].
  exact (Hk a l1 w1 Hc).
Qed.

Lemma triple_modify (f : L → L) (P : L → world S → Prop) Q E :
  (∀ l w, P l w → Q tt (f l) w) → triple P (modify f) Q E.
Proof. intros H l w Hl. exact (H l w Hl). Qed.

Lemma triple_get_locals (P : L → world S → Prop) Q E :
  (∀ l w, P l w → Q l l w) → triple P get_locals Q E.
Proof. intros H l w Hl. exact (H l w Hl). Qed.

Lemma triple_read_var {A} (proj : L → option A) (P : L → world S → Prop) Q E :
  (∀ l w a, P l w → proj l = Some a → Q a l w) →
  (∀ l w, P l w → proj l = None → E (inl UnboundLocalError) l w) →
  triple P (read_var proj) Q E.
Proof.
  intros Hs Hn l w Hl. unfold read_var.
  destruct (proj l) as [a |] eqn:Hp; [exact (Hs l w a Hl Hp) | exact (Hn l w Hl Hp)].
Qed.

Lemma triple_requests (rq : request) (P : L → world S → Prop) Q E :
  (∀ l w r s', P l w → Q r l (World s' (sent w ++ [rq]))) →
  (∀ l w s', P l w → E (inl RequestException) l (World s' (sent w ++ [rq]))) →
  triple P (requests rq) Q E.
Proof.
  intros Hs Hn l w Hl. unfold requests.
  destruct (http rq (pce_state w)) as [[r |] s']; [exact (Hs l w r s' Hl) | exact (Hn l w s' Hl)].
Qed.

Lemma triple_for_each {X} (xs : list X) (body : X → M S L unit)
    (I : L → world S → Prop) E :
  (∀ x, triple I (body x) (fun _ => I) E) →
  triple I (for_each xs body) (fun _ => I) E.
Proof.
  intros Hbody. induction xs as [| x xs IH]; simpl.
  - apply triple_ret. auto.
  - eapply triple_bind; [apply Hbody | intros ?; exact IH].
Qed.

(** A loop whose invariant counts the iterations. *)
Lemma triple_for_each_count {X} (xs : list X) (body : X → M S L unit)
    (I : nat → L → world S → Prop) E (i : nat) :
  (∀ j x, triple (I j) (body x) (fun _ => I (Datatypes.S j)) E) →
  triple (I i) (for_each xs body) (fun _ => I (i + length xs)) E.
Proof.
  intros Hbody. revert i. induction xs as [| x xs IH]; intros i; simpl.
  - apply triple_ret. intros l w Hl. rewrite Nat.add_0_r. exact Hl.
  - eapply triple_bind; [apply Hbody | intros ?].
    replace (i + Datatypes.S (length xs)) with (Datatypes.S i + length xs) by lia.
    apply IH.
Qed.

Lemma triple_try_except {A} (c : M S L A) (h : exn → M S L A)
    (P : L → world S → Prop) Q (E1 E : exn + output → L → world S → Prop) :
  triple P c Q E1 →
  (∀ e, triple (E1 (inl e)) (h e) Q E) →
  (∀ o l w, E1 (inr o) l w → E (inr o) l w) →
  triple P (try_except c h) Q E.
Proof.
  intros Hc Hh Ho l w Hl. specialize (Hc l w Hl). unfold try_except.
  destruct (c l w) as [[[a | e | o] l1] w1]; [exact Hc | | exact (Ho o l1 w1 Hc)].
  exact (Hh e l1 w1 Hc).
Qed.

(** *** What always holds *)

Lemma always_lift {A} (r : res A) (I : L → world S → Prop) : always I (lift r).
Proof. apply triple_lift. intros l w Hl. destruct r; exact Hl. Qed.

Lemma always_ret {A} (a : A) (I : L → world S → Prop) : always I (ret a).
Proof. apply triple_ret. auto. Qed.

Lemma always_bind {A B} (c : M S L A) (k : A → M S L B) (I : L → world S → Prop) :
  always I c → (∀ a, always I (k a)) → always I (bind c k).
Proof. intros Hc Hk. eapply triple_bind; [exact Hc | exact Hk]. Qed.

Lemma always_for_each {X} (xs : list X) (body : X → M S L unit) (I : L → world S → Prop) :
  (∀ x, always I (body x)) → always I (for_each xs body).
Proof. intros Hbody. apply triple_for_each. exact Hbody. Qed.

Lemma always_modify (f : L → L) (I : L → world S → Prop) :
  (∀ l w, I l w → I (f l) w) → always I (modify f).
Proof. intros H. apply triple_modify. exact H. Qed.

Lemma always_get_locals (I : L → world S → Prop) : always I get_locals.
Proof. apply triple_get_locals. auto. Qed.

Lemma always_read_var {A} (proj : L → option A) (I : L → world S → Prop) :
  always I (read_var proj).
Proof. apply triple_read_var; auto. Qed.

Lemma always_requests (rq : request) (I : L → world S → Prop) :
  (∀ l w s', I l w → I l (World s' (sent w ++ [rq]))) → always I (requests rq).
Proof. intros H. apply triple_requests; intros; apply H; assumption. Qed.

Lemma always_try_except {A} (c : M S L A) (h : exn → M S L A) (I : L → world S → Prop) :
  always I c → (∀ e, always I (h e)) → always I (try_except c h).
Proof.
  intros Hc Hh. eapply triple_try_except; [exact Hc | exact Hh | auto].
Qed.

Lemma always_run {A} (c : M S L A) (I : L → world S → Prop) (l : L) (w : world S) :
  always I c → I l w → I (snd (fst (c l w))) (snd (c l w)).
Proof.
  intros Hc Hl. specialize (Hc l w Hl).
  destruct (c l w) as [[[a | e | o] l1] w1]; exact Hc.
Qed.
End TripleRules.

(** ** The creation module, further *)

Section CreateMore.
Import create_label.
Context {S : Type} `{!Externals S}.
Variable p : params.

Lemma row_get_no_exit (r : row) (k : string) : no_exit (row_get r k).
Proof. unfold row_get. destruct (r !! k); exact I. Qed.

Lemma str_add_no_exit (a b : option string) : no_exit (str_add a b).
Proof. destruct a, b; exact I. Qed.

Lemma open_rows_no_exit (path : string) : no_exit (open_rows path).
Proof. unfold open_rows. destruct (open_csv path); exact I. Qed.

(** A value or an exception keeps any property of the state, and is not
    [fail_json]. *)
Lemma triple_pure {L A} (r : res A) (P : L → world S → Prop) :
  no_exit r →
  triple P (lift r) (fun _ => P) (fun x l w => P l w ∧ not_fail_json x l w).
Proof.
  intros Hr. apply triple_lift. intros l w Hl.
  destruct r; [exact Hl | split; [exact Hl | exact I] | contradiction].
Qed.

Lemma post_label_is_create (key value : option string) :
  is_create_of p (Request POST (API p) (basic_auth p)
                    (Some (JObj [("key", of_csv key); ("value", of_csv value)]))).
Proof. repeat split. eauto. Qed.

(** One row: only creates are sent, and the row never calls
    [exit_json] or [fail_json]. *)
Lemma csv_row_triple (rows : row) :
  triple (sends_creates p) (csv_row p rows) (fun _ => (sends_creates p))
    (fun x l w => (sends_creates p) l w ∧ not_fail_json x l w ∧ ∃ e, x = inl e).
Proof.
  assert (Hpure : ∀ A (r : res A) (Q : A → locals → world S → Prop),
            no_exit r →
            (∀ a l w, (sends_creates p) l w → Q a l w) →
            triple (sends_creates p) (lift r) Q
              (fun x l w => (sends_creates p) l w ∧ not_fail_json x l w ∧ ∃ e, x = inl e)).
  { intros A r Q Hr HQ. apply triple_lift. intros l w Hl.
    destruct r; [auto | | contradiction]. repeat split; [exact Hl | eauto]. }
  unfold csv_row.
  eapply triple_bind; [apply (Hpure _ _ (fun _ => (sends_creates p)));
                       [apply row_get_no_exit | auto] | intros key].
  eapply triple_bind; [apply (Hpure _ _ (fun _ => (sends_creates p)));
                       [apply row_get_no_exit | auto] | intros value].
  destruct (is_lit key "loc" || is_lit key "env" || is_lit key "role" || is_lit key "app").
  - eapply triple_bind with (Q1 := fun _ => (sends_creates p)).
    { apply triple_requests.
      - intros l w r s' Hl. apply Forall_app. split; [exact Hl |].
        constructor; [apply post_label_is_create | constructor].
      - intros l w s' Hl. repeat split; [| eauto].
        apply Forall_app. split; [exact Hl |].
        constructor; [apply post_label_is_create | constructor]. }
    intros _.
    eapply triple_bind; [apply (Hpure _ _ (fun _ => (sends_creates p)));
                         [apply str_add_no_exit | auto] | intros s1].
    eapply triple_bind; [apply (Hpure _ _ (fun _ => (sends_creates p)));
                         [apply str_add_no_exit | auto] | intros s2].
    apply triple_modify. auto.
  - eapply triple_bind; [apply (Hpure _ _ (fun _ => (sends_creates p)));
                         [apply str_add_no_exit | auto] | intros s1].
    eapply triple_bind; [apply (Hpure _ _ (fun _ => (sends_creates p)));
                         [apply str_add_no_exit | auto] | intros s2].
    apply triple_modify. auto.
Qed.

(** The [try] block: it ends by an exception or by [exit_json], never by
    falling through and never by [fail_json]. *)
Lemma try_body_triple :
  triple (sends_creates p) (try_body p) (fun _ _ _ => False)
    (fun x l w => (sends_creates p) l w ∧ not_fail_json x l w).
Proof.
  unfold try_body.
  eapply triple_bind with (Q1 := fun _ => (sends_creates p)).
  - destruct (given (path p)).
    + eapply triple_bind with (Q1 := fun _ => (sends_creates p)).
      * apply triple_lift. intros l w Hl.
        pose proof (open_rows_no_exit (default "" (path p))) as Hr.
        destruct (open_rows (default "" (path p))); [exact Hl | split; [exact Hl | exact I] |].
        contradiction.
      * intros rows. apply triple_for_each. intros x.
        eapply triple_conseq; [apply csv_row_triple | auto | auto |].
        intros y l w (Hl & Hf & _). split; assumption.
    + destruct (given (type p) && given (name p)).
      * unfold single_record.
        destruct (is_lit (type p) "env" || is_lit (type p) "loc"
                  || is_lit (type p) "app" || is_lit (type p) "role").
        -- eapply triple_bind; [apply triple_pure, str_add_no_exit | intros s1].
           eapply triple_bind; [apply triple_pure, str_add_no_exit | intros s2].
           eapply triple_bind with (Q1 := fun _ => (sends_creates p));
             [apply triple_modify; intros l w Hl; exact Hl | intros ?].
           eapply triple_bind with (Q1 := fun _ => (sends_creates p)).
           { apply triple_requests.
             - intros l w r s' Hl. apply Forall_app. split; [exact Hl |].
               constructor; [apply post_label_is_create | constructor].
             - intros l w s' Hl. split; [| exact I].
               apply Forall_app. split; [exact Hl |].
               constructor; [apply post_label_is_create | constructor]. }
           intros ?. apply triple_ret. auto.
        -- apply triple_lift. intros l w Hl. split; [exact Hl | exact I].
      * apply triple_lift. intros l w Hl. split; [exact Hl | exact I].
  - intros ?. eapply triple_bind with (Q1 := fun _ => (sends_creates p));
      [apply triple_get_locals; intros l w Hl; exact Hl | intros l0].
    apply triple_lift. intros l w Hl. split; [exact Hl | exact I].
Qed.

Lemma run_module_triple :
  triple (sends_creates p) (run_module p) (fun _ _ _ => False)
    (fun x l w =>
       (sends_creates p) l w ∧
       match x with
       | inl _ => False
       | inr (ExitJson _) => True
       | inr (FailJson msg) => msg = "Error!!"
       end).
Proof.
  unfold run_module. destruct (check_mode p).
  { apply triple_lift. intros l w Hl. split; [exact Hl | exact I]. }
  eapply triple_bind with (Q1 := fun _ => (sends_creates p));
    [apply triple_modify; intros l w Hl; exact Hl | intros ?].
  eapply triple_try_except.
  - apply try_body_triple.
  - intros e. apply triple_lift. intros l w [Hl _]. split; [exact Hl | reflexivity].
  - intros o l w [Hl Hf]. split; [exact Hl |]. destruct o; [exact I | contradiction].
Qed.
End CreateMore.

(** X1. Whatever its parameters, its file and the PCE do, a run of the
    creation module ends through [exit_json] or through
    [fail_json(msg="Error!!")]: no exception escapes and the run never falls
    off the end. *)
Theorem creation_run_always_reports {S} `{!Externals S}
    (p : create_label.params) (s : S) :
  match output_of (create_label.main p s) with
  | Exit (ExitJson _) => True
  | Exit (FailJson msg) => msg = "Error!!"
  | Ok _ | Raise _ => False
  end.
Proof.
  pose proof (run_module_triple p create_label.init_locals (World s [])
                (List.Forall_nil _)) as H.
  unfold create_label.main, output_of.
  destruct (create_label.run_module p create_label.init_locals (World s []))
    as [[[a | e | o] l1] w1]; simpl.
  - exact H.
  - destruct H as [_ []].
  - destruct H as [_ H]. exact H.
Qed.

(** X2. Every request a run of the creation module sends is a POST to the
    labels URL, carrying the module's credentials and a body with exactly
    the fields key and value: the module never reads, updates or deletes
    anything on the PCE. *)
Theorem creation_sends_only_creates {S} `{!Externals S}
    (p : create_label.params) (s : S) :
  Forall (is_create_of p) (log_of (create_label.main p s)).
Proof.
  pose proof (run_module_triple p create_label.init_locals (World s [])
                (List.Forall_nil _)) as H.
  unfold create_label.main, log_of.
  destruct (create_label.run_module p create_label.init_locals (World s []))
    as [[[a | e | o] l1] w1]; simpl.
  - contradiction.
  - destruct H as [_ []].
  - destruct H as [H _]. exact H.
Qed.

(** X3. In check mode both modules exit at once with an empty result: no
    file is opened and no request is sent. *)
Theorem check_mode_sends_nothing {S} `{!Externals S}
    (pa : assign_managed_labels.params) (pc : create_label.params) (s : S) :
  assign_managed_labels.check_mode pa = true →
  create_label.check_mode pc = true →
  assign_managed_labels.main pa s =
    (Exit (ExitJson []), assign_managed_labels.init_locals, World s []) ∧
  create_label.main pc s =
    (Exit (ExitJson []), create_label.init_locals, World s []).
Proof.
  intros Ha Hc. split.
  - unfold assign_managed_labels.main, assign_managed_labels.run_module.
    rewrite Ha. reflexivity.
  - unfold create_label.main, create_label.run_module. rewrite Hc. reflexivity.
Qed.

Lemma check_mode_sends_nothing_witness :
  @assign_managed_labels.main _ (scripted script_label_file) assign_params_check [] =
    (Exit (ExitJson []), assign_managed_labels.init_locals, World [] []) ∧
  @create_label.main _ (scripted script_label_file) create_params_check [] =
    (Exit (ExitJson []), create_label.init_locals, World [] []).
Proof.
  apply (@check_mode_sends_nothing _ (scripted script_label_file)
           assign_params_check create_params_check []); reflexivity.
Defined.

(** X4. When neither a path nor both a name and a type are given, the
    creation module sends nothing and ends through [exit_json] with the
    message "Parameter mismatch.": the run is not reported as failed. *)
Theorem parameter_mismatch_exits {S} `{!Externals S}
    (p : create_label.params) (s : S) :
  create_label.check_mode p = false →
  create_label.given (create_label.path p) = false →
  create_label.given (create_label.type p) && create_label.given (create_label.name p)
    = false →
  create_label.main p s =
    (Exit (ExitJson [("msg", JStr "Parameter mismatch.")]),
     create_label.init_locals, World s []).
Proof.
  intros Hcheck Hpath Hrec.
  unfold create_label.main, create_label.run_module. rewrite Hcheck.
  unfold bind, modify, try_except, create_label.try_body, bind.
  rewrite Hpath, Hrec. reflexivity.
Qed.

Lemma parameter_mismatch_exits_witness :
  @create_label.main _ (scripted script_label_file) create_params_none [] =
    (Exit (ExitJson [("msg", JStr "Parameter mismatch.")]),
     create_label.init_locals, World [] []).
Proof.
  apply (@parameter_mismatch_exits _ (scripted script_label_file)
           create_params_none []); reflexivity.
Defined.

(** X5. A path takes precedence: when a path is given, the name and type
    parameters play no part, the run is the one of the same parameters
    without them. *)
Theorem path_takes_precedence {S} `{!Externals S}
    (p : create_label.params) (s : S) :
  create_label.given (create_label.path p) = true →
  create_label.main p s = create_label.main (without_record p) s.
Proof.
  intros Hpath.
  unfold create_label.main, create_label.run_module. simpl.
  destruct (create_label.check_mode p); [reflexivity |].
  unfold bind, modify, try_except, create_label.try_body, bind. simpl.
  rewrite Hpath. reflexivity.
Qed.

Lemma path_takes_precedence_witness :
  @create_label.main _ (scripted script_label_file) create_params_both [] =
  @create_label.main _ (scripted script_label_file) (without_record create_params_both) [].
Proof.
  apply (@path_takes_precedence _ (scripted script_label_file) create_params_both []).
  reflexivity.
Defined.

(** X6. In CSV mode, over a file whose rows all have a type and a name
    and against a PCE whose calls do not raise, the run sends one create
    per row with a valid type, in file order, and reports, in file order,
    the entry "type : name" of every such row under success and the
    message of every other row under error. *)
Theorem csv_run_report {S} `{!Externals S}
    (p : create_label.params) (rows : list row) (records : list (string * string))
    (s : S) :
  create_label.check_mode p = false →
  create_label.given (create_label.path p) = true →
  open_csv (default "" (create_label.path p)) = Some rows →
  Forall2 row_has rows records →
  never_raises (S:=S) →
  output_of (create_label.main p s) =
    Exit (ExitJson [("error", strs (csv_error records));
                    ("success", strs (csv_success records))]) ∧
  log_of (create_label.main p s) = csv_requests p records.
Proof.
  intros Hcheck Hpath Hopen Hrows Hans.
  destruct (main_csv p rows records s Hcheck Hpath Hopen Hrows Hans) as [s' Hrun].
  rewrite Hrun. split; reflexivity.
Qed.

Lemma csv_run_report_witness :
  output_of (@create_label.main _ (scripted script_label_file) create_params_csv []) =
    Exit (ExitJson [("error", strs (csv_error [("app", "billing"); ("ap", "test")]));
                    ("success", strs (csv_success [("app", "billing"); ("ap", "test")]))]) ∧
  log_of (@create_label.main _ (scripted script_label_file) create_params_csv []) =
    csv_requests create_params_csv [("app", "billing"); ("ap", "test")].
Proof.
  apply (@csv_run_report _ (scripted script_label_file) create_params_csv
           [label_row "app" "billing"; label_row "ap" "test"]
           [("app", "billing"); ("ap", "test")] []).
  - reflexivity.
  - reflexivity.
  - reflexivity.
  - repeat constructor.
  - apply scripted_never_raises.
Defined.

(** X7. In single-record mode with a valid type exactly one create is
    sent; the run reports the entry "type : name" under success whatever
    the PCE answered, and reports "Error!!" when the call raised, the
    entry having been recorded before the call. *)
Theorem single_record_run_report {S} `{!Externals S}
    (p : create_label.params) (t n : string) (s : S) (o : option response) (s' : S) :
  create_label.check_mode p = false →
  create_label.given (create_label.path p) = false →
  create_label.type p = Some t → create_label.name p = Some n →
  t ≠ "" → n ≠ "" → valid_type t = true →
  http (create_request p t n) s = (o, s') →
  create_label.main p s =
    (Exit (match o with
           | Some _ => ExitJson [("error", strs []);
                                 ("success", strs [t +:+ " : " +:+ n])]
           | None => FailJson "Error!!"
           end),
     create_label.Locals [t +:+ " : " +:+ n] [],
     World s' [create_request p t n]).
Proof. apply main_single. Qed.

Lemma single_record_run_report_witness :
  @create_label.main _ (scripted script_label_file)
    (create_params_single "test_application" "app") [] =
    (Exit (ExitJson [("error", strs []);
                     ("success", strs ["app" +:+ " : " +:+ "test_application"])]),
     create_label.Locals ["app" +:+ " : " +:+ "test_application"] [],
     World [JObj [("key", JStr "app"); ("value", JStr "test_application")]]
       [create_request (create_params_single "test_application" "app")
          "app" "test_application"]).
Proof.
  apply (@single_record_run_report _ (scripted script_label_file)
           (create_params_single "test_application" "app") "app" "test_application" []
           (Some (Response 201 (dumps sample_created)))
           [JObj [("key", JStr "app"); ("value", JStr "test_application")]]);
    (reflexivity || discriminate).
Defined.

(** X8. When the label file cannot be opened, the run sends nothing and
    reports "Error!!". *)
Theorem unreadable_label_file_reports_error {S} `{!Externals S}
    (p : create_label.params) (s : S) :
  create_label.check_mode p = false →
  create_label.given (create_label.path p) = true →
  open_csv (default "" (create_label.path p)) = None →
  create_label.main p s =
    (Exit (FailJson "Error!!"), create_label.init_locals, World s []).
Proof.
  intros Hcheck Hpath Hopen.
  unfold create_label.main, create_label.run_module. rewrite Hcheck.
  unfold bind, modify, try_except, create_label.try_body, bind, lift.
  rewrite Hpath. unfold open_rows. rewrite Hopen. reflexivity.
Qed.

Lemma unreadable_label_file_reports_error_witness :
  @create_label.main _ (scripted script_label_file) create_params_missing_file [] =
    (Exit (FailJson "Error!!"), create_label.init_locals, World [] []).
Proof.
  apply (@unreadable_label_file_reports_error _ (scripted script_label_file)
           create_params_missing_file []); reflexivity.
Defined.

(** X9. A row with a valid type whose name cell is missing aborts the run
    after its create has been sent with a null value: the run reports only
    "Error!!", the rows that follow are not processed, and the entries of
    the rows before, whose creates were sent, are not reported. *)
Theorem short_row_aborts_run {S} `{!Externals S}
    (p : create_label.params) (pre rest : list row) (r : row)
    (records : list (string * string)) (key : string) (s : S) :
  create_label.check_mode p = false →
  create_label.given (create_label.path p) = true →
  open_csv (default "" (create_label.path p)) = Some (pre ++ r :: rest) →
  Forall2 row_has pre records →
  never_raises (S:=S) →
  r !! "type" = Some (Some key) → valid_type key = true →
  r !! "name" = Some None →
  ∃ s',
    create_label.main p s =
      (Exit (FailJson "Error!!"),
       create_label.Locals (csv_success records) (csv_error records),
       World s'
         (csv_requests p records ++
          [Request POST (create_label.API p) (create_label.basic_auth p)
             (Some (JObj [("key", JStr key); ("value", JNull)]))])).
Proof.
  intros Hcheck Hpath Hopen Hpre Hans Ht Hv Hn.
  destruct (csv_loop p pre records create_label.init_locals (World s []) Hans Hpre)
    as [s1 Hloop].
  set (rq := Request POST (create_label.API p) (create_label.basic_auth p)
               (Some (JObj [("key", JStr key); ("value", JNull)]))).
  destruct (Hans rq s1) as [r0 Hr0].
  destruct (http rq s1) as [o s2] eqn:Hh. simpl in Hr0. subst o.
  exists s2.
  assert (Hrow : create_label.csv_row p r
            (create_label.Locals (csv_success records) (csv_error records))
            (World s1 (csv_requests p records)) =
          (Raise TypeError,
           create_label.Locals (csv_success records) (csv_error records),
           World s2 (csv_requests p records ++ [rq]))).
  { unfold create_label.csv_row, bind, lift.
    rewrite (row_get_cell _ _ _ Ht), (row_get_cell _ _ _ Hn).
    rewrite csv_test_allow_list, Hv.
    unfold create_label.post_label, requests. simpl of_csv. fold rq.
    simpl pce_state. rewrite Hh. reflexivity. }
  assert (Hall : for_each (pre ++ r :: rest) (create_label.csv_row p)
                   create_label.init_locals (World s []) =
                 (Raise TypeError,
                  create_label.Locals (csv_success records) (csv_error records),
                  World s2 (csv_requests p records ++ [rq]))).
  { rewrite for_each_app. unfold bind. rewrite Hloop. simpl.
    unfold bind. rewrite Hrow. reflexivity. }
  unfold create_label.main, create_label.run_module. rewrite Hcheck.
  unfold bind, modify, try_except, create_label.try_body, bind, lift.
  rewrite Hpath. unfold open_rows. rewrite Hopen, Hall. reflexivity.
Qed.

Lemma short_row_aborts_run_witness :
  ∃ s',
    @create_label.main _ (scripted script_short_label_row) create_params_csv [] =
      (Exit (FailJson "Error!!"),
       create_label.Locals (csv_success [("app", "billing")]) (csv_error [("app", "billing")]),
       World s'
         (csv_requests create_params_csv [("app", "billing")] ++
          [Request POST (create_label.API create_params_csv)
             (create_label.basic_auth create_params_csv)
             (Some (JObj [("key", JStr "env"); ("value", JNull)]))])).
Proof.
  apply (@short_row_aborts_run _ (scripted script_short_label_row) create_params_csv
           [label_row "app" "billing"] [label_row "loc" "us-east"]
           (short_label_row "env") [("app", "billing")] "env" []).
  - reflexivity.
  - reflexivity.
  - reflexivity.
  - repeat constructor.
  - apply scripted_never_raises.
  - reflexivity.
  - reflexivity.
  - reflexivity.
Defined.

(** ** The assignment module, further: the catalog *)

Section Listing.
Import assign_managed_labels.

Lemma display_step_lookup (j : json) (k v : string) (h : json) (l : labels) :
  is_label_object j (k, v, h) →
  ∃ l', display_step j l = Ok l' ∧
        ∀ t v', l' t !! v' =
                if bool_decide (k = key_of t) && bool_decide (v = v')
                then Some h else l t !! v'.
Proof.
  intros (Hk & Hv & Hh).
  assert (Hcase : ∀ t l0,
            display_case t j l0 =
            Ok (if bool_decide (k = key_of t) then labels_store t v h l0 else l0)).
  { intros t l0. unfold display_case. rewrite Hk, Hh, Hv. simpl.
    destruct (bool_decide (k = key_of t)); reflexivity. }
  unfold display_step. do 3 (rewrite Hcase; cbn [res_bind]). rewrite Hcase.
  eexists. split; [reflexivity |].
  intros t v'.
  assert (Hstore : ∀ t0 l0,
            labels_store t0 v h l0 t !! v' =
            if bool_decide (t = t0) && bool_decide (v = v') then Some h else l0 t !! v').
  { intros t0 l0. unfold labels_store.
    destruct (decide (t = t0)) as [-> | Hne].
    - rewrite bool_decide_eq_true_2 by reflexivity. simpl.
      destruct (decide (v = v')) as [-> | Hv'].
      + rewrite bool_decide_eq_true_2 by reflexivity. apply lookup_insert_eq.
      + rewrite bool_decide_eq_false_2 by exact Hv'. apply lookup_insert_ne. exact Hv'.
    - rewrite bool_decide_eq_false_2 by exact Hne. reflexivity. }
  destruct (decide (k = key_of t)) as [-> | Hkt].
  - rewrite (bool_decide_eq_true_2 (key_of t = key_of t)) by reflexivity.
    destruct t; simpl; rewrite ?Hstore; simpl; reflexivity.
  - rewrite (bool_decide_eq_false_2 (k = key_of t)) by exact Hkt. simpl.
    repeat case_bool_decide; rewrite ?Hstore;
      destruct t; simpl in *; (reflexivity || congruence).
Qed.

Lemma display_loop_lookup (items : list json) (records : list (string * string * json))
    (l : labels) :
  Forall2 is_label_object items records →
  ∃ ld, display_loop items l = Ok ld ∧
        ∀ t v, ld t !! v =
               fold_left
                 (fun acc rec =>
                    let '(k, v', h) := rec in
                    if bool_decide (k = key_of t) && bool_decide (v' = v)
                    then Some h else acc)
                 records (l t !! v).
Proof.
  intros Hitems. revert l.
  induction Hitems as [| j [[k v] h] items records Hj _ IH]; intros l.
  - exists l. split; [reflexivity |]. reflexivity.
  - destruct (display_step_lookup j k v h l Hj) as (l1 & Hstep & Hl1).
    destruct (IH l1) as (ld & Hloop & Hld).
    exists ld. simpl. rewrite Hstep. simpl. split; [exact Hloop |].
    intros t v'. rewrite Hld, Hl1. reflexivity.
Qed.
End Listing.

(** X10. From a listing whose items carry a key, a value and an href, the
    catalog is built without error and holds, for each label type and
    value, the href of the last item listing that pair; items whose key
    is none of role, app, env, loc leave no trace. *)
Theorem catalog_holds_last_listed
    (items : list json) (records : list (string * string * json)) :
  Forall2 is_label_object items records →
  ∃ ld, assign_managed_labels.build_labels (JArr items) = Ok ld ∧
        ∀ t v, ld t !! v = listed records t v.
Proof.
  intros Hitems.
  destruct (display_loop_lookup items records assign_managed_labels.empty_labels Hitems)
    as (ld & Hloop & Hld).
  exists ld. split; [exact Hloop |].
  intros t v. rewrite Hld. unfold assign_managed_labels.empty_labels.
  rewrite lookup_empty. reflexivity.
Qed.

Lemma catalog_holds_last_listed_witness :
  ∃ ld, assign_managed_labels.build_labels
          (JArr [label_object "role" "web" "/orgs/1/labels/1";
                 label_object "zone" "dmz" "/orgs/1/labels/7";
                 label_object "role" "web" "/orgs/1/labels/8"]) = Ok ld ∧
        ∀ t v, ld t !! v =
               listed [("role", "web", JStr "/orgs/1/labels/1");
                       ("zone", "dmz", JStr "/orgs/1/labels/7");
                       ("role", "web", JStr "/orgs/1/labels/8")] t v.
Proof.
  apply (catalog_holds_last_listed
           [label_object "role" "web" "/orgs/1/labels/1";
            label_object "zone" "dmz" "/orgs/1/labels/7";
            label_object "role" "web" "/orgs/1/labels/8"]
           [("role", "web", JStr "/orgs/1/labels/1");
            ("zone", "dmz", JStr "/orgs/1/labels/7");
            ("role", "web", JStr "/orgs/1/labels/8")]).
  repeat constructor.
Defined.

(** ** The assignment module, further: the matching loop *)

Section MatchingLoop.
Import assign_managed_labels.
Context {S : Type} `{!Externals S}.
Variable p : params.

Lemma after_updates_nil (ip : option string) (l : locals) (w : world S) :
  after_updates ip [] l w l w.
Proof. repeat split; simpl; rewrite ?app_nil_r; reflexivity. Qed.

Lemma after_updates_app (ip : option string) (r1 r2 : list request)
    (l l1 l2 : locals) (w w1 w2 : world S) :
  after_updates ip r1 l w l1 w1 → after_updates ip r2 l1 w1 l2 w2 →
  after_updates ip (r1 ++ r2) l w l2 w2.
Proof.
  intros (Ha & Hn & Hh & Hc & Hs) (Ha' & Hn' & Hh' & Hc' & Hs').
  repeat split.
  - rewrite Ha', Ha, length_app, repeat_app, app_assoc. reflexivity.
  - congruence.
  - intros t. rewrite Hh', Hh. reflexivity.
  - rewrite Hc'. destruct r2 as [| x r2].
    + rewrite app_nil_r. exact Hc.
    + destruct r1; reflexivity.
  - rewrite Hs', Hs, app_assoc. reflexivity.
Qed.

(** One interface: an update when its address is the target or the
    workload's [public_ip] is. *)
Lemma assign_step_updates (ip : option string) (values d : json) (m : managed_workload)
    (a : string) (h1 h2 h3 h4 : json) (l : locals) (w : world S) :
  getitem values "href" = Ok (JStr (identifier m)) →
  getitem values "public_ip" = Ok (of_csv (public_ip m)) →
  getitem d "address" = Ok (JStr a) →
  href_var Role l = Some h1 → href_var App l = Some h2 →
  href_var Env l = Some h3 → href_var Loc l = Some h4 →
  updates_answered (S:=S) →
  returns (assign_step p ip values d) l w
    (fun _ l' w' =>
       after_updates ip
         (if bool_decide (Some a = ip) || bool_decide (public_ip m = ip)
          then [update_request p m h1 h2 h3 h4] else [])
         l w l' w').
Proof.
  intros Hhref Hpip Hd H1 H2 H3 H4 Hans.
  destruct (Hans (update_request p m h1 h2 h3 h4) (pce_state w) eq_refl) as (r & s' & Hh).
  unfold assign_step. rewrite Hd. apply returns_bind, returns_lift.
  apply returns_bind.
  apply (returns_mono _ _ _
           (fun hit l' w' =>
              hit = (bool_decide (Some a = ip) || bool_decide (public_ip m = ip))
              ∧ l' = l ∧ w' = w)).
  { change (JStr a) with (of_csv (Some a)). rewrite py_eq_of_csv.
    destruct (bool_decide (Some a = ip)).
    - apply returns_ret. auto.
    - rewrite Hpip. apply returns_bind, returns_lift, returns_ret.
      rewrite py_eq_of_csv. auto. }
  intros hit l' w' (-> & -> & ->).
  destruct (bool_decide (Some a = ip) || bool_decide (public_ip m = ip)).
  - apply returns_bind, returns_modify.
    apply returns_bind, (returns_read_var _ h1); [exact H1 |].
    apply returns_bind, (returns_read_var _ h2); [exact H2 |].
    apply returns_bind, (returns_read_var _ h3); [exact H3 |].
    apply returns_bind, (returns_read_var _ h4); [exact H4 |].
    rewrite Hhref. apply returns_bind, returns_lift.
    simpl uri_of. apply returns_bind, returns_lift.
    apply returns_bind, (returns_requests _ r s'); [exact Hh |].
    apply returns_modify.
    repeat split. intros t. destruct t; reflexivity.
  - apply returns_ret. apply after_updates_nil.
Qed.

Lemma assign_steps_updates (ip : option string) (values : json) (m : managed_workload)
    (datas : list json) (addrs : list string) (h1 h2 h3 h4 : json)
    (l : locals) (w : world S) :
  getitem values "href" = Ok (JStr (identifier m)) →
  getitem values "public_ip" = Ok (of_csv (public_ip m)) →
  Forall2 (fun d a => getitem d "address" = Ok (JStr a)) datas addrs →
  href_var Role l = Some h1 → href_var App l = Some h2 →
  href_var Env l = Some h3 → href_var Loc l = Some h4 →
  updates_answered (S:=S) →
  returns (for_each datas (assign_step p ip values)) l w
    (fun _ l' w' =>
       after_updates ip
         (repeat (update_request p m h1 h2 h3 h4)
            (length (List.filter
                       (fun a => bool_decide (Some a = ip)
                                 || bool_decide (public_ip m = ip)) addrs)))
         l w l' w').
Proof.
  intros Hhref Hpip Hdatas. revert l w.
  induction Hdatas as [| d a datas addrs Hd _ IH]; intros l w H1 H2 H3 H4 Hans.
  - apply returns_ret. apply after_updates_nil.
  - simpl for_each. apply returns_bind.
    eapply returns_mono;
      [exact (assign_step_updates ip values d m a h1 h2 h3 h4 l w
                Hhref Hpip Hd H1 H2 H3 H4 Hans) |].
    intros ? l1 w1 Hstep.
    pose proof Hstep as (_ & _ & Hvars & _ & _).
    eapply returns_mono;
      [apply IH; [rewrite Hvars; exact H1 | rewrite Hvars; exact H2
                 | rewrite Hvars; exact H3 | rewrite Hvars; exact H4 | exact Hans] |].
    intros ? l2 w2 Hrest. simpl List.filter.
    pose proof (after_updates_app ip _ _ _ _ _ _ _ _ Hstep Hrest) as Hboth.
    destruct (bool_decide (Some a = ip) || bool_decide (public_ip m = ip));
      exact Hboth.
Qed.

Lemma assign_workload_updates (ip : option string) (values : json) (m : managed_workload)
    (h1 h2 h3 h4 : json) (l : locals) (w : world S) :
  represents values m →
  href_var Role l = Some h1 → href_var App l = Some h2 →
  href_var Env l = Some h3 → href_var Loc l = Some h4 →
  updates_answered (S:=S) →
  returns (assign_workload p ip values) l w
    (fun _ l' w' =>
       after_updates ip (repeat (update_request p m h1 h2 h3 h4) (hits ip m)) l w l' w').
Proof.
  intros (Hhref & Hpip & datas & Hifs & Hdatas) H1 H2 H3 H4 Hans.
  unfold assign_workload. rewrite Hifs.
  apply returns_bind, returns_lift, returns_bind, returns_lift.
  exact (assign_steps_updates ip values m datas (interfaces m) h1 h2 h3 h4 l w
           Hhref Hpip Hdatas H1 H2 H3 H4 Hans).
Qed.

Lemma workloads_updates (ip : option string) (vs : list json) (ms : list managed_workload)
    (h1 h2 h3 h4 : json) (l : locals) (w : world S) :
  Forall2 represents vs ms →
  href_var Role l = Some h1 → href_var App l = Some h2 →
  href_var Env l = Some h3 → href_var Loc l = Some h4 →
  updates_answered (S:=S) →
  returns (for_each vs (assign_workload p ip)) l w
    (fun _ l' w' => after_updates ip (updates_for p ip h1 h2 h3 h4 ms) l w l' w').
Proof.
  intros Hrep. revert l w.
  induction Hrep as [| v m vs ms Hv _ IH]; intros l w H1 H2 H3 H4 Hans.
  - apply returns_ret. apply after_updates_nil.
  - simpl for_each. apply returns_bind.
    eapply returns_mono;
      [exact (assign_workload_updates ip v m h1 h2 h3 h4 l w Hv H1 H2 H3 H4 Hans) |].
    intros ? l1 w1 Hstep.
    pose proof Hstep as (_ & _ & Hvars & _ & _).
    eapply returns_mono;
      [apply IH; [rewrite Hvars; exact H1 | rewrite Hvars; exact H2
                 | rewrite Hvars; exact H3 | rewrite Hvars; exact H4 | exact Hans] |].
    intros ? l2 w2 Hrest.
    exact (after_updates_app ip _ _ _ _ _ _ _ _ Hstep Hrest).
Qed.
(** The matching loop as a whole. *)
Lemma assign_phase_updates (ip : option string) (vs : list json)
    (ms : list managed_workload) (h1 h2 h3 h4 : json) (l : locals) (w : world S) :
  Forall2 represents vs ms →
  role_href l = Some h1 → app_href l = Some h2 →
  env_href l = Some h3 → loc_href l = Some h4 →
  updates_answered (S:=S) →
  returns (assign_phase p ip (JArr vs)) l w
    (fun _ l' w' =>
       sent w' = sent w ++ updates_for p ip h1 h2 h3 h4 ms ∧
       assigned l' = assigned l ++ repeat ip (length (updates_for p ip h1 h2 h3 h4 ms)) ∧
       not_assigned l' =
         not_assigned l
         ++ match updates_for p ip h1 h2 h3 h4 ms with [] => [ip] | _ => [] end).
Proof.
  intros Hrep H1 H2 H3 H4 Hans.
  unfold assign_phase.
  apply returns_bind, returns_modify.
  simpl py_iter. apply returns_bind, returns_lift.
  apply returns_bind.
  eapply returns_mono;
    [exact (workloads_updates ip vs ms h1 h2 h3 h4 (set_check 0 l) w
              Hrep H1 H2 H3 H4 Hans) |].
  intros ? l1 w1 (Ha & Hn & _ & Hc & Hs).
  apply returns_bind, returns_get_locals.
  destruct (updates_for p ip h1 h2 h3 h4 ms) as [| rq reqs] eqn:Hu.
  - rewrite Hc. simpl. apply returns_modify. simpl.
    rewrite Hs, Ha, Hn. simpl. rewrite !app_nil_r. auto.
  - rewrite Hc. simpl. apply returns_ret.
    rewrite Hs, Ha, Hn. simpl. rewrite !app_nil_r. auto.
Qed.
End MatchingLoop.

(** X11. Over well-formed workloads, with the four identifiers bound and a
    PCE that answers updates, the matching loop runs to its end and sends,
    workload after workload, one update per hit, a hit being an interface
    whose address is the target or any interface of a workload whose
    [public_ip] is the target; the target is appended to the assigned list
    once per update, and to the not-assigned list once when there was no
    update at all. *)
Theorem matching_loop_updates {S} `{!Externals S}
    (p : assign_managed_labels.params) (ip : option string)
    (vs : list json) (ms : list managed_workload) (h1 h2 h3 h4 : json)
    (l : assign_managed_labels.locals) (w : world S) :
  Forall2 represents vs ms →
  assign_managed_labels.role_href l = Some h1 →
  assign_managed_labels.app_href l = Some h2 →
  assign_managed_labels.env_href l = Some h3 →
  assign_managed_labels.loc_href l = Some h4 →
  updates_answered (S:=S) →
  ∃ l' w',
    assign_managed_labels.assign_phase p ip (JArr vs) l w = (Ok tt, l', w') ∧
    sent w' = sent w ++ updates_for p ip h1 h2 h3 h4 ms ∧
    assign_managed_labels.assigned l' =
      assign_managed_labels.assigned l
      ++ repeat ip (length (updates_for p ip h1 h2 h3 h4 ms)) ∧
    assign_managed_labels.not_assigned l' =
      assign_managed_labels.not_assigned l
      ++ match updates_for p ip h1 h2 h3 h4 ms with [] => [ip] | _ => [] end.
Proof.
  intros Hrep H1 H2 H3 H4 Hans.
  destruct (assign_phase_updates p ip vs ms h1 h2 h3 h4 l w Hrep H1 H2 H3 H4 Hans)
    as ([] & l' & w' & Hrun & HQ).
  exists l', w'. split; assumption.
Qed.

Lemma matching_loop_updates_witness :
  ∃ l' w',
    @assign_managed_labels.assign_phase _ (scripted script_one_match) assign_params
      (Some "192.168.1.113")
      (JArr [workload_object "/orgs/1/workloads/w1" "192.168.1.113"
               ["10.0.0.7"; "10.0.0.8"]])
      bound_locals (World [] []) = (Ok tt, l', w') ∧
    sent w' =
      [] ++ updates_for assign_params (Some "192.168.1.113")
              (JStr "/orgs/1/labels/1") (JStr "/orgs/1/labels/2")
              (JStr "/orgs/1/labels/3") (JStr "/orgs/1/labels/4") [two_interfaces] ∧
    assign_managed_labels.assigned l' =
      [] ++ repeat (Some "192.168.1.113")
              (length (updates_for assign_params (Some "192.168.1.113")
                         (JStr "/orgs/1/labels/1") (JStr "/orgs/1/labels/2")
                         (JStr "/orgs/1/labels/3") (JStr "/orgs/1/labels/4")
                         [two_interfaces])) ∧
    assign_managed_labels.not_assigned l' =
      [] ++ match updates_for assign_params (Some "192.168.1.113")
                    (JStr "/orgs/1/labels/1") (JStr "/orgs/1/labels/2")
                    (JStr "/orgs/1/labels/3") (JStr "/orgs/1/labels/4")
                    [two_interfaces]
            with [] => [Some "192.168.1.113"] | _ => [] end.
Proof.
  apply (@matching_loop_updates _ (scripted script_one_match) assign_params
           (Some "192.168.1.113")
           [workload_object "/orgs/1/workloads/w1" "192.168.1.113"
              ["10.0.0.7"; "10.0.0.8"]]
           [two_interfaces]
           (JStr "/orgs/1/labels/1") (JStr "/orgs/1/labels/2")
           (JStr "/orgs/1/labels/3") (JStr "/orgs/1/labels/4")
           bound_locals (World [] [])).
  - repeat constructor.
    exists [JObj [("name", JStr "eth0"); ("address", JStr "10.0.0.7")];
            JObj [("name", JStr "eth0"); ("address", JStr "10.0.0.8")]].
    repeat constructor.
  - reflexivity.
  - reflexivity.
  - reflexivity.
  - reflexivity.
  - apply scripted_updates_answered.
Defined.

(** ** The assignment module, further: what is sent *)

Section AssignRequests.
Import assign_managed_labels.
Context {S : Type} `{!Externals S}.
Variable p : params.

Lemma always_bind_lift {L A B} (r : res A) (k : A → M S L B) (I : L → world S → Prop) :
  (∀ a, r = Ok a → always I (k a)) → always I (bind (lift r) k).
Proof.
  intros Hk l w Hl. unfold bind, lift.
  destruct r as [a | e | o]; [| exact Hl | exact Hl].
  exact (Hk a eq_refl l w Hl).
Qed.

Lemma add_ref_refs (h : json) (hs : list json) :
  ∃ hs', add_ref h (map (fun h => JObj [("href", h)]) hs)
         = map (fun h => JObj [("href", h)]) hs' ∧
         (length hs' ≤ Datatypes.S (length hs))%nat ∧
         (Forall (fun h => truthy h = true) hs → Forall (fun h => truthy h = true) hs').
Proof.
  unfold add_ref. destruct (truthy h) eqn:Ht.
  - exists (hs ++ [h]). split; [rewrite map_app; reflexivity |].
    split; [rewrite length_app; simpl; lia |].
    intros Hall. apply Forall_app. split; [exact Hall | repeat constructor; exact Ht].
  - exists hs. split; [reflexivity |]. split; [lia | auto].
Qed.

Lemma four_refs (h1 h2 h3 h4 : json) :
  label_refs (add_ref h4 (add_ref h3 (add_ref h2 (add_ref h1 [])))).
Proof.
  destruct (add_ref_refs h1 []) as (hs1 & E1 & L1 & F1). simpl in E1. rewrite E1.
  destruct (add_ref_refs h2 hs1) as (hs2 & E2 & L2 & F2). rewrite E2.
  destruct (add_ref_refs h3 hs2) as (hs3 & E3 & L3 & F3). rewrite E3.
  destruct (add_ref_refs h4 hs3) as (hs4 & E4 & L4 & F4). rewrite E4.
  exists hs4. split; [reflexivity |]. simpl in L1. split; [lia |].
  apply F4, F3, F2, F1. constructor.
Qed.

Lemma sends_assign_snoc (rq : request) (l : locals) (w : world S) (s' : S) :
  is_assign_request p rq → sends_assign p l w →
  sends_assign p l (World s' (sent w ++ [rq])).
Proof.
  intros Hrq Hl. unfold sends_assign. simpl.
  apply Forall_app. split; [exact Hl | constructor; [exact Hrq | constructor]].
Qed.

Lemma always_display_labels {L} (I : L → world S → Prop) :
  (∀ l w s', I l w →
     I l (World s' (sent w ++ [Request GET (labels_API p) (basic_auth p) None]))) →
  always I (display_labels p).
Proof.
  intros Hget. unfold display_labels.
  apply always_bind; [apply always_requests; exact Hget | intros response].
  apply always_bind; [apply always_lift | intros body].
  apply always_bind; [apply always_lift | intros obj].
  apply always_lift.
Qed.

Lemma always_resolve (t : label_type) (v : option string) :
  always (sends_assign p) (resolve p t v).
Proof.
  destruct v as [name |]; [| apply always_ret].
  unfold resolve.
  apply always_bind; [apply always_read_var | intros ld].
  destruct (ld t !! name).
  - apply always_modify. auto.
  - apply always_bind.
    + unfold create_label.
      apply always_bind; [| intros r; apply always_ret].
      apply always_requests. intros l w s' Hl.
      apply sends_assign_snoc; [| exact Hl].
      split; [reflexivity |]. simpl. split; [reflexivity | eauto].
    + intros body. apply always_bind; [apply always_lift | intros href].
      apply always_bind; apply always_modify || (intros ?; apply always_modify); auto.
Qed.

Lemma always_assign_step (ip : option string) (values d : json) :
  always (sends_assign p) (assign_step p ip values d).
Proof.
  unfold assign_step.
  apply always_bind; [apply always_lift | intros address].
  apply always_bind.
  { destruct (py_eq address ip); [apply always_ret |].
    apply always_bind; [apply always_lift | intros pip; apply always_ret]. }
  intros [|]; [| apply always_ret].
  apply always_bind; [apply always_modify; auto | intros ?].
  apply always_bind; [apply always_read_var | intros h1].
  apply always_bind; [apply always_read_var | intros h2].
  apply always_bind; [apply always_read_var | intros h3].
  apply always_bind; [apply always_read_var | intros h4].
  apply always_bind; [apply always_lift | intros href].
  apply always_bind_lift. intros uri Huri.
  destruct href; try discriminate. simpl in Huri. injection Huri as <-.
  apply always_bind; [| intros ?; apply always_modify; auto].
  apply always_requests. intros l w s' Hl.
  apply sends_assign_snoc; [| exact Hl].
  split; [reflexivity |]. simpl.
  eexists _, _. split; [reflexivity |]. split; [reflexivity |]. apply four_refs.
Qed.

Lemma always_assign_phase (ip : option string) (obj : json) :
  always (sends_assign p) (assign_phase p ip obj).
Proof.
  unfold assign_phase.
  apply always_bind; [apply always_modify; auto | intros ?].
  apply always_bind; [apply always_lift | intros workloads].
  apply always_bind.
  { apply always_for_each. intros values. unfold assign_workload.
    apply always_bind; [apply always_lift | intros ifs].
    apply always_bind; [apply always_lift | intros datas].
    apply always_for_each. intros d. apply always_assign_step. }
  intros ?. apply always_bind; [apply always_get_locals | intros l].
  destruct (check l =? 0)%Z; [apply always_modify; auto | apply always_ret].
Qed.

Lemma always_row_body (rows : row) : always (sends_assign p) (row_body p rows).
Proof.
  unfold row_body.
  do 5 (apply always_bind; [apply always_lift | intros ?]).
  apply always_bind.
  { apply always_requests. intros l w s' Hl.
    apply sends_assign_snoc; [| exact Hl].
    split; [reflexivity |]. simpl. auto. }
  intros response.
  apply always_bind; [apply always_lift | intros obj].
  do 4 (apply always_bind; [apply always_resolve | intros ?]).
  apply always_assign_phase.
Qed.

Lemma always_run_module : always (sends_assign p) (run_module p).
Proof.
  unfold run_module. destruct (check_mode p); [apply always_lift |].
  apply always_bind.
  { apply always_display_labels. intros l w s' Hl.
    apply sends_assign_snoc; [| exact Hl].
    split; [reflexivity |]. simpl. auto. }
  intros ld. apply always_bind; [apply always_modify; auto | intros ?].
  apply always_bind; [apply always_lift | intros rows].
  apply always_bind; [apply always_for_each; intros x; apply always_row_body | intros ?].
  apply always_bind; [apply always_get_locals | intros l]. apply always_lift.
Qed.
End AssignRequests.

(** X12. Every request a run of the assignment module sends carries the
    module's credentials and is one of: a GET of the labels or of the
    managed workloads, a create on the labels URL for one of the four label
    types with a string value, or an update under the PCE's /api/v2 whose
    body holds at most four label references, each to a truthy
    identifier. *)
Theorem assignment_requests_shape {S} `{!Externals S}
    (p : assign_managed_labels.params) (s : S) :
  Forall (is_assign_request p) (log_of (assign_managed_labels.main p s)).
Proof.
  exact (always_run (assign_managed_labels.run_module p) (sends_assign p)
           assign_managed_labels.init_locals (World s [])
           (always_run_module p) (List.Forall_nil _)).
Qed.

(** ** The assignment module, further: the books of a run *)

Section Accounting.
Import assign_managed_labels.
Context {S : Type} `{!Externals S}.
Variable p : params.

Lemma append_inj_l (a b c : string) : a +:+ b = a +:+ c → b = c.
Proof.
  induction a as [| x a IH]; intros H; [exact H |].
  change (String x (a +:+ b) = String x (a +:+ c)) in H.
  injection H as H. exact (IH H).
Qed.

Lemma API_not_labels_API : labels_API p ≠ API p.
Proof.
  unfold API, labels_API. intros H.
  do 3 apply append_inj_l in H. discriminate H.
Qed.

Lemma getitem_no_exit (x : json) (k : string) : no_exit (getitem x k).
Proof. unfold getitem. destruct x; try exact I. destruct (assoc k l); exact I. Qed.

Lemma py_iter_no_exit (x : json) : no_exit (py_iter x).
Proof. destruct x; exact I. Qed.

Lemma loads_no_exit (body : string) : no_exit (loads body).
Proof. unfold loads. destruct (json_loads body); exact I. Qed.

Lemma uri_of_no_exit (x : json) : no_exit (uri_of p x).
Proof. destruct x; exact I. Qed.

Lemma bytes_getitem0_no_exit (b : string) : no_exit (bytes_getitem0 b).
Proof. destruct b; exact I. Qed.

Lemma get_content_no_exit (o : pyobj) : no_exit (get_content o).
Proof. destruct o; exact I. Qed.

Lemma display_case_no_exit (t : label_type) (j : json) (l : labels) :
  no_exit (display_case t j l).
Proof.
  unfold display_case.
  pose proof (getitem_no_exit j "key") as Hk.
  destruct (getitem j "key") as [k | e | o]; [| exact I | contradiction].
  destruct (py_eq k (Some (key_of t))); [| exact I].
  pose proof (getitem_no_exit j "href") as Hh.
  destruct (getitem j "href") as [h | e | o]; [| exact I | contradiction].
  pose proof (getitem_no_exit j "value") as Hv.
  destruct (getitem j "value") as [v | e | o]; [| exact I | contradiction].
  destruct v; exact I.
Qed.

Lemma res_bind_no_exit {A B} (r : res A) (k : A → res B) :
  no_exit r → (∀ a, no_exit (k a)) → no_exit (res_bind r k).
Proof. intros Hr Hk. destruct r; [apply Hk | exact I | contradiction]. Qed.

Lemma build_labels_no_exit (obj : json) : no_exit (build_labels obj).
Proof.
  unfold build_labels. apply res_bind_no_exit; [apply py_iter_no_exit |].
  intros items. generalize empty_labels.
  induction items as [| j items IH]; intros l; [exact I |].
  simpl. apply res_bind_no_exit; [| exact IH].
  unfold display_step.
  repeat (apply res_bind_no_exit; [apply display_case_no_exit | intros ?]).
  apply display_case_no_exit.
Qed.

(** A value or an exception, in code that does not exit. *)
Lemma triple_value {L A} (r : res A) (P : L → world S → Prop)
    (Q : A → L → world S → Prop) :
  no_exit r → (∀ a l w, P l w → Q a l w) → triple P (lift r) Q no_exits.
Proof.
  intros Hr HQ. apply triple_lift. intros l w Hl.
  destruct r; [exact (HQ a l w Hl) | exact I | contradiction].
Qed.

Lemma fetches_snoc (log : list request) (rq : request) :
  fetches p (log ++ [rq]) = (fetches p log + if is_fetch p rq then 1 else 0)%nat.
Proof.
  unfold fetches. rewrite List.filter_app, length_app. simpl.
  destruct (is_fetch p rq); reflexivity.
Qed.

Lemma puts_snoc (log : list request) (rq : request) :
  length (only PUT (log ++ [rq])) =
  (length (only PUT log) + if is_meth PUT rq then 1 else 0)%nat.
Proof.
  rewrite only_app, length_app. unfold only at 2. simpl.
  destruct (meth rq); reflexivity.
Qed.

(** Resolving a cell sends creates only and touches neither list. *)
Lemma resolve_fetched (n : nat) (t : label_type) (v : option string) :
  triple (fetched p n) (resolve p t v) (fun _ => fetched p n) no_exits.
Proof.
  destruct v as [name |]; [| apply triple_ret; auto].
  unfold resolve.
  eapply triple_bind with (Q1 := fun _ => fetched p n);
    [apply triple_read_var; [auto | intros; exact I] | intros ld].
  destruct (ld t !! name).
  - apply triple_modify. intros l w Hl. destruct t; exact Hl.
  - eapply triple_bind with (Q1 := fun _ => fetched p n).
    + unfold create_label.
      eapply triple_bind with (Q1 := fun _ => fetched p n);
        [| intros r; apply triple_ret; auto].
      apply triple_requests; [| intros; exact I].
      intros l w r s' (Ha & Hf & Hn). repeat split; simpl.
      * rewrite puts_snoc. simpl. lia.
      * rewrite fetches_snoc. simpl. lia.
      * exact Hn.
    + intros body.
      eapply triple_bind with (Q1 := fun _ => fetched p n);
        [apply triple_value; [apply bytes_getitem0_no_exit | auto] | intros href].
      eapply triple_bind with (Q1 := fun _ => fetched p n);
        [apply triple_modify; intros l w Hl; exact Hl | intros ?].
      apply triple_modify. intros l w Hl. destruct t; exact Hl.
Qed.

Lemma assign_step_fetched (n : nat) (ip : option string) (values d : json) :
  triple (fetched p n) (assign_step p ip values d) (fun _ => fetched p n) no_exits.
Proof.
  unfold assign_step.
  eapply triple_bind with (Q1 := fun _ => fetched p n);
    [apply triple_value; [apply getitem_no_exit | auto] | intros address].
  eapply triple_bind with (Q1 := fun _ => fetched p n).
  { destruct (py_eq address ip); [apply triple_ret; auto |].
    eapply triple_bind with (Q1 := fun _ => fetched p n);
      [apply triple_value; [apply getitem_no_exit | auto] | intros pip].
    apply triple_ret. auto. }
  intros [|]; [| apply triple_ret; auto].
  eapply triple_bind with (Q1 := fun _ => fetched p n);
    [apply triple_modify; intros l w Hl; exact Hl | intros ?].
  do 4 (eapply triple_bind with (Q1 := fun _ => fetched p n);
        [apply triple_read_var; [auto | intros; exact I] | intros ?]).
  eapply triple_bind with (Q1 := fun _ => fetched p n);
    [apply triple_value; [apply getitem_no_exit | auto] | intros href].
  eapply triple_bind with (Q1 := fun _ => fetched p n);
    [apply triple_value; [apply uri_of_no_exit | auto] | intros uri].
  eapply triple_bind with
    (Q1 := fun _ l w =>
             Datatypes.S (length (assigned l)) = length (only PUT (sent w)) ∧
             fetches p (sent w) = Datatypes.S n ∧ (length (not_assigned l) ≤ n)%nat).
  - apply triple_requests; [| intros; exact I].
    intros l w r s' (Ha & Hf & Hn). repeat split; simpl.
    + rewrite puts_snoc. simpl. lia.
    + rewrite fetches_snoc. simpl. lia.
    + exact Hn.
  - intros ?. apply triple_modify. intros l w (Ha & Hf & Hn).
    repeat split; simpl; [rewrite length_app; simpl; lia | exact Hf | exact Hn].
Qed.

Lemma assign_phase_accounted (n : nat) (ip : option string) (obj : json) :
  triple (fetched p n) (assign_phase p ip obj)
    (fun _ => accounted p (Datatypes.S n)) no_exits.
Proof.
  unfold assign_phase.
  eapply triple_bind with (Q1 := fun _ => fetched p n);
    [apply triple_modify; intros l w Hl; exact Hl | intros ?].
  eapply triple_bind with (Q1 := fun _ => fetched p n);
    [apply triple_value; [apply py_iter_no_exit | auto] | intros workloads].
  eapply triple_bind with (Q1 := fun _ => fetched p n).
  { apply triple_for_each. intros values. unfold assign_workload.
    eapply triple_bind with (Q1 := fun _ => fetched p n);
      [apply triple_value; [apply getitem_no_exit | auto] | intros ifs].
    eapply triple_bind with (Q1 := fun _ => fetched p n);
      [apply triple_value; [apply py_iter_no_exit | auto] | intros datas].
    apply triple_for_each. intros d. apply assign_step_fetched. }
  intros ?.
  eapply triple_bind with (Q1 := fun _ => fetched p n);
    [apply triple_get_locals; auto | intros l0].
  destruct (check l0 =? 0)%Z.
  - apply triple_modify. intros l w (Ha & Hf & Hn).
    repeat split; simpl; [exact Ha | exact Hf | rewrite length_app; simpl; lia].
  - apply triple_ret. intros l w (Ha & Hf & Hn).
    repeat split; [exact Ha | exact Hf | lia].
Qed.

(** One row: one fetch, and the books are kept. *)
Lemma row_body_accounted (n : nat) (rows : row) :
  triple (accounted p n) (row_body p rows) (fun _ => accounted p (Datatypes.S n)) no_exits.
Proof.
  unfold row_body.
  do 5 (eapply triple_bind with (Q1 := fun _ => accounted p n);
        [apply triple_value; [apply row_get_no_exit | auto] | intros ?]).
  eapply triple_bind with (Q1 := fun _ => fetched p n).
  { apply triple_requests; [| intros; exact I].
    intros l w r s' (Ha & Hf & Hn). repeat split; simpl.
    - rewrite puts_snoc. simpl. lia.
    - rewrite fetches_snoc. unfold is_fetch. simpl.
      rewrite bool_decide_eq_true_2 by reflexivity. lia.
    - exact Hn. }
  intros response.
  eapply triple_bind with (Q1 := fun _ => fetched p n);
    [apply triple_value; [apply loads_no_exit | auto] | intros obj].
  do 4 (eapply triple_bind with (Q1 := fun _ => fetched p n);
        [apply resolve_fetched | intros ?]).
  apply assign_phase_accounted.
Qed.

Lemma display_labels_accounted :
  triple (accounted p 0) (display_labels p) (fun _ => accounted p 0) no_exits.
Proof.
  unfold display_labels.
  eapply triple_bind with (Q1 := fun _ => accounted p 0).
  { apply triple_requests; [| intros; exact I].
    intros l w r s' (Ha & Hf & Hn). repeat split; simpl.
    - rewrite puts_snoc. simpl. lia.
    - rewrite fetches_snoc. unfold is_fetch. simpl.
      rewrite bool_decide_eq_false_2 by exact API_not_labels_API. lia.
    - exact Hn. }
  intros response.
  eapply triple_bind with (Q1 := fun _ => accounted p 0);
    [apply triple_value; [apply get_content_no_exit | auto] | intros body].
  eapply triple_bind with (Q1 := fun _ => accounted p 0);
    [apply triple_value; [apply loads_no_exit | auto] | intros obj].
  apply triple_value; [apply build_labels_no_exit | auto].
Qed.

Lemma run_module_accounted :
  triple (accounted p 0) (run_module p) (fun _ _ _ => False) (assignment_end p).
Proof.
  unfold run_module. destruct (check_mode p) eqn:Hcheck.
  { apply triple_lift. intros l w Hl. left. auto. }
  assert (Hweak : ∀ x l w, no_exits x l w → assignment_end p x l w).
  { intros [e | o] l w Hx; [exact Hcheck | contradiction]. }
  eapply triple_bind with (Q1 := fun _ => accounted p 0).
  { eapply triple_conseq; [apply display_labels_accounted | auto | auto | exact Hweak]. }
  intros ld.
  eapply triple_bind with (Q1 := fun _ => accounted p 0);
    [apply triple_modify; intros l w Hl; exact Hl | intros ?].
  unfold open_rows. destruct (open_csv (workload p)) as [rows |] eqn:Hopen.
  - eapply triple_bind with (Q1 := fun rows' l w => rows' = rows ∧ accounted p 0 l w);
      [apply triple_lift; auto | intros rows'].
    apply triple_assume. intros ->.
    eapply triple_bind with (Q1 := fun _ => accounted p (0 + length rows)).
    + eapply triple_conseq;
        [apply (triple_for_each_count rows (row_body p) (accounted p) no_exits 0);
         intros j x; apply row_body_accounted
        | auto | auto | exact Hweak].
    + intros ?.
      eapply triple_bind with
        (Q1 := fun l0 l w => l0 = l ∧ accounted p (0 + length rows) l w);
        [apply triple_get_locals; auto | intros l0].
      apply triple_lift. intros l w [-> Hl]. right. split; [exact Hcheck |].
      exists rows. auto.
  - apply triple_bind with (Q1 := fun _ _ _ => False);
      [| intros ? ? ? []].
    apply triple_lift. intros l w Hl. exact Hcheck.
Qed.
End Accounting.

(** X13. A run of the assignment module never calls [fail_json] and never
    falls off the end: it ends by an exception that nothing catches, or
    through [exit_json], with an empty result in check mode and otherwise
    with changed set to true beside the two lists, whatever was or was not
    assigned. *)
Theorem assignment_run_outcome {S} `{!Externals S}
    (p : assign_managed_labels.params) (s : S) :
  match output_of (assign_managed_labels.main p s) with
  | Ok _ => False
  | Raise _ => assign_managed_labels.check_mode p = false
  | Exit (FailJson _) => False
  | Exit (ExitJson kwargs) =>
      (assign_managed_labels.check_mode p = true ∧ kwargs = []) ∨
      (assign_managed_labels.check_mode p = false ∧
       ∃ a n, kwargs = [("changed", JBool true);
                        ("labels_assigned", JArr a);
                        ("not_assigned", JArr n)])
  end.
Proof.
  assert (H0 : accounted p 0 assign_managed_labels.init_locals (World s [])).
  { repeat split. simpl. lia. }
  pose proof (run_module_accounted p _ _ H0) as H.
  unfold assign_managed_labels.main, output_of.
  destruct (assign_managed_labels.run_module p assign_managed_labels.init_locals
              (World s [])) as [[[a | e | o] l1] w1]; simpl.
  - exact H.
  - exact H.
  - destruct o as [kwargs | msg]; [| exact H].
    destruct H as [H | (Hc & rows & _ & Hk & _)]; [left; exact H | right].
    split; [exact Hc | eauto].
Qed.

(** X14. When the workload file can be read and the run completes, the
    books balance: labels_assigned has exactly one entry per update sent,
    the managed workloads were fetched exactly once per row of the file,
    and not_assigned has at most one entry per row. *)
Theorem assignment_run_accounting {S} `{!Externals S}
    (p : assign_managed_labels.params) (rows : list row) (s : S) :
  assign_managed_labels.check_mode p = false →
  open_csv (assign_managed_labels.workload p) = Some rows →
  match output_of (assign_managed_labels.main p s) with
  | Ok _ => False
  | Raise _ => True
  | Exit (FailJson _) => False
  | Exit (ExitJson kwargs) =>
      ∃ a n, kwargs = [("changed", JBool true);
                       ("labels_assigned", JArr a);
                       ("not_assigned", JArr n)] ∧
             length a = length (only PUT (log_of (assign_managed_labels.main p s))) ∧
             fetches p (log_of (assign_managed_labels.main p s)) = length rows ∧
             (length n ≤ length rows)%nat
  end.
Proof.
  intros Hcheck Hopen.
  assert (H0 : accounted p 0 assign_managed_labels.init_locals (World s [])).
  { repeat split. simpl. lia. }
  pose proof (run_module_accounted p _ _ H0) as H.
  unfold assign_managed_labels.main, output_of, log_of.
  destruct (assign_managed_labels.run_module p assign_managed_labels.init_locals
              (World s [])) as [[[a | e | o] l1] w1]; simpl.
  - exact H.
  - exact I.
  - destruct o as [kwargs | msg]; [| exact H].
    destruct H as [[Hc _] | (_ & rows' & Hrows & Hk & Ha & Hf & Hn)]; [congruence |].
    rewrite Hopen in Hrows. injection Hrows as <-.
    eexists _, _. split; [exact Hk |]. rewrite !length_map. auto.
Qed.

Lemma assignment_run_accounting_witness :
  match output_of (@assign_managed_labels.main _ (scripted script_same_ip_twice)
                     assign_params []) with
  | Ok _ => False
  | Raise _ => True
  | Exit (FailJson _) => False
  | Exit (ExitJson kwargs) =>
      ∃ a n, kwargs = [("changed", JBool true);
                       ("labels_assigned", JArr a);
                       ("not_assigned", JArr n)] ∧
             length a = length (only PUT (log_of (@assign_managed_labels.main _
                                  (scripted script_same_ip_twice) assign_params []))) ∧
             fetches assign_params
               (log_of (@assign_managed_labels.main _ (scripted script_same_ip_twice)
                          assign_params []))
             = length [workload_row "192.168.1.113" "web" "billing" "prod" "us-east";
                       workload_row "192.168.1.113" "web" "billing" "prod" "us-east"] ∧
             (length n ≤ length [workload_row "192.168.1.113" "web" "billing" "prod" "us-east";
                                 workload_row "192.168.1.113" "web" "billing" "prod" "us-east"])%nat
  end.
Proof.
  apply (@assignment_run_accounting _ (scripted script_same_ip_twice) assign_params
           [workload_row "192.168.1.113" "web" "billing" "prod" "us-east";
            workload_row "192.168.1.113" "web" "billing" "prod" "us-east"] []);
    reflexivity.
Defined.

(** ** The assignment module, further: the catalog during a run *)

Section CatalogGrows.
Import assign_managed_labels.
Context {S : Type} `{!Externals S}.
Variable p : params.
Variable ld0 : labels.

Lemma catalog_extends_locals (f : locals → locals) :
  (∀ l, labels_details (f l) = labels_details l) →
  ∀ l (w w' : world S), catalog_extends ld0 l w → catalog_extends ld0 (f l) w'.
Proof.
  intros Hf l w w' (ld & Hld & Hext). exists ld. rewrite Hf. auto.
Qed.

Lemma always_modify_catalog (f : locals → locals) :
  (∀ l, labels_details (f l) = labels_details l) →
  always (S:=S) (catalog_extends ld0) (modify f).
Proof.
  intros Hf. apply always_modify. intros l w. apply catalog_extends_locals. exact Hf.
Qed.

Lemma always_requests_catalog (rq : request) :
  always (L:=locals) (catalog_extends ld0) (requests rq).
Proof.
  apply always_requests. intros l w s' Hl.
  exact (catalog_extends_locals (fun l => l) (fun _ => eq_refl) l w _ Hl).
Qed.

(** Resolving a cell stores a binding only for a value the catalog lacks. *)
Lemma always_resolve_catalog (t : label_type) (v : option string) :
  always (catalog_extends ld0) (resolve p t v).
Proof.
  destruct v as [name |]; [| apply always_ret].
  intros l w (ld & Hld & Hext). unfold resolve, bind, read_var. rewrite Hld.
  destruct (ld t !! name) as [h |] eqn:Hlook.
  - unfold modify. exists ld. split; [destruct t; exact Hld | exact Hext].
  - unfold create_label, bind, requests.
    destruct (http _ (pce_state w)) as [[r |] s']; simpl;
      [| exists ld; split; assumption].
    unfold lift. destruct (content r) as [| c body]; simpl;
      [exists ld; split; assumption |].
    eexists. split; [destruct t; reflexivity |].
    intros t1 v1 h1 H1. apply Hext in H1. unfold labels_store.
    destruct (decide (t1 = t)) as [-> |]; [| exact H1].
    destruct (decide (name = v1)) as [-> |]; [congruence |].
    rewrite lookup_insert_ne by assumption. exact H1.
Qed.

Lemma always_row_body_catalog (rows : row) :
  always (catalog_extends ld0) (row_body p rows).
Proof.
  unfold row_body.
  do 5 (apply always_bind; [apply always_lift | intros ?]).
  apply always_bind; [apply always_requests_catalog | intros response].
  apply always_bind; [apply always_lift | intros obj].
  do 4 (apply always_bind; [apply always_resolve_catalog | intros ?]).
  unfold assign_phase.
  apply always_bind; [apply always_modify_catalog; reflexivity | intros ?].
  apply always_bind; [apply always_lift | intros workloads].
  apply always_bind.
  { apply always_for_each. intros values. unfold assign_workload.
    apply always_bind; [apply always_lift | intros ifs].
    apply always_bind; [apply always_lift | intros datas].
    apply always_for_each. intros d. unfold assign_step.
    apply always_bind; [apply always_lift | intros address].
    apply always_bind.
    { destruct (py_eq address a); [apply always_ret |].
      apply always_bind; [apply always_lift | intros pip; apply always_ret]. }
    intros [|]; [| apply always_ret].
    apply always_bind; [apply always_modify_catalog; reflexivity | intros ?].
    do 4 (apply always_bind; [apply always_read_var | intros ?]).
    do 2 (apply always_bind; [apply always_lift | intros ?]).
    apply always_bind; [apply always_requests_catalog | intros ?].
    apply always_modify_catalog. reflexivity. }
  intros ?. apply always_bind; [apply always_get_locals | intros l].
  destruct (check l =? 0)%Z; [apply always_modify_catalog; reflexivity | apply always_ret].
Qed.
End CatalogGrows.

(** X15. However the loop over the rows ends, the in-memory catalog it
    leaves holds every binding it started with, unchanged: an identifier,
    once listed or created for a (type, value) pair, is never replaced or
    dropped. *)
Theorem catalog_bindings_are_kept {S} `{!Externals S}
    (p : assign_managed_labels.params) (rows : list row)
    (ld0 : assign_managed_labels.labels)
    (l : assign_managed_labels.locals) (w : world S) :
  assign_managed_labels.labels_details l = Some ld0 →
  ∃ ld, assign_managed_labels.labels_details
          (snd (fst (for_each rows (assign_managed_labels.row_body p) l w))) = Some ld ∧
        ∀ t v h, ld0 t !! v = Some h → ld t !! v = Some h.
Proof.
  intros Hld.
  apply (always_run (for_each rows (assign_managed_labels.row_body p))
           (catalog_extends ld0) l w).
  - apply always_for_each. intros x. apply always_row_body_catalog.
  - exists ld0. split; [exact Hld | auto].
Qed.

Lemma catalog_bindings_are_kept_witness :
  ∃ ld, assign_managed_labels.labels_details
          (snd (fst (@for_each _ _ _
                       [workload_row "192.168.1.113" "web" "billing" "prod" "us-east"]
                       (@assign_managed_labels.row_body _ (scripted script_one_match)
                          assign_params)
                       listed_locals (World [] [])))) = Some ld ∧
        ∀ t v h, sample_catalog t !! v = Some h → ld t !! v = Some h.
Proof.
  apply (@catalog_bindings_are_kept _ (scripted script_one_match) assign_params
           [workload_row "192.168.1.113" "web" "billing" "prod" "us-east"]
           sample_catalog listed_locals (World [] [])).
  reflexivity.
Defined.

(** ** The assignment module, further: edges *)

Section AssignEdges.
Import assign_managed_labels.
Context {S : Type} `{!Externals S}.
Variable p : params.

(** The labels are listed: the answer is not 500 bytes long, decodes, and
    the catalog can be built from it. *)
Lemma display_labels_listed {L} (l : L) (w : world S) (r : response) (s' : S)
    (obj : json) (result : res labels) :
  http (Request GET (labels_API p) (basic_auth p) None) (pce_state w) = (Some r, s') →
  String.length (content r) ≠ 500%nat →
  json_loads (content r) = Some obj →
  build_labels obj = result →
  display_labels p l w =
    (result, l, World s' (sent w ++ [Request GET (labels_API p) (basic_auth p) None])).
Proof.
  intros Hh Hlen Hjson Hbuild.
  unfold display_labels, bind, requests. rewrite Hh.
  apply Nat.eqb_neq in Hlen. rewrite Hlen.
  unfold lift, loads. simpl. rewrite Hjson, Hbuild. destruct result; reflexivity.
Qed.

(** An item of the listing that is an object without the field key. *)
Lemma display_loop_missing_key (pre rest : list json)
    (records : list (string * string * json)) (fields : list (string * json))
    (l : labels) :
  Forall2 is_label_object pre records →
  assoc "key" fields = None →
  display_loop (pre ++ JObj fields :: rest) l = Raise KeyError.
Proof.
  intros Hpre Hkey. revert l.
  induction Hpre as [| j [[k v] h] pre records Hj _ IH]; intros l.
  - simpl. unfold display_step, display_case, getitem. rewrite Hkey. reflexivity.
  - destruct (display_step_lookup j k v h l Hj) as (l1 & Hstep & _).
    simpl. rewrite Hstep. simpl. apply IH.
Qed.
End AssignEdges.

(** X16. When the workload file cannot be opened, the labels have already
    been listed: the run has sent that one GET and ends with the
    exception, which nothing catches. *)
Theorem unreadable_workload_file_raises {S} `{!Externals S}
    (p : assign_managed_labels.params) (s s' : S) (r : response) (obj : json)
    (ld : assign_managed_labels.labels) :
  assign_managed_labels.check_mode p = false →
  http (Request GET (assign_managed_labels.labels_API p)
          (assign_managed_labels.basic_auth p) None) s = (Some r, s') →
  String.length (content r) ≠ 500%nat →
  json_loads (content r) = Some obj →
  assign_managed_labels.build_labels obj = Ok ld →
  open_csv (assign_managed_labels.workload p) = None →
  assign_managed_labels.main p s =
    (Raise OSError,
     assign_managed_labels.set_labels_details ld assign_managed_labels.init_locals,
     World s' [Request GET (assign_managed_labels.labels_API p)
                 (assign_managed_labels.basic_auth p) None]).
Proof.
  intros Hcheck Hh Hlen Hjson Hbuild Hopen.
  unfold assign_managed_labels.main, assign_managed_labels.run_module.
  rewrite Hcheck. unfold bind at 1.
  rewrite (display_labels_listed p assign_managed_labels.init_locals (World s [])
             r s' obj (Ok ld) Hh Hlen Hjson Hbuild).
  unfold bind, modify, lift, open_rows. rewrite Hopen. reflexivity.
Qed.

Lemma unreadable_workload_file_raises_witness :
  @assign_managed_labels.main _ (scripted script_one_match)
    assign_params_missing_file [] =
    (Raise OSError,
     assign_managed_labels.set_labels_details sample_catalog
       assign_managed_labels.init_locals,
     World [] [Request GET (assign_managed_labels.labels_API assign_params_missing_file)
                 (assign_managed_labels.basic_auth assign_params_missing_file) None]).
Proof.
  apply (@unreadable_workload_file_raises _ (scripted script_one_match)
           assign_params_missing_file [] [] (Response 200 (dumps sample_listing))
           sample_listing sample_catalog).
  - reflexivity.
  - reflexivity.
  - vm_compute. discriminate.
  - vm_compute. reflexivity.
  - reflexivity.
  - reflexivity.
Defined.

(** X17. Over a workload file without rows the run lists the labels,
    sends nothing else, and still reports changed as true, with both lists
    empty. *)
Theorem empty_workload_file_reports_changed {S} `{!Externals S}
    (p : assign_managed_labels.params) (s s' : S) (r : response) (obj : json)
    (ld : assign_managed_labels.labels) :
  assign_managed_labels.check_mode p = false →
  http (Request GET (assign_managed_labels.labels_API p)
          (assign_managed_labels.basic_auth p) None) s = (Some r, s') →
  String.length (content r) ≠ 500%nat →
  json_loads (content r) = Some obj →
  assign_managed_labels.build_labels obj = Ok ld →
  open_csv (assign_managed_labels.workload p) = Some [] →
  assign_managed_labels.main p s =
    (Exit (ExitJson [("changed", JBool true);
                     ("labels_assigned", JArr []);
                     ("not_assigned", JArr [])]),
     assign_managed_labels.set_labels_details ld assign_managed_labels.init_locals,
     World s' [Request GET (assign_managed_labels.labels_API p)
                 (assign_managed_labels.basic_auth p) None]).
Proof.
  intros Hcheck Hh Hlen Hjson Hbuild Hopen.
  unfold assign_managed_labels.main, assign_managed_labels.run_module.
  rewrite Hcheck. unfold bind at 1.
  rewrite (display_labels_listed p assign_managed_labels.init_locals (World s [])
             r s' obj (Ok ld) Hh Hlen Hjson Hbuild).
  unfold bind, modify, lift, open_rows. rewrite Hopen. reflexivity.
Qed.

Lemma empty_workload_file_reports_changed_witness :
  @assign_managed_labels.main _ (scripted script_empty_file) assign_params [] =
    (Exit (ExitJson [("changed", JBool true);
                     ("labels_assigned", JArr []);
                     ("not_assigned", JArr [])]),
     assign_managed_labels.set_labels_details sample_catalog
       assign_managed_labels.init_locals,
     World [] [Request GET (assign_managed_labels.labels_API assign_params)
                 (assign_managed_labels.basic_auth assign_params) None]).
Proof.
  apply (@empty_workload_file_reports_changed _ (scripted script_empty_file)
           assign_params [] [] (Response 200 (dumps sample_listing))
           sample_listing sample_catalog).
  - reflexivity.
  - reflexivity.
  - vm_compute. discriminate.
  - vm_compute. reflexivity.
  - reflexivity.
  - reflexivity.
Defined.

(** X18. When the labels answer lists, after any number of well-formed
    items, an object without the field key (as an error document does),
    the run ends with a KeyError that nothing catches, having sent the
    labels GET only: the workload file is not opened. *)
Theorem listing_without_key_raises {S} `{!Externals S}
    (p : assign_managed_labels.params) (s s' : S) (r : response)
    (pre rest : list json) (records : list (string * string * json))
    (fields : list (string * json)) :
  assign_managed_labels.check_mode p = false →
  http (Request GET (assign_managed_labels.labels_API p)
          (assign_managed_labels.basic_auth p) None) s = (Some r, s') →
  String.length (content r) ≠ 500%nat →
  json_loads (content r) = Some (JArr (pre ++ JObj fields :: rest)) →
  Forall2 is_label_object pre records →
  assoc "key" fields = None →
  assign_managed_labels.main p s =
    (Raise KeyError, assign_managed_labels.init_locals,
     World s' [Request GET (assign_managed_labels.labels_API p)
                 (assign_managed_labels.basic_auth p) None]).
Proof.
  intros Hcheck Hh Hlen Hjson Hpre Hkey.
  unfold assign_managed_labels.main, assign_managed_labels.run_module.
  rewrite Hcheck. unfold bind at 1.
  rewrite (display_labels_listed p assign_managed_labels.init_locals (World s [])
             r s' _ (Raise KeyError) Hh Hlen Hjson).
  - reflexivity.
  - unfold assign_managed_labels.build_labels. simpl.
    exact (display_loop_missing_key pre rest records fields _ Hpre Hkey).
Qed.

Lemma listing_without_key_raises_witness :
  @assign_managed_labels.main _ (scripted script_error_document) assign_params [] =
    (Raise KeyError, assign_managed_labels.init_locals,
     World [] [Request GET (assign_managed_labels.labels_API assign_params)
                 (assign_managed_labels.basic_auth assign_params) None]).
Proof.
  apply (@listing_without_key_raises _ (scripted script_error_document)
           assign_params [] [] (Response 200 (dumps error_document))
           [] [] [] [("token", JStr "forbidden"); ("message", JStr "Forbidden")]).
  - reflexivity.
  - reflexivity.
  - vm_compute. discriminate.
  - vm_compute. reflexivity.
  - constructor.
  - reflexivity.
Defined.

(** X19. Creating a label the catalog lacks: the create is sent; on an
    empty answer the cell fails with IndexError and the catalog is left as
    it was; otherwise the identifier stored in the catalog and bound to
    the variable is the first byte of the answer, as a number, whatever
    href the answer holds. *)
Theorem created_identifier_is_first_byte {S} `{!Externals S}
    (p : assign_managed_labels.params) (t : assign_managed_labels.label_type)
    (name : string) (ld : assign_managed_labels.labels)
    (l : assign_managed_labels.locals) (w : world S) (r : response) (s' : S) :
  assign_managed_labels.labels_details l = Some ld →
  ld t !! name = None →
  http (Request POST (assign_managed_labels.labels_API p)
          (assign_managed_labels.basic_auth p)
          (Some (JObj [("key", JStr (assign_managed_labels.key_of t));
                       ("value", JStr name)]))) (pce_state w) = (Some r, s') →
  assign_managed_labels.resolve p t (Some name) l w =
    (match content r with
     | EmptyString => Raise IndexError
     | String c _ => Ok tt
     end,
     match content r with
     | EmptyString => l
     | String c _ =>
         assign_managed_labels.set_href t (JNum (Z.of_nat (nat_of_ascii c)))
           (assign_managed_labels.set_labels_details
              (assign_managed_labels.labels_store t name
                 (JNum (Z.of_nat (nat_of_ascii c))) ld) l)
     end,
     World s' (sent w ++
               [Request POST (assign_managed_labels.labels_API p)
                  (assign_managed_labels.basic_auth p)
                  (Some (JObj [("key", JStr (assign_managed_labels.key_of t));
                               ("value", JStr name)]))])).
Proof.
  intros Hld Hlook Hh.
  unfold assign_managed_labels.resolve, bind, read_var. rewrite Hld, Hlook.
  unfold assign_managed_labels.create_label, bind, requests. rewrite Hh.
  unfold ret, lift. destruct (content r); reflexivity.
Qed.

Lemma created_identifier_is_first_byte_witness :
  @assign_managed_labels.resolve _ (scripted script_one_match) assign_params
    assign_managed_labels.Role (Some "db") listed_locals (World [] []) =
    (match content (Response 201 (dumps sample_created)) with
     | EmptyString => Raise IndexError
     | String c _ => Ok tt
     end,
     match content (Response 201 (dumps sample_created)) with
     | EmptyString => listed_locals
     | String c _ =>
         assign_managed_labels.set_href assign_managed_labels.Role
           (JNum (Z.of_nat (nat_of_ascii c)))
           (assign_managed_labels.set_labels_details
              (assign_managed_labels.labels_store assign_managed_labels.Role "db"
                 (JNum (Z.of_nat (nat_of_ascii c))) sample_catalog) listed_locals)
     end,
     World [JObj [("key", JStr "role"); ("value", JStr "db")]]
       (sent (World ([] : list json) []) ++
        [Request POST (assign_managed_labels.labels_API assign_params)
           (assign_managed_labels.basic_auth assign_params)
           (Some (JObj [("key", JStr (assign_managed_labels.key_of
                                         assign_managed_labels.Role));
                        ("value", JStr "db")]))])).
Proof.
  apply (@created_identifier_is_first_byte _ (scripted script_one_match) assign_params
           assign_managed_labels.Role "db" sample_catalog listed_locals (World [] [])
           (Response 201 (dumps sample_created))
           [JObj [("key", JStr "role"); ("value", JStr "db")]]).
  - reflexivity.
  - reflexivity.
  - reflexivity.
Defined.

(** X20. A hit while one of the four identifier variables has never been
    assigned (a cell was missing in every row so far): the step raises
    UnboundLocalError and sends no update. *)
Theorem hit_with_unbound_identifier_raises {S} `{!Externals S}
    (p : assign_managed_labels.params) (ip pip : option string) (values d : json)
    (a : string) (t : assign_managed_labels.label_type)
    (l : assign_managed_labels.locals) (w : world S) :
  getitem d "address" = Ok (JStr a) →
  getitem values "public_ip" = Ok (of_csv pip) →
  bool_decide (Some a = ip) || bool_decide (pip = ip) = true →
  assign_managed_labels.href_var t l = None →
  assign_managed_labels.assign_step p ip values d l w =
    (Raise UnboundLocalError, assign_managed_labels.set_check 1 l, w).
Proof.
  intros Hd Hpip Hhit Hvar.
  unfold assign_managed_labels.assign_step, bind, lift. rewrite Hd.
  change (JStr a) with (of_csv (Some a)). rewrite py_eq_of_csv.
  assert (Hfirst :
    (if bool_decide (Some a = ip) then ret true
     else (fun l0 (w0 : world S) =>
             match (fun l1 (w1 : world S) => (getitem values "public_ip", l1, w1)) l0 w0 with
             | (Ok a0, l', w') => ret (py_eq a0 ip) l' w'
             | (Raise e, l', w') => (Raise e, l', w')
             | (Exit o, l', w') => (Exit o, l', w')
             end)) l w = (Ok true, l, w)).
  { destruct (bool_decide (Some a = ip)); [reflexivity |].
    simpl in Hhit. rewrite Hpip, py_eq_of_csv, Hhit. reflexivity. }
  rewrite Hfirst. unfold modify, read_var. simpl.
  destruct t; simpl in Hvar.
  - rewrite Hvar. reflexivity.
  - destruct (assign_managed_labels.role_href l); simpl; [rewrite Hvar |]; reflexivity.
  - destruct (assign_managed_labels.role_href l); simpl; [| reflexivity].
    destruct (assign_managed_labels.app_href l); simpl; [rewrite Hvar |]; reflexivity.
  - destruct (assign_managed_labels.role_href l); simpl; [| reflexivity].
    destruct (assign_managed_labels.app_href l); simpl; [| reflexivity].
    destruct (assign_managed_labels.env_href l); simpl; [rewrite Hvar |]; reflexivity.
Qed.

Lemma hit_with_unbound_identifier_raises_witness :
  @assign_managed_labels.assign_step _ (scripted script_one_match) assign_params
    (Some "192.168.1.113")
    (workload_object "/orgs/1/workloads/w1" "192.168.1.113" ["10.0.0.7"])
    (JObj [("name", JStr "eth0"); ("address", JStr "10.0.0.7")])
    listed_locals (World [] []) =
    (Raise UnboundLocalError, assign_managed_labels.set_check 1 listed_locals,
     World [] []).
Proof.
  apply (@hit_with_unbound_identifier_raises _ (scripted script_one_match) assign_params
           (Some "192.168.1.113") (Some "192.168.1.113")
           (workload_object "/orgs/1/workloads/w1" "192.168.1.113" ["10.0.0.7"])
           (JObj [("name", JStr "eth0"); ("address", JStr "10.0.0.7")])
           "10.0.0.7" assign_managed_labels.Env listed_locals (World [] []));
    reflexivity.
Defined.

(** X21. Whenever the body of the labels answer is exactly 500 bytes long,
    whatever it holds, the run ends with an AttributeError that nothing
    catches, having sent the labels GET only. *)
Theorem labels_answer_of_500_bytes_raises {S} `{!Externals S}
    (p : assign_managed_labels.params) (s s' : S) (r : response) :
  assign_managed_labels.check_mode p = false →
  http (Request GET (assign_managed_labels.labels_API p)
          (assign_managed_labels.basic_auth p) None) s = (Some r, s') →
  String.length (content r) = 500%nat →
  assign_managed_labels.main p s =
    (Raise AttributeError, assign_managed_labels.init_locals,
     World s' [Request GET (assign_managed_labels.labels_API p)
                 (assign_managed_labels.basic_auth p) None]).
Proof.
  intros Hcheck Hh Hlen.
  unfold assign_managed_labels.main, assign_managed_labels.run_module.
  rewrite Hcheck. unfold bind at 1.
  rewrite (display_labels_500_bytes p assign_managed_labels.init_locals (World s [])
             r s' Hh Hlen).
  reflexivity.
Qed.

Lemma labels_answer_of_500_bytes_raises_witness :
  @assign_managed_labels.main _ (scripted script_500_bytes) assign_params [] =
    (Raise AttributeError, assign_managed_labels.init_locals,
     World [] [Request GET (assign_managed_labels.labels_API assign_params)
                 (assign_managed_labels.basic_auth assign_params) None]).
Proof.
  apply (@labels_answer_of_500_bytes_raises _ (scripted script_500_bytes)
           assign_params [] [] (Response 200 padded_empty_listing)).
  - reflexivity.
  - reflexivity.
  - vm_compute. reflexivity.
Defined.

Section ListedRow.
Import assign_managed_labels.
Context {S : Type} `{!Externals S}.
Variable p : params.

(** A cell whose value the catalog lists: the variable is bound to the
    listed identifier and nothing is sent. *)
Lemma resolve_listed (t : label_type) (v : string) (h : json) (ld : labels)
    (l : locals) (w : world S) :
  labels_details l = Some ld → ld t !! v = Some h →
  resolve p t (Some v) l w = (Ok tt, set_href t h l, w).
Proof.
  intros Hld Hlook. unfold resolve, bind, read_var. rewrite Hld, Hlook. reflexivity.
Qed.
End ListedRow.

(** X22. A row whose four labels are all listed in the catalog creates
    nothing: it fetches the workloads once and then sends the updates of the
    matching loop, each carrying the listed identifiers that are truthy, in
    the order role, app, env, loc; the target is recorded once per update,
    or once as not assigned when there is none. *)
Theorem listed_row_updates {S} `{!Externals S}
    (p : assign_managed_labels.params) (rows : row) (ip : option string)
    (role app env loc : string) (h1 h2 h3 h4 : json)
    (ld : assign_managed_labels.labels)
    (l : assign_managed_labels.locals) (w : world S)
    (r : response) (s1 : S) (vs : list json) (ms : list managed_workload) :
  rows !! "ip" = Some ip → rows !! "role" = Some (Some role) →
  rows !! "app" = Some (Some app) → rows !! "env" = Some (Some env) →
  rows !! "loc" = Some (Some loc) →
  assign_managed_labels.labels_details l = Some ld →
  ld assign_managed_labels.Role !! role = Some h1 →
  ld assign_managed_labels.App !! app = Some h2 →
  ld assign_managed_labels.Env !! env = Some h3 →
  ld assign_managed_labels.Loc !! loc = Some h4 →
  http (Request GET (assign_managed_labels.API p)
          (assign_managed_labels.basic_auth p) None) (pce_state w) = (Some r, s1) →
  json_loads (text r) = Some (JArr vs) →
  Forall2 represents vs ms →
  updates_answered (S:=S) →
  ∃ l' w',
    assign_managed_labels.row_body p rows l w = (Ok tt, l', w') ∧
    sent w' =
      sent w ++
      Request GET (assign_managed_labels.API p) (assign_managed_labels.basic_auth p) None
      :: updates_for p ip h1 h2 h3 h4 ms ∧
    assign_managed_labels.assigned l' =
      assign_managed_labels.assigned l
      ++ repeat ip (length (updates_for p ip h1 h2 h3 h4 ms)) ∧
    assign_managed_labels.not_assigned l' =
      assign_managed_labels.not_assigned l
      ++ match updates_for p ip h1 h2 h3 h4 ms with [] => [ip] | _ => [] end.
Proof.
  intros Hip Hrole Happ Henv Hloc Hld L1 L2 L3 L4 Hget Hjson Hrep Hans.
  cut (returns (assign_managed_labels.row_body p rows) l w
         (fun _ l' w' =>
            sent w' =
              sent w ++
              Request GET (assign_managed_labels.API p)
                (assign_managed_labels.basic_auth p) None
              :: updates_for p ip h1 h2 h3 h4 ms ∧
            assign_managed_labels.assigned l' =
              assign_managed_labels.assigned l
              ++ repeat ip (length (updates_for p ip h1 h2 h3 h4 ms)) ∧
            assign_managed_labels.not_assigned l' =
              assign_managed_labels.not_assigned l
              ++ match updates_for p ip h1 h2 h3 h4 ms with [] => [ip] | _ => [] end)).
  { intros ([] & l' & w' & Hrun & HQ). exists l', w'. split; assumption. }
  unfold assign_managed_labels.row_body.
  rewrite (row_get_cell _ _ _ Hip), (row_get_cell _ _ _ Hrole),
    (row_get_cell _ _ _ Happ), (row_get_cell _ _ _ Henv), (row_get_cell _ _ _ Hloc).
  do 5 apply returns_bind, returns_lift.
  apply returns_bind, (returns_requests _ r s1); [exact Hget |].
  unfold loads. rewrite Hjson. apply returns_bind, returns_lift.
  apply returns_bind.
  eapply returns_eq; [apply (resolve_listed p _ _ h1 ld); [exact Hld | exact L1] |].
  apply returns_bind.
  eapply returns_eq; [apply (resolve_listed p _ _ h2 ld); [exact Hld | exact L2] |].
  apply returns_bind.
  eapply returns_eq; [apply (resolve_listed p _ _ h3 ld); [exact Hld | exact L3] |].
  apply returns_bind.
  eapply returns_eq; [apply (resolve_listed p _ _ h4 ld); [exact Hld | exact L4] |].
  eapply returns_mono;
    [apply (assign_phase_updates p ip vs ms h1 h2 h3 h4);
     [exact Hrep | reflexivity | reflexivity | reflexivity | reflexivity | exact Hans] |].
  intros ? l' w' (Hs & Ha & Hn). simpl in Hs, Ha, Hn.
  split; [rewrite Hs, <- app_assoc; reflexivity |].
  split; [exact Ha | exact Hn].
Qed.

Lemma listed_row_updates_witness :
  ∃ l' w',
    @assign_managed_labels.row_body _ (scripted script_one_match) assign_params
      (workload_row "192.168.1.113" "web" "billing" "prod" "us-east")
      listed_locals (World [] []) = (Ok tt, l', w') ∧
    sent w' =
      sent (World ([] : list json) []) ++
      Request GET (assign_managed_labels.API assign_params)
        (assign_managed_labels.basic_auth assign_params) None
      :: updates_for assign_params (Some "192.168.1.113")
           (JStr "/orgs/1/labels/1") (JStr "/orgs/1/labels/2")
           (JStr "/orgs/1/labels/3") (JStr "/orgs/1/labels/4")
           [ManagedWorkload "/orgs/1/workloads/w1" (Some "192.168.1.113") ["10.0.0.7"]] ∧
    assign_managed_labels.assigned l' =
      assign_managed_labels.assigned listed_locals
      ++ repeat (Some "192.168.1.113")
           (length (updates_for assign_params (Some "192.168.1.113")
                      (JStr "/orgs/1/labels/1") (JStr "/orgs/1/labels/2")
                      (JStr "/orgs/1/labels/3") (JStr "/orgs/1/labels/4")
                      [ManagedWorkload "/orgs/1/workloads/w1" (Some "192.168.1.113")
                         ["10.0.0.7"]])) ∧
    assign_managed_labels.not_assigned l' =
      assign_managed_labels.not_assigned listed_locals
      ++ match updates_for assign_params (Some "192.168.1.113")
                 (JStr "/orgs/1/labels/1") (JStr "/orgs/1/labels/2")
                 (JStr "/orgs/1/labels/3") (JStr "/orgs/1/labels/4")
                 [ManagedWorkload "/orgs/1/workloads/w1" (Some "192.168.1.113")
                    ["10.0.0.7"]]
         with [] => [Some "192.168.1.113"] | _ => [] end.
Proof.
  apply (@listed_row_updates _ (scripted script_one_match) assign_params
           (workload_row "192.168.1.113" "web" "billing" "prod" "us-east")
           (Some "192.168.1.113") "web" "billing" "prod" "us-east"
           (JStr "/orgs/1/labels/1") (JStr "/orgs/1/labels/2")
           (JStr "/orgs/1/labels/3") (JStr "/orgs/1/labels/4")
           sample_catalog listed_locals (World [] [])
           (Response 200 (dumps (workloads_json script_one_match))) []
           [workload_object "/orgs/1/workloads/w1" "192.168.1.113" ["10.0.0.7"]]
           [ManagedWorkload "/orgs/1/workloads/w1" (Some "192.168.1.113") ["10.0.0.7"]]).
  - reflexivity.
  - reflexivity.
  - reflexivity.
  - reflexivity.
  - reflexivity.
  - reflexivity.
  - reflexivity.
  - reflexivity.
  - reflexivity.
  - reflexivity.
  - reflexivity.
  - vm_compute. reflexivity.
  - repeat constructor. exists [JObj [("name", JStr "eth0"); ("address", JStr "10.0.0.7")]].
    repeat constructor.
  - apply scripted_updates_answered.
Defined.
